(** * knm::vulkan_tools: device negotiation, swap chain and frame loop

    A shallow embedding of the parts of [knm_vulkan_tools.hpp] that carry
    control flow: the capability negotiator ([compareFeatures],
    [isDeviceSuitable], [findQueueFamilies], [pickPhysicalDevice]), the
    logical-device builder, the swap-chain manager and the per-frame
    presentation loop ([drawFrame], [mainLoop]).

    The Vulkan driver, GLFW and the user hooks are the environment: every
    answer they give is an explicit argument of the embedded function, and
    every call the library makes into them is recorded in a trace.

    The three hooks called along a frame ([getCommandBuffers],
    [onSwapChainAboutToBeDestroyed], [onSwapChainReady]) are recorded as
    calls that return. The library does not catch what a hook throws, so
    a run in which one does ends at that call with the exception of the
    hook; the runs described here are the ones up to such a call. *)

From stdpp Require Import base gmap sets list strings.
From Stdlib Require Import ZArith Lia.

#[local] Set Warnings "-clear-no-such-hyp".

Local Open Scope Z_scope.

(** ** Constants of the Vulkan headers *)

Definition VkResult := Z.
Definition VK_SUCCESS : VkResult := 0.
Definition VK_SUBOPTIMAL_KHR : VkResult := 1000001003.
Definition VK_ERROR_OUT_OF_DATE_KHR : VkResult := -1000001004.
Definition VK_ERROR_DEVICE_LOST : VkResult := -4.
Definition VK_ERROR_OUT_OF_DEVICE_MEMORY : VkResult := -2.

Definition VkBool32 := Z.
Definition VK_TRUE : VkBool32 := 1.
Definition VK_FALSE : VkBool32 := 0.

(** C truth value of an integer. *)
Definition truthy (b : Z) : bool := negb (b =? 0).

Definition UINT32_MAX : Z := 4294967295.
Definition to_uint32 (z : Z) : Z := z mod 4294967296.

(** VK_MAKE_API_VERSION(0, 1, minor, 0) *)
Definition VK_API_VERSION_1_0 : Z := 4194304.
Definition VK_API_VERSION_1_1 : Z := 4198400.
Definition VK_API_VERSION_1_2 : Z := 4202496.
Definition VK_API_VERSION_1_3 : Z := 4206592.

Definition VK_QUEUE_GRAPHICS_BIT : Z := 1.
Definition VK_FENCE_CREATE_SIGNALED_BIT : Z := 1.

Definition VK_FORMAT_UNDEFINED : Z := 0.
Definition VK_FORMAT_B8G8R8A8_SRGB : Z := 50.
Definition VK_COLOR_SPACE_SRGB_NONLINEAR_KHR : Z := 0.
Definition VK_PRESENT_MODE_MAILBOX_KHR : Z := 1.
Definition VK_PRESENT_MODE_FIFO_KHR : Z := 2.

Definition VK_SHARING_MODE_EXCLUSIVE : Z := 0.
Definition VK_SHARING_MODE_CONCURRENT : Z := 1.

Definition VkImageLayout := Z.
Definition VK_IMAGE_LAYOUT_UNDEFINED : VkImageLayout := 0.
Definition VK_IMAGE_LAYOUT_GENERAL : VkImageLayout := 1.
Definition VK_IMAGE_LAYOUT_SHADER_READ_ONLY_OPTIMAL : VkImageLayout := 5.
Definition VK_IMAGE_LAYOUT_TRANSFER_SRC_OPTIMAL : VkImageLayout := 6.
Definition VK_IMAGE_LAYOUT_TRANSFER_DST_OPTIMAL : VkImageLayout := 7.

Definition VK_ACCESS_SHADER_READ_BIT : Z := 32.
Definition VK_ACCESS_TRANSFER_WRITE_BIT : Z := 4096.
Definition VK_PIPELINE_STAGE_TOP_OF_PIPE_BIT : Z := 1.
Definition VK_PIPELINE_STAGE_FRAGMENT_SHADER_BIT : Z := 128.
Definition VK_PIPELINE_STAGE_TRANSFER_BIT : Z := 4096.

(** Opaque API handles (images, views, swap chains, command buffers). *)
Definition handle := Z.
Definition VK_NULL_HANDLE : handle := 0.

(** ** Plain data structures *)

Record VkExtent2D := { width : Z; height : Z }.

Record VkSurfaceFormatKHR := { format : Z; colorSpace : Z }.

Record VkSurfaceCapabilitiesKHR := {
  minImageCount : Z;
  maxImageCount : Z;
  currentExtent : VkExtent2D;
  minImageExtent : VkExtent2D;
  maxImageExtent : VkExtent2D;
  currentTransform : Z
}.

(** [swapChainSupportDetails_t] *)
Record swapChainSupportDetails_t := {
  capabilities : VkSurfaceCapabilitiesKHR;
  formats : list VkSurfaceFormatKHR;
  presentationModes : list Z
}.

(** [queueFamilyIndices_t]: the role -> family-index map is a [std::map]. *)
Record queueFamilyIndices_t := {
  nbRequiredFamilies : nat;
  families : gmap Z Z
}.

Definition GRAPHICS_QUEUE_FAMILY : Z := 0.
Definition PRESENTATION_QUEUE_FAMILY : Z := 1.

Definition isComplete (indices : queueFamilyIndices_t) : bool :=
  bool_decide (size (families indices) = nbRequiredFamilies indices).

(** [families[k]] of [std::map]: the stored value, or a value-initialised
    (zero) entry when the key is absent. *)
Definition families_at (indices : queueFamilyIndices_t) (k : Z) : Z :=
  default 0 (families indices !! k).

(** One queue family as the driver reports it: its [queueFlags] and the
    answer of [vkGetPhysicalDeviceSurfaceSupportKHR] for the surface. *)
Record QueueFamily := {
  queueFlags : Z;
  presentationSupport : VkBool32
}.

(** What the driver answers about one physical device.  A
    [VkPhysicalDevice] handle is modelled by the adapter it designates;
    [VK_NULL_HANDLE] is [None]. The four feature blocks are the [VkBool32]
    words of [VkPhysicalDeviceFeatures] and of the 1.1, 1.2 and 1.3 feature
    structures, starting at their first flag. *)
Record PhysicalDevice := {
  pd_queueFamilies : list QueueFamily;
  pd_extensions : list string;
  pd_support : swapChainSupportDetails_t;
  pd_apiVersion : Z;
  pd_features10 : list VkBool32;
  pd_features11 : list VkBool32;
  pd_features12 : list VkBool32;
  pd_features13 : list VkBool32;
  pd_framebufferColorSampleCounts : Z;
  pd_framebufferDepthSampleCounts : Z
}.

(** [config_t], restricted to the fields that device negotiation reads. *)
Record config_t := {
  deviceExtensions : list string;
  vulkanVersion : Z;
  features13 : list VkBool32;
  features12 : list VkBool32;
  features11 : list VkBool32;
  features10 : list VkBool32
}.

(** ** Fences

    Modelled from the Vulkan API: a fence is signaled, unsignaled with a
    queue submission pending that will signal it, or unsignaled with
    nothing pending. [FenceNull] is a slot still holding [VK_NULL_HANDLE]. *)
Inductive fence : Type :=
| FenceNull
| FenceSignaled
| FencePending
| FenceUnsignaled.

Global Instance fence_eq_dec : EqDecision fence.
Proof. solve_decision. Defined.

(** [vkCreateFence] with the given creation flags. *)
Definition vkCreateFence (flags : Z) : fence :=
  if Z.testbit flags 0 then FenceSignaled else FenceUnsignaled.

(** [vkDeviceWaitIdle]: every pending submission completes. *)
Definition idle_fence (f : fence) : fence :=
  match f with
  | FencePending => FenceSignaled
  | other => other
  end.

(** ** Application state *)

Record Application := {
  config : config_t;
  framebufferResized : bool;
  surfaceImageFormat : Z;
  physicalDevice : option PhysicalDevice;
  msaaNbMaxSamples : Z;
  swapChain : handle;
  swapChainImages : list handle;
  swapChainImageViews : list handle;
  swapChainExtent : VkExtent2D;
  inFlightFences : list fence;
  currentFrame : Z;
  commandBufferList : list handle
}.

Definition MAX_NB_FRAMES_IN_FLIGHT : Z := 2.

Definition set_framebufferResized (v : bool) (a : Application) : Application :=
  {| config := config a; framebufferResized := v;
     surfaceImageFormat := surfaceImageFormat a;
     physicalDevice := physicalDevice a;
     msaaNbMaxSamples := msaaNbMaxSamples a; swapChain := swapChain a;
     swapChainImages := swapChainImages a;
     swapChainImageViews := swapChainImageViews a;
     swapChainExtent := swapChainExtent a;
     inFlightFences := inFlightFences a; currentFrame := currentFrame a;
     commandBufferList := commandBufferList a |}.

Definition set_surfaceImageFormat (v : Z) (a : Application) : Application :=
  {| config := config a; framebufferResized := framebufferResized a;
     surfaceImageFormat := v;
     physicalDevice := physicalDevice a;
     msaaNbMaxSamples := msaaNbMaxSamples a; swapChain := swapChain a;
     swapChainImages := swapChainImages a;
     swapChainImageViews := swapChainImageViews a;
     swapChainExtent := swapChainExtent a;
     inFlightFences := inFlightFences a; currentFrame := currentFrame a;
     commandBufferList := commandBufferList a |}.

Definition set_physicalDevice (v : option PhysicalDevice) (msaa : Z)
    (a : Application) : Application :=
  {| config := config a; framebufferResized := framebufferResized a;
     surfaceImageFormat := surfaceImageFormat a;
     physicalDevice := v;
     msaaNbMaxSamples := msaa; swapChain := swapChain a;
     swapChainImages := swapChainImages a;
     swapChainImageViews := swapChainImageViews a;
     swapChainExtent := swapChainExtent a;
     inFlightFences := inFlightFences a; currentFrame := currentFrame a;
     commandBufferList := commandBufferList a |}.

Definition set_swapChain (h : handle) (imgs : list handle) (e : VkExtent2D)
    (a : Application) : Application :=
  {| config := config a; framebufferResized := framebufferResized a;
     surfaceImageFormat := surfaceImageFormat a;
     physicalDevice := physicalDevice a;
     msaaNbMaxSamples := msaaNbMaxSamples a; swapChain := h;
     swapChainImages := imgs;
     swapChainImageViews := swapChainImageViews a;
     swapChainExtent := e;
     inFlightFences := inFlightFences a; currentFrame := currentFrame a;
     commandBufferList := commandBufferList a |}.

Definition set_swapChainImageViews (v : list handle) (a : Application)
    : Application :=
  {| config := config a; framebufferResized := framebufferResized a;
     surfaceImageFormat := surfaceImageFormat a;
     physicalDevice := physicalDevice a;
     msaaNbMaxSamples := msaaNbMaxSamples a; swapChain := swapChain a;
     swapChainImages := swapChainImages a;
     swapChainImageViews := v;
     swapChainExtent := swapChainExtent a;
     inFlightFences := inFlightFences a; currentFrame := currentFrame a;
     commandBufferList := commandBufferList a |}.

Definition set_inFlightFences (v : list fence) (a : Application)
    : Application :=
  {| config := config a; framebufferResized := framebufferResized a;
     surfaceImageFormat := surfaceImageFormat a;
     physicalDevice := physicalDevice a;
     msaaNbMaxSamples := msaaNbMaxSamples a; swapChain := swapChain a;
     swapChainImages := swapChainImages a;
     swapChainImageViews := swapChainImageViews a;
     swapChainExtent := swapChainExtent a;
     inFlightFences := v; currentFrame := currentFrame a;
     commandBufferList := commandBufferList a |}.

Definition set_currentFrame (v : Z) (a : Application) : Application :=
  {| config := config a; framebufferResized := framebufferResized a;
     surfaceImageFormat := surfaceImageFormat a;
     physicalDevice := physicalDevice a;
     msaaNbMaxSamples := msaaNbMaxSamples a; swapChain := swapChain a;
     swapChainImages := swapChainImages a;
     swapChainImageViews := swapChainImageViews a;
     swapChainExtent := swapChainExtent a;
     inFlightFences := inFlightFences a; currentFrame := v;
     commandBufferList := commandBufferList a |}.

Definition set_commandBufferList (v : list handle) (a : Application)
    : Application :=
  {| config := config a; framebufferResized := framebufferResized a;
     surfaceImageFormat := surfaceImageFormat a;
     physicalDevice := physicalDevice a;
     msaaNbMaxSamples := msaaNbMaxSamples a; swapChain := swapChain a;
     swapChainImages := swapChainImages a;
     swapChainImageViews := swapChainImageViews a;
     swapChainExtent := swapChainExtent a;
     inFlightFences := inFlightFences a; currentFrame := currentFrame a;
     commandBufferList := v |}.

(** ** Outcomes, events and the state monad of the application *)

Inductive exn : Type :=
| runtime_error (what : string)
| invalid_argument (what : string).

(** Why a call did not return to its caller. *)
Inductive stop : Type :=
| Thrown (e : exn)            (* a C++ exception propagates *)
| BlockedOnFence (slot : Z)   (* vkWaitForFences on a fence nobody signals *)
| WaitingForEvents            (* still inside the minimised-window wait *)
| Undefined.                  (* access outside a vector, null device *)

Inductive outcome (A : Type) : Type :=
| Returned (a : A)
| Stopped (why : stop).
Arguments Returned {A} a.
Arguments Stopped {A} why.

Record VkSwapchainCreateInfoKHR := {
  ci_minImageCount : Z;
  ci_imageFormat : Z;
  ci_imageColorSpace : Z;
  ci_imageExtent : VkExtent2D;
  ci_preTransform : Z;
  ci_presentMode : Z;
  ci_imageSharingMode : Z;
  ci_queueFamilyIndexCount : Z
}.

Record VkDeviceQueueCreateInfo := {
  queueFamilyIndex : Z;
  queueCount : Z
}.

(** Calls into the driver, GLFW and the user hooks, with the answers that
    steer the control flow. [slot] is the value of [currentFrame] used to
    index the three per-frame vectors. *)
Inductive event : Type :=
| EvPollEvents
| EvWaitForFences (slot : Z) (observed : fence)
| EvAcquireNextImage (slot : Z) (result : VkResult) (imageIndex : Z)
| EvResetFences (slot : Z)
| EvGetCommandBuffers (imageIndex : Z)
| EvQueueSubmit (slot : Z) (buffers : list handle) (result : VkResult)
| EvQueuePresent (slot : Z) (imageIndex : Z) (result : VkResult)
| EvRecreateSwapChain
| EvGetFramebufferSize (w h : Z)
| EvWaitEvents
| EvDeviceWaitIdle
| EvSwapChainAboutToBeDestroyed
| EvDestroyImageView (view : handle)
| EvDestroySwapchain (chain : handle)
| EvCreateSwapchain (info : VkSwapchainCreateInfoKHR) (result : VkResult)
| EvCreateImageView (image : handle) (result : VkResult)
| EvSwapChainReady
| EvCreateSemaphore (result : VkResult)
| EvCreateFence (flags : Z) (result : VkResult)
| EvCreateDevice (queueCreateInfos : list VkDeviceQueueCreateInfo)
    (extensions : list string) (result : VkResult)
| EvGetDeviceQueue (family : Z).

Definition M (A : Type) : Type :=
  Application -> outcome A * Application * list event.

Definition ret {A} (a : A) : M A := fun s => (Returned a, s, []).

Definition bind {A B} (m : M A) (k : A -> M B) : M B := fun s =>
  match m s with
  | (Returned a, s1, t1) =>
      match k a s1 with
      | (o, s2, t2) => (o, s2, t1 ++ t2)
      end
  | (Stopped why, s1, t1) => (Stopped why, s1, t1)
  end.

Definition halt {A} (why : stop) : M A := fun s => (Stopped why, s, []).
Definition throw {A} (e : exn) : M A := halt (Thrown e).
Definition emit (e : event) : M unit := fun s => (Returned tt, s, [e]).
Definition get : M Application := fun s => (Returned s, s, []).
Definition modify (f : Application -> Application) : M unit :=
  fun s => (Returned tt, f s, []).

Declare Scope app_scope.
Delimit Scope app_scope with app.
Notation "x ← m ; k" := (bind m (fun x => k))
  (at level 20, m at level 100, k at level 200, only parsing) : app_scope.
Notation "m ;; k" := (bind m (fun _ => k))
  (at level 100, k at level 200, only parsing, right associativity) : app_scope.
Local Open Scope app_scope.

(** ** Capability negotiator *)

(** The loop of [compareFeatures]: [i] is the loop index and [remaining]
    is [nb - i]. A word outside a block reads as zero. *)
Fixpoint compareFeatures_loop (required_bool supported_bool : list VkBool32)
    (i remaining : nat) (apiVersionSupported : bool) : bool :=
  match remaining with
  | O => true
  | S n =>
      if truthy (default 0 (required_bool !! i))
         && (negb (truthy (default 0 (supported_bool !! i)))
             || negb apiVersionSupported)
      then false
      else compareFeatures_loop required_bool supported_bool (S i) n
             apiVersionSupported
  end.

(** [compareFeatures(required, supported, size, offset, apiVersionSupported)].
    The two pointers advanced by [offset] are the two blocks of [VkBool32]
    words, and [nb = (size - offset) / sizeof(VkBool32)] is the number of
    words of the block. *)
Definition compareFeatures (required supported : list VkBool32) (nb : nat)
    (apiVersionSupported : bool) : bool :=
  compareFeatures_loop required supported 0 nb apiVersionSupported.

Definition set_family (role index : Z) (indices : queueFamilyIndices_t)
    : queueFamilyIndices_t :=
  {| nbRequiredFamilies := nbRequiredFamilies indices;
     families := <[role := index]> (families indices) |}.

Fixpoint findQueueFamilies_loop (queueFamilies : list QueueFamily) (i : Z)
    (indices : queueFamilyIndices_t) : queueFamilyIndices_t :=
  match queueFamilies with
  | [] => indices
  | queueFamily :: rest =>
      let indices1 :=
        if truthy (Z.land (queueFlags queueFamily) VK_QUEUE_GRAPHICS_BIT)
        then set_family GRAPHICS_QUEUE_FAMILY i indices
        else indices in
      let indices2 :=
        if truthy (presentationSupport queueFamily)
        then set_family PRESENTATION_QUEUE_FAMILY i indices1
        else indices1 in
      if isComplete indices2 then indices2
      else findQueueFamilies_loop rest (i + 1) indices2
  end.

Definition findQueueFamilies (device : PhysicalDevice) : queueFamilyIndices_t :=
  findQueueFamilies_loop (pd_queueFamilies device) 0
    {| nbRequiredFamilies := 2; families := ∅ |}.

Definition portability_subset : string := "VK_KHR_portability_subset".

Definition getRequiredDeviceExtensions (cfg : config_t)
    (device : PhysicalDevice) : list string :=
  if existsb (String.eqb portability_subset) (pd_extensions device)
  then deviceExtensions cfg ++ [portability_subset]
  else deviceExtensions cfg.

(** The [std::set<std::string>] of required names, from which every
    available name is erased. *)
Definition checkDeviceExtensionSupport (cfg : config_t)
    (device : PhysicalDevice) : bool :=
  let requiredExtensions := getRequiredDeviceExtensions cfg device in
  let deviceExtensions : gset string := list_to_set requiredExtensions in
  let remaining :=
    foldl (fun s name => s ∖ {[ name ]}) deviceExtensions
      (pd_extensions device) in
  bool_decide (remaining = ∅).

(** [Application::isDeviceSuitable], as compiled against headers that
    define [VK_API_VERSION_1_1], [VK_API_VERSION_1_2] and
    [VK_API_VERSION_1_3]. For each structure, [sizeof] minus the offset of
    its first flag spans the block of flags, so [nb] is the length of the
    required block. *)
Definition isDeviceSuitable (cfg : config_t) (device : PhysicalDevice) : bool :=
  let indices := findQueueFamilies device in
  let extensionsSupported := checkDeviceExtensionSupport cfg device in
  let swapChainAdequate :=
    if extensionsSupported
    then negb (bool_decide (formats (pd_support device) = []))
         && negb (bool_decide (presentationModes (pd_support device) = []))
    else false in
  if negb (isComplete indices) || negb extensionsSupported
     || negb swapChainAdequate
  then false
  else if vulkanVersion cfg =? VK_API_VERSION_1_0
  then compareFeatures (features10 cfg) (pd_features10 device)
         (length (features10 cfg)) true
  else
    if negb (compareFeatures (features10 cfg) (pd_features10 device)
               (length (features10 cfg)) true)
    then false
    else if negb (compareFeatures (features11 cfg) (pd_features11 device)
                    (length (features11 cfg))
                    (VK_API_VERSION_1_1 <=? pd_apiVersion device))
    then false
    else if negb (compareFeatures (features12 cfg) (pd_features12 device)
                    (length (features12 cfg))
                    (VK_API_VERSION_1_2 <=? pd_apiVersion device))
    then false
    else if negb (compareFeatures (features13 cfg) (pd_features13 device)
                    (length (features13 cfg))
                    (VK_API_VERSION_1_3 <=? pd_apiVersion device))
    then false
    else true.

(** [getMaxUsableSampleCount]: the flags 64, 32, ..., 2 in turn. *)
Definition getMaxUsableSampleCount (device : PhysicalDevice) : Z :=
  let counts := Z.land (pd_framebufferColorSampleCounts device)
                       (pd_framebufferDepthSampleCounts device) in
  default 1 (List.find (fun flag => truthy (Z.land counts flag))
                       [64; 32; 16; 8; 4; 2]).

Definition chooseSwapSurfaceFormat (availableFormats : list VkSurfaceFormatKHR)
    : VkSurfaceFormatKHR :=
  match List.find (fun f => (format f =? VK_FORMAT_B8G8R8A8_SRGB)
                            && (colorSpace f =? VK_COLOR_SPACE_SRGB_NONLINEAR_KHR))
                  availableFormats with
  | Some f => f
  | None => default {| format := VK_FORMAT_UNDEFINED; colorSpace := 0 |}
                    (availableFormats !! 0%nat)
  end.

Definition chooseSwapPresentationMode (availablePresentModes : list Z) : Z :=
  match List.find (fun m => m =? VK_PRESENT_MODE_MAILBOX_KHR)
                  availablePresentModes with
  | Some m => m
  | None => VK_PRESENT_MODE_FIFO_KHR
  end.

(** The [for] loop of [pickPhysicalDevice]: the first suitable device is
    stored and the loop is left. *)
Fixpoint pickPhysicalDevice_loop (cfg : config_t) (devices : list PhysicalDevice)
    (a : Application) : Application :=
  match devices with
  | [] => a
  | device :: rest =>
      if isDeviceSuitable cfg device
      then set_physicalDevice (Some device) (getMaxUsableSampleCount device) a
      else pickPhysicalDevice_loop cfg rest a
  end.

(** [devices] is what [vkEnumeratePhysicalDevices] reports, in order. *)
Definition pickPhysicalDevice (devices : list PhysicalDevice) : M unit :=
  if bool_decide (length devices = 0%nat)
  then throw (runtime_error "Failed to find GPUs with Vulkan support!")
  else
    a ← get;
    modify (pickPhysicalDevice_loop (config a) devices);;
    a ← get;
    match physicalDevice a with
    | None => throw (runtime_error "Failed to find a suitable GPU!")
    | Some device =>
        let surfaceFormat := chooseSwapSurfaceFormat (formats (pd_support device)) in
        modify (set_surfaceImageFormat (format surfaceFormat))
    end.

(** ** Device and queue builder *)

(** A [std::set<uint32_t>], kept as its ascending iteration order. *)
Fixpoint set_insert (x : Z) (s : list Z) : list Z :=
  match s with
  | [] => [x]
  | y :: rest =>
      if x <? y then x :: s
      else if x =? y then s
      else y :: set_insert x rest
  end.

Definition uniqueQueueFamilies (indices : queueFamilyIndices_t) : list Z :=
  set_insert (families_at indices PRESENTATION_QUEUE_FAMILY)
    (set_insert (families_at indices GRAPHICS_QUEUE_FAMILY) []).

Definition queueCreateInfos (indices : queueFamilyIndices_t)
    : list VkDeviceQueueCreateInfo :=
  map (fun queueFamily =>
         {| queueFamilyIndex := queueFamily; queueCount := 1 |})
      (uniqueQueueFamilies indices).

(** [createResult] is the answer of [vkCreateDevice]. *)
Definition createLogicalDevice (createResult : VkResult) : M unit :=
  a ← get;
  match physicalDevice a with
  | None => halt Undefined
  | Some device =>
      let indices := findQueueFamilies device in
      let requiredExtensions := getRequiredDeviceExtensions (config a) device in
      emit (EvCreateDevice (queueCreateInfos indices) requiredExtensions
              createResult);;
      if negb (createResult =? VK_SUCCESS)
      then throw (runtime_error "Failed to create logical device!")
      else
        emit (EvGetDeviceQueue (families_at indices GRAPHICS_QUEUE_FAMILY));;
        emit (EvGetDeviceQueue (families_at indices PRESENTATION_QUEUE_FAMILY))
  end.

(** ** Swap-chain manager *)

(** [std::clamp(v, lo, hi)] *)
Definition std_clamp (v lo hi : Z) : Z :=
  if v <? lo then lo else if hi <? v then hi else v.

(** [framebufferSize] is what [glfwGetFramebufferSize] writes into the two
    [int]s; the [static_cast<uint32_t>] is [to_uint32]. *)
Definition chooseSwapExtent (caps : VkSurfaceCapabilitiesKHR)
    (framebufferSize : Z * Z) : VkExtent2D :=
  if negb (width (currentExtent caps) =? UINT32_MAX)
  then currentExtent caps
  else
    let actualExtent :=
      {| width := to_uint32 (fst framebufferSize);
         height := to_uint32 (snd framebufferSize) |} in
    {| width := std_clamp (width actualExtent) (width (minImageExtent caps))
                  (width (maxImageExtent caps));
       height := std_clamp (height actualExtent) (height (minImageExtent caps))
                   (height (maxImageExtent caps)) |}.

(** What the environment answers during one rebuild of the swap chain. *)
Record RecreateEnv := {
  re_initialSize : Z * Z;
    (* first glfwGetFramebufferSize of recreateSwapChain *)
  re_polls : list (Z * Z * bool);
    (* per turn of the wait loop: the size read, and whether glfwWaitEvents
       delivers a framebuffer-size callback *)
  re_support : swapChainSupportDetails_t;
    (* querySwapChainSupport(physicalDevice) at rebuild time *)
  re_framebufferSize : Z * Z;
    (* glfwGetFramebufferSize inside chooseSwapExtent *)
  re_createResult : VkResult;          (* vkCreateSwapchainKHR *)
  re_chain : handle;
    (* what vkCreateSwapchainKHR leaves in its output parameter, the
       swapChain attribute: the new chain when it succeeds, a value the
       API does not specify when it fails *)
  re_images : list handle;             (* vkGetSwapchainImagesKHR *)
  re_createImageView : handle -> VkResult * handle
    (* vkCreateImageView for an image *)
}.

(** The 1-bit flag set by the GLFW framebuffer-size callback. *)
Definition onFramebufferWindowResized (a : Application) : Application :=
  set_framebufferResized true a.

(** [Application::createSwapChain]. The [swapChain] attribute is the
    output parameter of [vkCreateSwapchainKHR]: it holds what the driver
    left there, also when the creation is refused. *)
Definition createSwapChain (env : RecreateEnv) : M unit :=
  a ← get;
  match physicalDevice a with
  | None => halt Undefined
  | Some device =>
      let swapChainSupport := re_support env in
      let surfaceFormat := chooseSwapSurfaceFormat (formats swapChainSupport) in
      let presentationMode :=
        chooseSwapPresentationMode (presentationModes swapChainSupport) in
      let caps := capabilities swapChainSupport in
      let extent := chooseSwapExtent caps (re_framebufferSize env) in
      let imageCount0 := to_uint32 (minImageCount caps + 1) in
      let imageCount :=
        if (0 <? maxImageCount caps) && (maxImageCount caps <? imageCount0)
        then maxImageCount caps else imageCount0 in
      let indices := findQueueFamilies device in
      let concurrent :=
        negb (families_at indices GRAPHICS_QUEUE_FAMILY
              =? families_at indices PRESENTATION_QUEUE_FAMILY) in
      let createInfo :=
        {| ci_minImageCount := imageCount;
           ci_imageFormat := format surfaceFormat;
           ci_imageColorSpace := colorSpace surfaceFormat;
           ci_imageExtent := extent;
           ci_preTransform := currentTransform caps;
           ci_presentMode := presentationMode;
           ci_imageSharingMode :=
             if concurrent then VK_SHARING_MODE_CONCURRENT
             else VK_SHARING_MODE_EXCLUSIVE;
           ci_queueFamilyIndexCount := if concurrent then 2 else 0 |} in
      emit (EvCreateSwapchain createInfo (re_createResult env));;
      if negb (re_createResult env =? VK_SUCCESS)
      then
        modify (fun a =>
          set_swapChain (re_chain env) (swapChainImages a)
            (swapChainExtent a) a);;
        throw (runtime_error "Failed to create swap chain!")
      else modify (set_swapChain (re_chain env) (re_images env) extent)
  end.

Fixpoint createImageViews_loop (env : RecreateEnv) (images : list handle)
    (i : nat) : M unit :=
  match images with
  | [] => ret tt
  | image :: rest =>
      let '(result, view) := re_createImageView env image in
      emit (EvCreateImageView image result);;
      if negb (result =? VK_SUCCESS)
      then throw (runtime_error "Failed to create image view!")
      else
        modify (fun a =>
          set_swapChainImageViews (<[i := view]> (swapChainImageViews a)) a);;
        createImageViews_loop env rest (S i)
  end.

Definition createImageViews (env : RecreateEnv) : M unit :=
  a ← get;
  modify (set_swapChainImageViews
            (resize (length (swapChainImages a)) VK_NULL_HANDLE
               (swapChainImageViews a)));;
  createImageViews_loop env (swapChainImages a) 0.

Fixpoint destroyImageViews (views : list handle) : M unit :=
  match views with
  | [] => ret tt
  | imageView :: rest => emit (EvDestroyImageView imageView);;
                         destroyImageViews rest
  end.

Definition cleanupSwapChain : M unit :=
  emit EvSwapChainAboutToBeDestroyed;;
  a ← get;
  destroyImageViews (swapChainImageViews a);;
  emit (EvDestroySwapchain (swapChain a)).

(** The [while ((width == 0) || (height == 0))] loop. When the script of
    sizes runs out with the window still minimised, the call has not
    returned. *)
Fixpoint waitWhileMinimized (w h : Z) (polls : list (Z * Z * bool)) : M unit :=
  if (w =? 0) || (h =? 0)
  then
    match polls with
    | [] => halt WaitingForEvents
    | (w', h', resized) :: rest =>
        emit (EvGetFramebufferSize w' h');;
        emit EvWaitEvents;;
        (if resized : bool then modify onFramebufferWindowResized else ret tt);;
        waitWhileMinimized w' h' rest
    end
  else ret tt.

Definition vkDeviceWaitIdle : M unit :=
  emit EvDeviceWaitIdle;;
  modify (fun a => set_inFlightFences (map idle_fence (inFlightFences a)) a).

Definition recreateSwapChain (env : RecreateEnv) : M unit :=
  emit EvRecreateSwapChain;;
  emit (EvGetFramebufferSize (fst (re_initialSize env))
          (snd (re_initialSize env)));;
  waitWhileMinimized (fst (re_initialSize env)) (snd (re_initialSize env))
    (re_polls env);;
  vkDeviceWaitIdle;;
  cleanupSwapChain;;
  createSwapChain env;;
  createImageViews env;;
  emit EvSwapChainReady.

(** ** Frame synchronisation and presentation loop *)

Definition set_fence (slot : Z) (f : fence) (a : Application) : Application :=
  set_inFlightFences (<[Z.to_nat slot := f]> (inFlightFences a)) a.

(** Per slot, the answers of the two [vkCreateSemaphore] calls and of
    [vkCreateFence]; [||] evaluates them left to right and stops at the
    first failure. *)
Fixpoint createSyncObjects_loop (results : nat -> VkResult * VkResult * VkResult)
    (flags : Z) (i remaining : nat) : M unit :=
  match remaining with
  | O => ret tt
  | S n =>
      let '(r1, r2, r3) := results i in
      let failed := throw (runtime_error
        "Failed to create synchronization objects for a frame!") in
      emit (EvCreateSemaphore r1);;
      if negb (r1 =? VK_SUCCESS) then failed
      else
        emit (EvCreateSemaphore r2);;
        if negb (r2 =? VK_SUCCESS) then failed
        else
          emit (EvCreateFence flags r3);;
          if negb (r3 =? VK_SUCCESS) then failed
          else
            modify (set_fence (Z.of_nat i) (vkCreateFence flags));;
            createSyncObjects_loop results flags (S i) n
  end.

Definition createSyncObjects (results : nat -> VkResult * VkResult * VkResult)
    : M unit :=
  modify (fun a =>
    set_inFlightFences
      (resize (Z.to_nat MAX_NB_FRAMES_IN_FLIGHT) FenceNull (inFlightFences a))
      a);;
  createSyncObjects_loop results VK_FENCE_CREATE_SIGNALED_BIT 0
    (Z.to_nat MAX_NB_FRAMES_IN_FLIGHT).

(** [vkWaitForFences] on [inFlightFences[slot]] with an unbounded timeout.
    Modelled from the Vulkan API: the call returns once the fence is
    signaled, which never happens for an unsignaled fence with no
    submission pending. *)
Definition vkWaitForFences (slot : Z) : M unit :=
  a ← get;
  match inFlightFences a !! Z.to_nat slot with
  | None => halt Undefined
  | Some FenceNull => halt Undefined
  | Some FenceUnsignaled =>
      emit (EvWaitForFences slot FenceUnsignaled);;
      halt (BlockedOnFence slot)
  | Some f =>
      emit (EvWaitForFences slot f);;
      modify (set_fence slot FenceSignaled)
  end.

Definition vkResetFences (slot : Z) : M unit :=
  emit (EvResetFences slot);;
  modify (set_fence slot FenceUnsignaled).

(** What the environment answers during one call of [drawFrame]. *)
Record FrameEnv := {
  fe_acquire : VkResult * Z;         (* vkAcquireNextImageKHR, imageIndex *)
  fe_commandBuffers : list handle;   (* written by getCommandBuffers *)
  fe_submit : VkResult;              (* vkQueueSubmit *)
  fe_present : VkResult;             (* vkQueuePresentKHR *)
  fe_recreate : RecreateEnv
}.

Definition acquire_failed : exn :=
  runtime_error "Failed to acquire swap chain image!".
Definition submit_failed : exn :=
  runtime_error "Failed to submit draw command buffer!".
Definition present_failed : exn :=
  runtime_error "Failed to present swap chain image!".

(** [Application::drawFrame]. The [elapsed] time is only handed on to
    [getCommandBuffers] and is left out. *)
Definition drawFrame (env : FrameEnv) : M unit :=
  a ← get;
  let slot := currentFrame a in
  vkWaitForFences slot;;
  let '(result, imageIndex) := fe_acquire env in
  emit (EvAcquireNextImage slot result imageIndex);;
  if result =? VK_ERROR_OUT_OF_DATE_KHR
  then recreateSwapChain (fe_recreate env)
  else if negb (result =? VK_SUCCESS) && negb (result =? VK_SUBOPTIMAL_KHR)
  then throw acquire_failed
  else
    vkResetFences slot;;
    emit (EvGetCommandBuffers imageIndex);;
    modify (set_commandBufferList (fe_commandBuffers env));;
    a ← get;
    emit (EvQueueSubmit slot (commandBufferList a) (fe_submit env));;
    if negb (fe_submit env =? VK_SUCCESS)
    then throw submit_failed
    else
      modify (set_fence slot FencePending);;
      let result := fe_present env in
      emit (EvQueuePresent slot imageIndex result);;
      a ← get;
      (if (result =? VK_ERROR_OUT_OF_DATE_KHR) || (result =? VK_SUBOPTIMAL_KHR)
          || framebufferResized a
       then
         modify (set_framebufferResized false);;
         recreateSwapChain (fe_recreate env)
       else if negb (result =? VK_SUCCESS)
       then throw present_failed
       else ret tt);;
      modify (fun a =>
        set_currentFrame
          (to_uint32 (currentFrame a + 1) mod MAX_NB_FRAMES_IN_FLIGHT) a).

(** One turn of the [while (!glfwWindowShouldClose(window))] loop. *)
Record IterationEnv := {
  it_resized : bool;        (* glfwPollEvents delivers a resize callback *)
  it_nbCommandBuffers : Z;  (* getNbCommandBuffers() *)
  it_frame : FrameEnv
}.

(** [Application::mainLoop]: the script lists the turns taken before
    [glfwWindowShouldClose] answers true. *)
Fixpoint mainLoop (script : list IterationEnv) : M unit :=
  match script with
  | [] => vkDeviceWaitIdle
  | it :: rest =>
      emit EvPollEvents;;
      (if it_resized it then modify onFramebufferWindowResized else ret tt);;
      a ← get;
      let nbCommandBuffers := it_nbCommandBuffers it in
      (if negb (nbCommandBuffers =? Z.of_nat (length (commandBufferList a)))
       then modify (set_commandBufferList
                      (resize (Z.to_nat nbCommandBuffers) VK_NULL_HANDLE
                         (commandBufferList a)))
       else ret tt);;
      (if 0 <? nbCommandBuffers then drawFrame (it_frame it) else ret tt);;
      mainLoop rest
  end.

(** The attribute initialisers of [Application]. *)
Definition initialApplication (cfg : config_t) : Application :=
  {| config := cfg; framebufferResized := false;
     surfaceImageFormat := VK_FORMAT_UNDEFINED;
     physicalDevice := None;
     msaaNbMaxSamples := 1; swapChain := VK_NULL_HANDLE;
     swapChainImages := [];
     swapChainImageViews := [];
     swapChainExtent := {| width := 0; height := 0 |};
     inFlightFences := []; currentFrame := 0;
     commandBufferList := [] |}.

(** ** Layout-transition helper *)

Record VkImageMemoryBarrier := {
  oldLayout : VkImageLayout;
  newLayout : VkImageLayout;
  image : handle;
  levelCount : Z;
  srcAccessMask : Z;
  dstAccessMask : Z
}.

(** Commands recorded into a command buffer. *)
Inductive command : Type :=
| CmdPipelineBarrier (sourceStage destinationStage : Z)
    (barrier : VkImageMemoryBarrier).

(** [recordTransitionImageLayoutCommand]: the outcome and the content of
    the command buffer afterwards. *)
Definition recordTransitionImageLayoutCommand (commandBuffer : list command)
    (img : handle) (fmt : Z) (oldL newL : VkImageLayout) (mipLevels : Z)
    : outcome unit * list command :=
  let barrier srcAccess dstAccess :=
    {| oldLayout := oldL; newLayout := newL; image := img;
       levelCount := mipLevels;
       srcAccessMask := srcAccess; dstAccessMask := dstAccess |} in
  if (oldL =? VK_IMAGE_LAYOUT_UNDEFINED)
     && (newL =? VK_IMAGE_LAYOUT_TRANSFER_DST_OPTIMAL)
  then (Returned tt,
        commandBuffer ++
        [CmdPipelineBarrier VK_PIPELINE_STAGE_TOP_OF_PIPE_BIT
           VK_PIPELINE_STAGE_TRANSFER_BIT
           (barrier 0 VK_ACCESS_TRANSFER_WRITE_BIT)])
  else if (oldL =? VK_IMAGE_LAYOUT_TRANSFER_DST_OPTIMAL)
          && (newL =? VK_IMAGE_LAYOUT_SHADER_READ_ONLY_OPTIMAL)
  then (Returned tt,
        commandBuffer ++
        [CmdPipelineBarrier VK_PIPELINE_STAGE_TRANSFER_BIT
           VK_PIPELINE_STAGE_FRAGMENT_SHADER_BIT
           (barrier VK_ACCESS_TRANSFER_WRITE_BIT VK_ACCESS_SHADER_READ_BIT)])
  else (Stopped (Thrown (invalid_argument "Unsupported layout transition!")),
        commandBuffer).

(** ** Reference wording used in the statements *)

(** Clamping [v] into the bounds [lo, hi]. *)
Definition clamp_into (v lo hi : Z) : Z := Z.max lo (Z.min v hi).

(** ** Concrete scenarios *)

Definition ex_support : swapChainSupportDetails_t :=
  {| capabilities :=
       {| minImageCount := 2; maxImageCount := 3;
          currentExtent := {| width := 800; height := 600 |};
          minImageExtent := {| width := 1; height := 1 |};
          maxImageExtent := {| width := 4096; height := 4096 |};
          currentTransform := 1 |};
     formats := [ {| format := 44; colorSpace := 0 |};
                  {| format := VK_FORMAT_B8G8R8A8_SRGB; colorSpace := 0 |} ];
     presentationModes := [VK_PRESENT_MODE_FIFO_KHR] |}.

(** A surface that leaves the extent to the application. *)
Definition ex_support_sentinel : swapChainSupportDetails_t :=
  {| capabilities :=
       {| minImageCount := 2; maxImageCount := 0;
          currentExtent := {| width := UINT32_MAX; height := UINT32_MAX |};
          minImageExtent := {| width := 1; height := 1 |};
          maxImageExtent := {| width := 4096; height := 4096 |};
          currentTransform := 1 |};
     formats := [ {| format := 44; colorSpace := 0 |} ];
     presentationModes := [VK_PRESENT_MODE_MAILBOX_KHR] |}.

(** The three optional feature tiers of the chain. *)
Inductive tier : Type := Tier11 | Tier12 | Tier13.

Definition tier_version (t : tier) : Z :=
  match t with
  | Tier11 => VK_API_VERSION_1_1
  | Tier12 => VK_API_VERSION_1_2
  | Tier13 => VK_API_VERSION_1_3
  end.

Definition required_block (cfg : config_t) (t : tier) : list VkBool32 :=
  match t with
  | Tier11 => features11 cfg
  | Tier12 => features12 cfg
  | Tier13 => features13 cfg
  end.

Definition supported_block (device : PhysicalDevice) (t : tier)
    : list VkBool32 :=
  match t with
  | Tier11 => pd_features11 device
  | Tier12 => pd_features12 device
  | Tier13 => pd_features13 device
  end.

(** Flag number [i] of a block of [VkBool32] words is set. *)
Definition flag_set (block : list VkBool32) (i : nat) : Prop :=
  default 0 (block !! i) ≠ 0.

(** Every flag set in [required] is set in [supported]. *)
Definition flags_supported (required supported : list VkBool32) : Prop :=
  ∀ i, flag_set required i → flag_set supported i.

(** No flag is set in [required]. *)
Definition no_flag_required (required : list VkBool32) : Prop :=
  ∀ i, ¬ flag_set required i.

(** A device of API version 1.0 with one combined queue family. It reports
    the first flag of tier 1.1 although its version is below that tier. *)
Definition ex_device_10 : PhysicalDevice :=
  {| pd_queueFamilies := [ {| queueFlags := 1; presentationSupport := 1 |} ];
     pd_extensions := ["VK_KHR_swapchain"%string];
     pd_support := ex_support;
     pd_apiVersion := VK_API_VERSION_1_0;
     pd_features10 := [1; 1];
     pd_features11 := [1; 0];
     pd_features12 := [];
     pd_features13 := [];
     pd_framebufferColorSampleCounts := 15;
     pd_framebufferDepthSampleCounts := 7 |}.

(** A device of API version 1.3 with separate graphics and presentation
    families. *)
Definition ex_device_13 : PhysicalDevice :=
  {| pd_queueFamilies := [ {| queueFlags := 1; presentationSupport := 0 |};
                           {| queueFlags := 2; presentationSupport := 1 |} ];
     pd_extensions := ["VK_KHR_swapchain"%string];
     pd_support := ex_support;
     pd_apiVersion := VK_API_VERSION_1_3;
     pd_features10 := [1; 1];
     pd_features11 := [1; 1];
     pd_features12 := [1];
     pd_features13 := [1];
     pd_framebufferColorSampleCounts := 15;
     pd_framebufferDepthSampleCounts := 7 |}.

(** A device of API version 1.2 with one combined queue family and
    other sample counts. *)
Definition ex_device_12 : PhysicalDevice :=
  {| pd_queueFamilies := [ {| queueFlags := 3; presentationSupport := 1 |} ];
     pd_extensions := ["VK_KHR_swapchain"%string; "VK_KHR_maintenance1"%string];
     pd_support := ex_support;
     pd_apiVersion := VK_API_VERSION_1_2;
     pd_features10 := [0; 1];
     pd_features11 := [1; 0];
     pd_features12 := [1];
     pd_features13 := [];
     pd_framebufferColorSampleCounts := 3;
     pd_framebufferDepthSampleCounts := 3 |}.

(** An application written for Vulkan 1.3 that requires the first flag of
    tier 1.1. *)
Definition ex_config_13 : config_t :=
  {| deviceExtensions := ["VK_KHR_swapchain"%string];
     vulkanVersion := VK_API_VERSION_1_3;
     features13 := []; features12 := []; features11 := [1; 0];
     features10 := [0; 1] |}.

(** The same requirements with the target version set to 1.0. *)
Definition ex_config_10 : config_t :=
  {| deviceExtensions := ["VK_KHR_swapchain"%string];
     vulkanVersion := VK_API_VERSION_1_0;
     features13 := []; features12 := []; features11 := [1; 0];
     features10 := [0; 1] |}.

(** A device that reports no flag of tier 1.1 at all. *)
Definition ex_device_plain : PhysicalDevice :=
  {| pd_queueFamilies := [ {| queueFlags := 1; presentationSupport := 1 |} ];
     pd_extensions := ["VK_KHR_swapchain"%string];
     pd_support := ex_support;
     pd_apiVersion := VK_API_VERSION_1_0;
     pd_features10 := [1; 1];
     pd_features11 := [0; 0];
     pd_features12 := [];
     pd_features13 := [];
     pd_framebufferColorSampleCounts := 1;
     pd_framebufferDepthSampleCounts := 1 |}.

(** A family able to take graphics commands, and one able to present. *)
Definition graphics_capable (q : QueueFamily) : Prop :=
  Z.land (queueFlags q) VK_QUEUE_GRAPHICS_BIT ≠ 0.
Definition presentation_capable (q : QueueFamily) : Prop :=
  presentationSupport q ≠ 0.

(** Both queue-family roles can be resolved on the device. *)
Definition roles_resolvable (device : PhysicalDevice) : Prop :=
  (∃ q, q ∈ pd_queueFamilies device ∧ graphics_capable q)
  ∧ (∃ q, q ∈ pd_queueFamilies device ∧ presentation_capable q).

(** The required feature flags are supported, tier by tier. *)
Definition tier_supported (cfg : config_t) (device : PhysicalDevice)
    (t : tier) : Prop :=
  flags_supported (required_block cfg t) (supported_block device t)
  ∧ (tier_version t ≤ pd_apiVersion device
     ∨ no_flag_required (required_block cfg t)).

(** Every required feature flag is supported, in the base block and in
    every tier, by a device of the version of each tier a flag is
    required in. *)
Definition every_required_feature_supported (cfg : config_t)
    (device : PhysicalDevice) : Prop :=
  flags_supported (features10 cfg) (pd_features10 device)
  ∧ ∀ t, tier_supported cfg device t.

(** The condition on the features with the exemption that
    [isDeviceSuitable] makes: the tiers above the base count only when
    the application is not configured for version 1.0. *)
Definition compared_features_supported (cfg : config_t)
    (device : PhysicalDevice) : Prop :=
  flags_supported (features10 cfg) (pd_features10 device)
  ∧ (vulkanVersion cfg ≠ VK_API_VERSION_1_0 →
     ∀ t, tier_supported cfg device t).

(** The map of a [queueFamilyIndices_t] holds the two roles at most, and
    two families are required. *)
Definition roles_only (indices : queueFamilyIndices_t) : Prop :=
  nbRequiredFamilies indices = 2%nat
  ∧ dom (families indices)
    ⊆ {[ GRAPHICS_QUEUE_FAMILY; PRESENTATION_QUEUE_FAMILY ]}.

(** ** Vocabulary for the frame loop *)

Definition is_recreate (e : event) : bool :=
  match e with EvRecreateSwapChain => true | _ => false end.
Definition is_wait (e : event) : bool :=
  match e with EvWaitForFences _ _ => true | _ => false end.
Definition is_reset (e : event) : bool :=
  match e with EvResetFences _ => true | _ => false end.
Definition is_submit (e : event) : bool :=
  match e with EvQueueSubmit _ _ _ => true | _ => false end.
Definition is_present (e : event) : bool :=
  match e with EvQueuePresent _ _ _ => true | _ => false end.

(** Number of events of a kind in a trace. *)
Definition count (kind : event -> bool) (t : list event) : nat :=
  length (List.filter kind t).

(** The calls made inside [recreateSwapChain] once it has been entered. *)
Definition rebuild_event (e : event) : Prop :=
  match e with
  | EvGetFramebufferSize _ _ | EvWaitEvents | EvDeviceWaitIdle
  | EvSwapChainAboutToBeDestroyed | EvDestroyImageView _
  | EvDestroySwapchain _ | EvCreateSwapchain _ _ | EvCreateImageView _ _
  | EvSwapChainReady => True
  | _ => False
  end.

Definition swapchain_failed : exn :=
  runtime_error "Failed to create swap chain!".
Definition imageview_failed : exn :=
  runtime_error "Failed to create image view!".

(** The ways [recreateSwapChain] can fail to return. *)
Definition rebuild_stop (why : stop) : Prop :=
  why = WaitingForEvents ∨ why = Undefined
  ∨ why = Thrown swapchain_failed ∨ why = Thrown imageview_failed.

(** [m] relates every state to the state it leaves by [R], emits only
    events in [E] and stops only for reasons in [O]. *)
Definition maintains {A} (R : Application -> Application -> Prop)
    (E : event -> Prop) (O : stop -> Prop) (m : M A) : Prop :=
  ∀ s, R s (m s).1.2 ∧ Forall E (m s).2
       ∧ ∀ why, (m s).1.1 = Stopped why → O why.

(** From every state in [P], [m] returns, in a state and with a result
    in [Q]. *)
Definition completes {A} (P : Application -> Prop) (m : M A)
    (Q : A -> Application -> Prop) : Prop :=
  ∀ s, P s → ∃ a s' t, m s = (Returned a, s', t) ∧ Q a s'.

(** What a rebuild leaves alone: the frame index, the device, the
    configuration, and the fences up to the completion of pending work. *)
Definition frame_state_kept (s s' : Application) : Prop :=
  currentFrame s' = currentFrame s
  ∧ physicalDevice s' = physicalDevice s
  ∧ config s' = config s
  ∧ commandBufferList s' = commandBufferList s
  ∧ (inFlightFences s' = inFlightFences s
     ∨ inFlightFences s' = map idle_fence (inFlightFences s)).

(** The window is reported with a non-zero size before the script of the
    wait loop runs out. *)
Fixpoint window_restored (w h : Z) (polls : list (Z * Z * bool)) : bool :=
  if (w =? 0) || (h =? 0)
  then match polls with
       | [] => false
       | (w', h', _) :: rest => window_restored w' h' rest
       end
  else true.

(** The environment lets a rebuild go through: the window comes back, a
    device is selected, the chain and every image view are created. *)
Definition recreate_completes (env : RecreateEnv) (a : Application) : Prop :=
  window_restored (fst (re_initialSize env)) (snd (re_initialSize env))
    (re_polls env) = true
  ∧ is_Some (physicalDevice a)
  ∧ re_createResult env = VK_SUCCESS
  ∧ Forall (λ img, (re_createImageView env img).1 = VK_SUCCESS)
      (re_images env).

(** No resize callback is delivered during the wait loop. *)
Definition no_resize_during (env : RecreateEnv) : Prop :=
  Forall (λ p : Z * Z * bool, p.2 = false) (re_polls env).

(** States along one frame. *)
Definition waited (a : Application) : Application :=
  set_fence (currentFrame a) FenceSignaled a.
Definition recorded (env : FrameEnv) (a : Application) : Application :=
  set_commandBufferList (fe_commandBuffers env)
    (set_fence (currentFrame a) FenceUnsignaled (waited a)).
Definition submitted (env : FrameEnv) (a : Application) : Application :=
  set_fence (currentFrame a) FencePending (recorded env a).
Definition next_frame (a : Application) : Z :=
  to_uint32 (currentFrame a + 1) mod MAX_NB_FRAMES_IN_FLIGHT.

(** Traces along one frame. *)
Definition acquire_trace (env : FrameEnv) (a : Application) (f : fence)
    : list event :=
  [EvWaitForFences (currentFrame a) f;
   EvAcquireNextImage (currentFrame a) (fe_acquire env).1 (fe_acquire env).2].
Definition submit_trace (env : FrameEnv) (a : Application) (f : fence)
    : list event :=
  acquire_trace env a f ++
  [EvResetFences (currentFrame a);
   EvGetCommandBuffers (fe_acquire env).2;
   EvQueueSubmit (currentFrame a) (fe_commandBuffers env) (fe_submit env)].
Definition present_trace (env : FrameEnv) (a : Application) (f : fence)
    : list event :=
  submit_trace env a f ++
  [EvQueuePresent (currentFrame a) (fe_acquire env).2 (fe_present env)].

(** The slot's fence lets [vkWaitForFences] return. *)
Definition fence_ready (a : Application) (f : fence) : Prop :=
  inFlightFences a !! Z.to_nat (currentFrame a) = Some f
  ∧ (f = FenceSignaled ∨ f = FencePending).

(** Result codes that [drawFrame] treats as staleness, and those it does
    not know. *)
Definition stale (r : VkResult) : bool :=
  (r =? VK_ERROR_OUT_OF_DATE_KHR) || (r =? VK_SUBOPTIMAL_KHR).
Definition unrecognised (r : VkResult) : bool :=
  negb (r =? VK_SUCCESS) && negb (stale r).

(** The runs of [drawFrame] from a state whose slot fence is ready, one
    constructor per path through the function. *)
Inductive frame_path (env : FrameEnv) (a : Application) (f : fence)
    : outcome unit * Application * list event -> Prop :=
| path_stale_acquire o s t :
    (fe_acquire env).1 = VK_ERROR_OUT_OF_DATE_KHR →
    recreateSwapChain (fe_recreate env) (waited a) = (o, s, t) →
    frame_path env a f (o, s, acquire_trace env a f ++ t)
| path_acquire_error :
    unrecognised (fe_acquire env).1 = true →
    frame_path env a f
      (Stopped (Thrown acquire_failed), waited a, acquire_trace env a f)
| path_submit_error :
    (fe_acquire env).1 = VK_SUCCESS ∨ (fe_acquire env).1 = VK_SUBOPTIMAL_KHR →
    fe_submit env ≠ VK_SUCCESS →
    frame_path env a f
      (Stopped (Thrown submit_failed), recorded env a, submit_trace env a f)
| path_present_recreated s t :
    (fe_acquire env).1 = VK_SUCCESS ∨ (fe_acquire env).1 = VK_SUBOPTIMAL_KHR →
    fe_submit env = VK_SUCCESS →
    stale (fe_present env) = true ∨ framebufferResized a = true →
    recreateSwapChain (fe_recreate env)
      (set_framebufferResized false (submitted env a)) = (Returned tt, s, t) →
    frame_path env a f
      (Returned tt, set_currentFrame (next_frame s) s,
       present_trace env a f ++ t)
| path_present_recreate_stopped why s t :
    (fe_acquire env).1 = VK_SUCCESS ∨ (fe_acquire env).1 = VK_SUBOPTIMAL_KHR →
    fe_submit env = VK_SUCCESS →
    stale (fe_present env) = true ∨ framebufferResized a = true →
    recreateSwapChain (fe_recreate env)
      (set_framebufferResized false (submitted env a)) = (Stopped why, s, t) →
    frame_path env a f (Stopped why, s, present_trace env a f ++ t)
| path_present_error :
    (fe_acquire env).1 = VK_SUCCESS ∨ (fe_acquire env).1 = VK_SUBOPTIMAL_KHR →
    fe_submit env = VK_SUCCESS →
    unrecognised (fe_present env) = true →
    framebufferResized a = false →
    frame_path env a f
      (Stopped (Thrown present_failed), submitted env a,
       present_trace env a f)
| path_presented :
    (fe_acquire env).1 = VK_SUCCESS ∨ (fe_acquire env).1 = VK_SUBOPTIMAL_KHR →
    fe_submit env = VK_SUCCESS →
    fe_present env = VK_SUCCESS →
    framebufferResized a = false →
    frame_path env a f
      (Returned tt, set_currentFrame (next_frame a) (submitted env a),
       present_trace env a f).

(** The same environment with another answer of the acquire call. *)
Definition with_acquire_result (r : VkResult) (env : FrameEnv) : FrameEnv :=
  {| fe_acquire := (r, (fe_acquire env).2);
     fe_commandBuffers := fe_commandBuffers env;
     fe_submit := fe_submit env;
     fe_present := fe_present env;
     fe_recreate := fe_recreate env |}.

(** Result codes seen in a trace. *)
Definition acquire_code_unrecognised (e : event) : bool :=
  match e with EvAcquireNextImage _ r _ => unrecognised r | _ => false end.
Definition submit_code_unsuccessful (e : event) : bool :=
  match e with EvQueueSubmit _ _ r => negb (r =? VK_SUCCESS) | _ => false end.
Definition present_code_unrecognised (e : event) : bool :=
  match e with EvQueuePresent _ _ r => unrecognised r | _ => false end.

(** Staleness as [drawFrame] recognises it: out-of-date from the acquire
    call, out-of-date or suboptimal from the present call. *)
Definition staleness_code (e : event) : bool :=
  match e with
  | EvAcquireNextImage _ r _ => r =? VK_ERROR_OUT_OF_DATE_KHR
  | EvQueuePresent _ _ r => stale r
  | _ => false
  end.

Definition acquire_unrecognised (t : list event) : bool :=
  existsb acquire_code_unrecognised t.
Definition submit_unsuccessful (t : list event) : bool :=
  existsb submit_code_unsuccessful t.
Definition present_unrecognised (t : list event) : bool :=
  existsb present_code_unrecognised t.
Definition staleness_reported (t : list event) : bool :=
  existsb staleness_code t.

(** The three errors thrown by [drawFrame] itself. *)
Definition raises_own_error (o : outcome unit) : Prop :=
  o = Stopped (Thrown acquire_failed)
  ∨ o = Stopped (Thrown submit_failed)
  ∨ o = Stopped (Thrown present_failed).

(** Any exception leaves the call. *)
Definition raises_error (o : outcome unit) : Prop :=
  ∃ e, o = Stopped (Thrown e).

(** Refusals of the driver during a rebuild, as seen in a trace. *)
Definition swapchain_refusal (e : event) : bool :=
  match e with EvCreateSwapchain _ r => negb (r =? VK_SUCCESS) | _ => false end.
Definition imageview_refusal (e : event) : bool :=
  match e with EvCreateImageView _ r => negb (r =? VK_SUCCESS) | _ => false end.
Definition swapchain_refused (t : list event) : bool :=
  existsb swapchain_refusal t.
Definition imageview_refused (t : list event) : bool :=
  existsb imageview_refusal t.

(** [m] ends by throwing [e] whenever its trace holds an event of
    [kind]. *)
Definition raises_on {A} (kind : event -> bool) (e : exn) (m : M A) : Prop :=
  ∀ s, existsb kind (m s).2 = true → (m s).1.1 = Stopped (Thrown e).

(** A rebuild that goes through at once. *)
Definition ex_recreate : RecreateEnv :=
  {| re_initialSize := (800, 600); re_polls := [];
     re_support := ex_support; re_framebufferSize := (800, 600);
     re_createResult := VK_SUCCESS; re_chain := 77; re_images := [10; 11; 12];
     re_createImageView := λ img, (VK_SUCCESS, img + 100) |}.

(** A rebuild in which the driver refuses to create the new chain. *)
Definition ex_recreate_refused : RecreateEnv :=
  {| re_initialSize := (800, 600); re_polls := [];
     re_support := ex_support; re_framebufferSize := (800, 600);
     re_createResult := VK_ERROR_OUT_OF_DEVICE_MEMORY; re_chain := 0;
     re_images := [];
     re_createImageView := λ img, (VK_SUCCESS, img + 100) |}.

(** A rebuild that first sees a minimised window, and during which the
    resize callback fires. *)
Definition ex_recreate_minimised : RecreateEnv :=
  {| re_initialSize := (0, 0); re_polls := [(0, 0, false); (640, 480, true)];
     re_support := ex_support; re_framebufferSize := (640, 480);
     re_createResult := VK_SUCCESS; re_chain := 78; re_images := [20; 21];
     re_createImageView := λ img, (VK_SUCCESS, img + 100) |}.

Definition ex_frame (acquire submit present : VkResult) (re : RecreateEnv)
    : FrameEnv :=
  {| fe_acquire := (acquire, 1); fe_commandBuffers := [5];
     fe_submit := submit; fe_present := present; fe_recreate := re |}.

(** The application after start-up: a device is selected, both fences
    were created signaled, a chain with two views exists. *)
Definition ex_app : Application :=
  set_swapChainImageViews [1; 2]
    (set_inFlightFences [FenceSignaled; FenceSignaled]
       (set_physicalDevice (Some ex_device_13) 4
          (initialApplication ex_config_13))).

(** ** Vocabulary for the fence ring *)

(** A fence that lets a wait return: signaled, or about to be. *)
Definition live (f : fence) : Prop := f = FenceSignaled ∨ f = FencePending.

(** The ring on entry to a turn of the main loop: one fence per frame in
    flight, each of them live, and a frame index inside the ring. *)
Definition ring_ok (a : Application) : Prop :=
  length (inFlightFences a) = Z.to_nat MAX_NB_FRAMES_IN_FLIGHT
  ∧ 0 ≤ currentFrame a < MAX_NB_FRAMES_IN_FLIGHT
  ∧ Forall live (inFlightFences a).

(** What the first [vkWaitForFences] on a slot observed, if any. *)
Fixpoint first_wait (slot : Z) (t : list event) : option fence :=
  match t with
  | [] => None
  | EvWaitForFences s f :: rest =>
      if s =? slot then Some f else first_wait slot rest
  | _ :: rest => first_wait slot rest
  end.

Definition is_nil {A} (l : list A) : bool :=
  match l with [] => true | _ => false end.

(** Every [vkResetFences] in the trace is followed at once by the user's
    recording and by a [vkQueueSubmit] that is handed the fence of the
    same slot; that submit succeeds, so that the fence will be signaled,
    or nothing at all happens after it. *)
Fixpoint resets_followed_by_submit (t : list event) : bool :=
  match t with
  | [] => true
  | EvResetFences i :: rest =>
      match rest with
      | EvGetCommandBuffers _ :: EvQueueSubmit j _ r :: after =>
          (i =? j) && ((r =? VK_SUCCESS) || is_nil after)
          && resets_followed_by_submit rest
      | _ => false
      end
  | _ :: rest => resets_followed_by_submit rest
  end.

(** Every [vkQueueSubmit] in the trace succeeded. *)
Definition submits_succeed (t : list event) : bool :=
  forallb (λ e, match e with
                | EvQueueSubmit _ _ r => r =? VK_SUCCESS
                | _ => true
                end) t.

(** No wait in the trace found its fence unsignaled with nothing pending. *)
Definition no_dead_wait (t : list event) : Prop :=
  Forall (λ e, ∀ slot, e ≠ EvWaitForFences slot FenceUnsignaled) t.

(** The state in which a turn of the main loop decides whether to draw:
    events are polled and the command-buffer list is resized. *)
Definition prepare (it : IterationEnv) (a : Application) : Application :=
  let a1 := if it_resized it then onFramebufferWindowResized a else a in
  if negb (it_nbCommandBuffers it =? Z.of_nat (length (commandBufferList a1)))
  then set_commandBufferList
         (resize (Z.to_nat (it_nbCommandBuffers it)) VK_NULL_HANDLE
            (commandBufferList a1)) a1
  else a1.

(** Two turns of the main loop: a frame that is presented, then one whose
    acquire reports the chain out of date. *)
Definition ex_script : list IterationEnv :=
  [ {| it_resized := false; it_nbCommandBuffers := 1;
       it_frame := ex_frame VK_SUCCESS VK_SUCCESS VK_SUCCESS ex_recreate |};
    {| it_resized := true; it_nbCommandBuffers := 1;
       it_frame := ex_frame VK_ERROR_OUT_OF_DATE_KHR VK_SUCCESS VK_SUCCESS
                     ex_recreate |};
    {| it_resized := false; it_nbCommandBuffers := 0;
       it_frame := ex_frame VK_SUCCESS VK_SUCCESS VK_SUCCESS ex_recreate |};
    {| it_resized := false; it_nbCommandBuffers := 1;
       it_frame := ex_frame VK_SUBOPTIMAL_KHR VK_SUCCESS VK_SUBOPTIMAL_KHR
                     ex_recreate_minimised |};
    {| it_resized := false; it_nbCommandBuffers := 1;
       it_frame := ex_frame VK_SUCCESS VK_SUCCESS VK_SUCCESS ex_recreate |} ].

(** A driver that creates every synchronisation object. *)
Definition ex_sync_results (i : nat) : VkResult * VkResult * VkResult :=
  (VK_SUCCESS, VK_SUCCESS, VK_SUCCESS).

(** Every fence created in the trace was asked for in the signaled state. *)
Definition fences_created_signaled (t : list event) : Prop :=
  Forall (λ e, ∀ flags r, e = EvCreateFence flags r →
                          Z.land flags VK_FENCE_CREATE_SIGNALED_BIT ≠ 0) t.

(** * Resource helpers, instance creation and start-up

    The rest of the definitions embeds the helpers of
    [knm_vulkan_tools.hpp] around the frame loop: the search for a memory
    type and for an image format, the creation of buffers and images, the
    generation of mipmaps, the one-time command buffers, the creation of
    the instance and [initVulkan]; with the vocabulary of the statements
    made about them and about the functions above. *)

(** ** Vocabulary for the surface, sample-count and queue-family choices *)

(** The surface format [chooseSwapSurfaceFormat] looks for. *)
Definition preferred_surface_format : VkSurfaceFormatKHR :=
  {| format := VK_FORMAT_B8G8R8A8_SRGB;
     colorSpace := VK_COLOR_SPACE_SRGB_NONLINEAR_KHR |}.

(** Colour and depth framebuffers both support [2^k] samples per pixel. *)
Definition samples_usable (device : PhysicalDevice) (k : Z) : bool :=
  Z.testbit (pd_framebufferColorSampleCounts device) k
  && Z.testbit (pd_framebufferDepthSampleCounts device) k.

(** The index stored for [role], if any, designates a family of the
    device that has the capability [capable]. *)
Definition role_designates (device : PhysicalDevice)
    (indices : queueFamilyIndices_t) (role : Z)
    (capable : QueueFamily -> Prop) : Prop :=
  ∀ index, families indices !! role = Some index →
    0 ≤ index
    ∧ ∃ q, pd_queueFamilies device !! Z.to_nat index = Some q ∧ capable q.

(** ** Vocabulary for the rebuild of the swap chain *)

(** The calls of the minimised-window wait loop. *)
Definition wait_event (e : event) : Prop :=
  match e with
  | EvGetFramebufferSize _ _ | EvWaitEvents => True
  | _ => False
  end.

(** The image view the driver hands out for an image of the new chain. *)
Definition new_view (env : RecreateEnv) (image : handle) : handle :=
  (re_createImageView env image).2.

(** The calls of a rebuild that goes through, after the wait loop: the
    old views and the old chain are destroyed, then the new chain and one
    view per image are created. *)
Definition replace_trace (env : RecreateEnv) (a : Application)
    (info : VkSwapchainCreateInfoKHR) : list event :=
  [EvDeviceWaitIdle; EvSwapChainAboutToBeDestroyed]
  ++ map EvDestroyImageView (swapChainImageViews a)
  ++ [EvDestroySwapchain (swapChain a); EvCreateSwapchain info VK_SUCCESS]
  ++ map (λ image, EvCreateImageView image VK_SUCCESS) (re_images env)
  ++ [EvSwapChainReady].

(** The calls of a rebuild up to a refused [vkCreateSwapchainKHR]. *)
Definition refused_trace (env : RecreateEnv) (a : Application)
    (info : VkSwapchainCreateInfoKHR) : list event :=
  [EvDeviceWaitIdle; EvSwapChainAboutToBeDestroyed]
  ++ map EvDestroyImageView (swapChainImageViews a)
  ++ [EvDestroySwapchain (swapChain a);
      EvCreateSwapchain info (re_createResult env)].

(** ** Vocabulary for the runs of the main loop *)

(** The five errors raised on the way through a frame. *)
Definition loop_errors : list exn :=
  [acquire_failed; submit_failed; present_failed; swapchain_failed;
   imageview_failed].

(** The call returned, is still waiting for a minimised window to come
    back, or raised one of the five errors. *)
Definition loop_outcome (o : outcome unit) : Prop :=
  o = Returned tt ∨ o = Stopped WaitingForEvents
  ∨ ∃ e, e ∈ loop_errors ∧ o = Stopped (Thrown e).

(** The application after [initVulkan]: the fence ring is in order and a
    physical device is selected. *)
Definition started (a : Application) : Prop :=
  ring_ok a ∧ is_Some (physicalDevice a).

(** The application declares no command buffer in any turn. *)
Definition idle_script (script : list IterationEnv) : Prop :=
  Forall (λ it, it_nbCommandBuffers it = 0) script.

(** ** Vocabulary for start-up *)

Definition sync_failed : exn :=
  runtime_error "Failed to create synchronization objects for a frame!".

Definition device_failed : exn :=
  runtime_error "Failed to create logical device!".

(** The call created a semaphore or a fence, and the driver accepted. *)
Definition creation_succeeded (e : event) : bool :=
  match e with
  | EvCreateSemaphore r | EvCreateFence _ r => r =? VK_SUCCESS
  | _ => false
  end.

(** ** Memory types and image formats *)

Definition VK_MAX_MEMORY_TYPES : Z := 32.
Definition VK_IMAGE_TILING_OPTIMAL : Z := 0.
Definition VK_IMAGE_TILING_LINEAR : Z := 1.
Definition VK_FORMAT_FEATURE_DEPTH_STENCIL_ATTACHMENT_BIT : Z := 512.
Definition VK_FORMAT_FEATURE_SAMPLED_IMAGE_FILTER_LINEAR_BIT : Z := 4096.

Definition memory_type_failed : exn :=
  runtime_error "Failed to find suitable memory type!".
Definition format_failed : exn :=
  runtime_error "Failed to find supported format!".

(** The loop of [findMemoryType] over [memProperties.memoryTypes], from
    index [i] on; [memoryTypes] lists the [propertyFlags] of the
    [memoryTypeCount] memory types. [1 << i] is converted to [uint32_t]
    for the [&]. *)
Fixpoint findMemoryType_loop (typeFilter properties : Z)
    (memoryTypes : list Z) (i : Z) : outcome Z :=
  match memoryTypes with
  | [] => Stopped (Thrown memory_type_failed)
  | propertyFlags :: rest =>
      if truthy (Z.land typeFilter (to_uint32 (Z.shiftl 1 i)))
         && (Z.land propertyFlags properties =? properties)
      then Returned i
      else findMemoryType_loop typeFilter properties rest (i + 1)
  end.

(** [Application::findMemoryType]; [memoryTypes] is what
    [vkGetPhysicalDeviceMemoryProperties] reports for the device. *)
Definition findMemoryType (memoryTypes : list Z)
    (typeFilter properties : Z) : outcome Z :=
  findMemoryType_loop typeFilter properties memoryTypes 0.

Record VkFormatProperties := {
  linearTilingFeatures : Z;
  optimalTilingFeatures : Z
}.

(** [Application::findSupportedFormat]; [formatProperties] is the answer
    of [vkGetPhysicalDeviceFormatProperties] for each format. *)
Fixpoint findSupportedFormat (formatProperties : Z -> VkFormatProperties)
    (candidates : list Z) (tiling features : Z) : outcome Z :=
  match candidates with
  | [] => Stopped (Thrown format_failed)
  | candidate :: rest =>
      let props := formatProperties candidate in
      if (tiling =? VK_IMAGE_TILING_LINEAR)
         && (Z.land (linearTilingFeatures props) features =? features)
      then Returned candidate
      else if (tiling =? VK_IMAGE_TILING_OPTIMAL)
              && (Z.land (optimalTilingFeatures props) features =? features)
      then Returned candidate
      else findSupportedFormat formatProperties rest tiling features
  end.

(** Memory type [i], with property flags [flags], is allowed by the
    requirement bits [typeFilter] and has all the [properties] asked. *)
Definition memory_type_fits (typeFilter properties i flags : Z) : Prop :=
  Z.testbit typeFilter i = true ∧ Z.land flags properties = properties.

(** The features the device offers for a format under a tiling; the
    function knows the linear and the optimal tiling only. *)
Definition tiling_features (tiling : Z) (props : VkFormatProperties)
    : option Z :=
  if tiling =? VK_IMAGE_TILING_LINEAR then Some (linearTilingFeatures props)
  else if tiling =? VK_IMAGE_TILING_OPTIMAL
  then Some (optimalTilingFeatures props)
  else None.

Definition format_supported (formatProperties : Z -> VkFormatProperties)
    (tiling features candidate : Z) : Prop :=
  ∃ offered, tiling_features tiling (formatProperties candidate) = Some offered
             ∧ Z.land offered features = features.

(** A device on which only the third depth format can be a depth
    attachment with optimal tiling. *)
Definition ex_formatProperties (f : Z) : VkFormatProperties :=
  if f =? 129
  then {| linearTilingFeatures := 0; optimalTilingFeatures := 512 |}
  else {| linearTilingFeatures := 512; optimalTilingFeatures := 0 |}.

(** ** Buffers and images *)

Record VkMemoryRequirements := {
  mr_size : Z;
  memoryTypeBits : Z
}.

(** Calls into the driver made while a buffer or an image is created. *)
Inductive resource_call : Type :=
| CallCreateBuffer (size usage sharingMode : Z) (result : VkResult)
| CallGetBufferMemoryRequirements
| CallCreateImage (width height mipLevels nbSamples format tiling usage
                   initialLayout sharingMode : Z) (result : VkResult)
| CallGetImageMemoryRequirements
| CallAllocateMemory (allocationSize memoryTypeIndex : Z) (result : VkResult)
| CallBindBufferMemory (memoryOffset : Z)
| CallBindImageMemory (memoryOffset : Z).

(** What the driver answers while one resource is created. *)
Record ResourceEnv := {
  rs_memoryTypes : list Z;      (* vkGetPhysicalDeviceMemoryProperties *)
  rs_createResult : VkResult;   (* vkCreateBuffer, vkCreateImage *)
  rs_memRequirements : VkMemoryRequirements;
  rs_allocateResult : VkResult  (* vkAllocateMemory *)
}.

Definition buffer_failed : exn := runtime_error "Failed to create buffer!".
Definition buffer_memory_failed : exn :=
  runtime_error "Failed to allocate buffer memory!".
Definition image_failed : exn := runtime_error "Failed to create an image!".
Definition image_memory_failed : exn :=
  runtime_error "Failed to allocate image memory!".

(** [Application::createBuffer]: the outcome and the calls made. *)
Definition createBuffer (env : ResourceEnv) (size usage properties : Z)
    : outcome unit * list resource_call :=
  let created :=
    CallCreateBuffer size usage VK_SHARING_MODE_EXCLUSIVE
      (rs_createResult env) in
  if negb (rs_createResult env =? VK_SUCCESS)
  then (Stopped (Thrown buffer_failed), [created])
  else
    let memRequirements := rs_memRequirements env in
    match findMemoryType (rs_memoryTypes env)
            (memoryTypeBits memRequirements) properties with
    | Stopped why =>
        (Stopped why, [created; CallGetBufferMemoryRequirements])
    | Returned memoryTypeIndex =>
        let allocated :=
          CallAllocateMemory (mr_size memRequirements) memoryTypeIndex
            (rs_allocateResult env) in
        if negb (rs_allocateResult env =? VK_SUCCESS)
        then (Stopped (Thrown buffer_memory_failed),
              [created; CallGetBufferMemoryRequirements; allocated])
        else (Returned tt,
              [created; CallGetBufferMemoryRequirements; allocated;
               CallBindBufferMemory 0])
    end.

(** [Application::createImage]: the outcome and the calls made. *)
Definition createImage (env : ResourceEnv)
    (width height mipLevels nbSamples format tiling usage properties : Z)
    : outcome unit * list resource_call :=
  let created :=
    CallCreateImage width height mipLevels nbSamples format tiling usage
      VK_IMAGE_LAYOUT_UNDEFINED VK_SHARING_MODE_EXCLUSIVE
      (rs_createResult env) in
  if negb (rs_createResult env =? VK_SUCCESS)
  then (Stopped (Thrown image_failed), [created])
  else
    let memRequirements := rs_memRequirements env in
    match findMemoryType (rs_memoryTypes env)
            (memoryTypeBits memRequirements) properties with
    | Stopped why =>
        (Stopped why, [created; CallGetImageMemoryRequirements])
    | Returned memoryTypeIndex =>
        let allocated :=
          CallAllocateMemory (mr_size memRequirements) memoryTypeIndex
            (rs_allocateResult env) in
        if negb (rs_allocateResult env =? VK_SUCCESS)
        then (Stopped (Thrown image_memory_failed),
              [created; CallGetImageMemoryRequirements; allocated])
        else (Returned tt,
              [created; CallGetImageMemoryRequirements; allocated;
               CallBindImageMemory 0])
    end.

(** The resource was created by the driver. *)
Definition is_creation (c : resource_call) : bool :=
  match c with
  | CallCreateBuffer _ _ _ r | CallCreateImage _ _ _ _ _ _ _ _ _ r =>
      r =? VK_SUCCESS
  | _ => false
  end.

(** Memory is bound to the resource. *)
Definition is_bind (c : resource_call) : bool :=
  match c with
  | CallBindBufferMemory _ | CallBindImageMemory _ => true
  | _ => false
  end.

(** What holds of every run that creates a resource: memory is asked
    for in the size the resource requires and from a memory type that
    fits; memory is bound exactly when the call returns, and the call
    returns only if the driver created the resource and allocated the
    memory. *)
Definition allocates_fitting_memory (env : ResourceEnv) (properties : Z)
    (run : outcome unit * list resource_call) : Prop :=
  (∀ allocationSize memoryTypeIndex result,
     CallAllocateMemory allocationSize memoryTypeIndex result ∈ run.2 →
     allocationSize = mr_size (rs_memRequirements env)
     ∧ result = rs_allocateResult env
     ∧ ∃ flags,
         0 ≤ memoryTypeIndex
         ∧ rs_memoryTypes env !! Z.to_nat memoryTypeIndex = Some flags
         ∧ memory_type_fits (memoryTypeBits (rs_memRequirements env))
             properties memoryTypeIndex flags)
  ∧ (run.1 = Returned tt ↔ existsb is_bind run.2 = true)
  ∧ (run.1 = Returned tt →
     existsb is_creation run.2 = true
     ∧ rs_allocateResult env = VK_SUCCESS).

(** A device with three memory types; the resource accepts the last
    two. *)
Definition ex_resource : ResourceEnv :=
  {| rs_memoryTypes := [7; 1; 6];
     rs_createResult := VK_SUCCESS;
     rs_memRequirements := {| mr_size := 256; memoryTypeBits := 6 |};
     rs_allocateResult := VK_SUCCESS |}.

(** ** Mipmap generation *)

Definition VK_ACCESS_TRANSFER_READ_BIT : Z := 2048.

Definition blit_failed : exn :=
  runtime_error "Texture image format does not support linear blitting!".

(** [VkImageBlit]: the mip levels read and written, and the far corner
    [srcOffsets[1]], [dstOffsets[1]] of the two regions (width, height);
    the near corners are the origin. *)
Record VkImageBlit := {
  srcMipLevel : Z;
  srcOffsets1 : Z * Z;
  dstMipLevel : Z;
  dstOffsets1 : Z * Z
}.

(** Commands recorded by [recordGenerateMipmapsCommand]: a barrier on
    the [levelCount] levels from [baseMipLevel] on, and a blit. *)
Inductive mip_command : Type :=
| CmdLevelBarrier (sourceStage destinationStage : Z) (baseMipLevel : Z)
    (barrier : VkImageMemoryBarrier)
| CmdBlitImage (srcImage : handle) (srcImageLayout : VkImageLayout)
    (dstImage : handle) (dstImageLayout : VkImageLayout) (blit : VkImageBlit).

(** The [for (uint32_t i = 1; i < mipLevels; ++i)] loop: [remaining] is
    the number of turns left. [mipWidth / 2] is the division of [int32_t],
    which truncates. *)
Fixpoint recordGenerateMipmapsCommand_loop (img : handle) (i : Z)
    (remaining : nat) (mipWidth mipHeight : Z) : list mip_command :=
  match remaining with
  | O => []
  | S n =>
      [ CmdLevelBarrier VK_PIPELINE_STAGE_TRANSFER_BIT
          VK_PIPELINE_STAGE_TRANSFER_BIT (i - 1)
          {| oldLayout := VK_IMAGE_LAYOUT_TRANSFER_DST_OPTIMAL;
             newLayout := VK_IMAGE_LAYOUT_TRANSFER_SRC_OPTIMAL;
             image := img; levelCount := 1;
             srcAccessMask := VK_ACCESS_TRANSFER_WRITE_BIT;
             dstAccessMask := VK_ACCESS_TRANSFER_READ_BIT |};
        CmdBlitImage img VK_IMAGE_LAYOUT_TRANSFER_SRC_OPTIMAL
          img VK_IMAGE_LAYOUT_TRANSFER_DST_OPTIMAL
          {| srcMipLevel := i - 1;
             srcOffsets1 := (mipWidth, mipHeight);
             dstMipLevel := i;
             dstOffsets1 :=
               (if 1 <? mipWidth then Z.quot mipWidth 2 else 1,
                if 1 <? mipHeight then Z.quot mipHeight 2 else 1) |};
        CmdLevelBarrier VK_PIPELINE_STAGE_TRANSFER_BIT
          VK_PIPELINE_STAGE_FRAGMENT_SHADER_BIT (i - 1)
          {| oldLayout := VK_IMAGE_LAYOUT_TRANSFER_SRC_OPTIMAL;
             newLayout := VK_IMAGE_LAYOUT_SHADER_READ_ONLY_OPTIMAL;
             image := img; levelCount := 1;
             srcAccessMask := VK_ACCESS_TRANSFER_READ_BIT;
             dstAccessMask := VK_ACCESS_SHADER_READ_BIT |} ]
      ++ recordGenerateMipmapsCommand_loop img (i + 1) n
           (if 1 <? mipWidth then Z.quot mipWidth 2 else mipWidth)
           (if 1 <? mipHeight then Z.quot mipHeight 2 else mipHeight)
  end.

(** The barrier recorded after the loop. *)
Definition last_level_barrier (img : handle) (mipLevels : Z) : mip_command :=
  CmdLevelBarrier VK_PIPELINE_STAGE_TRANSFER_BIT
    VK_PIPELINE_STAGE_FRAGMENT_SHADER_BIT (to_uint32 (mipLevels - 1))
    {| oldLayout := VK_IMAGE_LAYOUT_TRANSFER_DST_OPTIMAL;
       newLayout := VK_IMAGE_LAYOUT_SHADER_READ_ONLY_OPTIMAL;
       image := img; levelCount := 1;
       srcAccessMask := VK_ACCESS_TRANSFER_WRITE_BIT;
       dstAccessMask := VK_ACCESS_SHADER_READ_BIT |}.

(** [Application::recordGenerateMipmapsCommand]: the outcome and the
    content of the command buffer afterwards. [mipLevels] is a
    [uint32_t]: the loop takes [mipLevels - 1] turns when [mipLevels] is
    at least 1 and none otherwise, and [mipLevels - 1] wraps around. *)
Definition recordGenerateMipmapsCommand (commandBuffer : list mip_command)
    (formatProperties : Z -> VkFormatProperties) (img : handle)
    (imageFormat texWidth texHeight mipLevels : Z)
    : outcome unit * list mip_command :=
  if negb (truthy (Z.land (optimalTilingFeatures (formatProperties imageFormat))
                     VK_FORMAT_FEATURE_SAMPLED_IMAGE_FILTER_LINEAR_BIT))
  then (Stopped (Thrown blit_failed), commandBuffer)
  else (Returned tt,
        commandBuffer
        ++ recordGenerateMipmapsCommand_loop img 1 (Z.to_nat (mipLevels - 1))
             texWidth texHeight
        ++ [last_level_barrier img mipLevels]).

(** *** Replaying the commands on the layouts of the mip levels

    Modelled from the Vulkan API: a barrier is valid on a level that is
    in the layout the barrier names as the old one, and leaves it in the
    new one; a blit is valid when the level read and the level written
    are in the layouts the command names, and keeps them. *)
Definition replay_command (levels : list VkImageLayout) (c : mip_command)
    : option (list VkImageLayout) :=
  match c with
  | CmdLevelBarrier _ _ baseMipLevel barrier =>
      match levels !! Z.to_nat baseMipLevel with
      | Some current =>
          if (0 <=? baseMipLevel) && (levelCount barrier =? 1)
             && (current =? oldLayout barrier)
          then Some (<[Z.to_nat baseMipLevel := newLayout barrier]> levels)
          else None
      | None => None
      end
  | CmdBlitImage _ srcImageLayout _ dstImageLayout blit =>
      match levels !! Z.to_nat (srcMipLevel blit),
            levels !! Z.to_nat (dstMipLevel blit) with
      | Some source, Some destination =>
          if (0 <=? srcMipLevel blit) && (0 <=? dstMipLevel blit)
             && (source =? srcImageLayout) && (destination =? dstImageLayout)
          then Some levels
          else None
      | _, _ => None
      end
  end.

Fixpoint replay (levels : list VkImageLayout) (commands : list mip_command)
    : option (list VkImageLayout) :=
  match commands with
  | [] => Some levels
  | c :: rest =>
      match replay_command levels c with
      | Some levels' => replay levels' rest
      | None => None
      end
  end.

(** The device can blit the format with linear filtering. *)
Definition linear_blit_supported (formatProperties : Z -> VkFormatProperties)
    (imageFormat : Z) : Prop :=
  Z.land (optimalTilingFeatures (formatProperties imageFormat))
    VK_FORMAT_FEATURE_SAMPLED_IMAGE_FILTER_LINEAR_BIT ≠ 0.

(** The extent of mip level [k] along a dimension of [full] texels. *)
Definition mip_extent (full k : Z) : Z := Z.max 1 (full / 2 ^ k).

(** The blit that fills level [k] of a [texWidth] x [texHeight] image
    from level [k - 1]. *)
Definition level_blit (texWidth texHeight k : Z) : VkImageBlit :=
  {| srcMipLevel := k - 1;
     srcOffsets1 := (mip_extent texWidth (k - 1), mip_extent texHeight (k - 1));
     dstMipLevel := k;
     dstOffsets1 := (mip_extent texWidth k, mip_extent texHeight k) |}.

(** The blits of a command list, in order. *)
Fixpoint blits (commands : list mip_command) : list VkImageBlit :=
  match commands with
  | [] => []
  | CmdBlitImage _ _ _ _ blit :: rest => blit :: blits rest
  | _ :: rest => blits rest
  end.

(** A device that can blit every format but format 0. *)
Definition ex_blitProperties (f : Z) : VkFormatProperties :=
  {| linearTilingFeatures := 0;
     optimalTilingFeatures := if f =? 0 then 0 else 4096 |}.

(** ** One-time command buffers *)

(** Commands recorded by the two copy helpers. *)
Inductive copy_command : Type :=
| CmdCopyBuffer (srcBuffer dstBuffer : handle) (srcOffset dstOffset size : Z)
| CmdCopyBufferToImage (buffer img : handle) (dstImageLayout : VkImageLayout)
    (mipLevel : Z) (imageExtent : Z * Z * Z).

Definition recordCopyBufferCommand (commandBuffer : list copy_command)
    (srcBuffer dstBuffer : handle) (size : Z) : list copy_command :=
  commandBuffer ++ [CmdCopyBuffer srcBuffer dstBuffer 0 0 size].

Definition recordCopyBufferToImageCommand (commandBuffer : list copy_command)
    (buffer img : handle) (width height : Z) : list copy_command :=
  commandBuffer
  ++ [CmdCopyBufferToImage buffer img VK_IMAGE_LAYOUT_TRANSFER_DST_OPTIMAL 0
        (width, height, 1)].

(** Calls made around the recording of a one-time command buffer. The
    submit carries the content of the command buffer, of commands of
    type [C], and the fence handed to [vkQueueSubmit]. *)
Inductive one_time_call (C : Type) : Type :=
| CallAllocateCommandBuffers (commandPool commandBuffer : handle)
| CallBeginCommandBuffer (commandBuffer : handle)
| CallEndCommandBuffer (commandBuffer : handle)
| CallQueueSubmit (commandBuffer : handle) (content : list C) (fence : handle)
| CallQueueWaitIdle
| CallFreeCommandBuffers (commandPool commandBuffer : handle).
Arguments CallAllocateCommandBuffers {C} commandPool commandBuffer.
Arguments CallBeginCommandBuffer {C} commandBuffer.
Arguments CallEndCommandBuffer {C} commandBuffer.
Arguments CallQueueSubmit {C} commandBuffer content fence.
Arguments CallQueueWaitIdle {C}.
Arguments CallFreeCommandBuffers {C} commandPool commandBuffer.

(** [beginSingleTimeCommands]; [allocated] is the command buffer that
    [vkAllocateCommandBuffers] hands out. The results of the two calls
    are not looked at. *)
Definition beginSingleTimeCommands {C} (allocated commandPool : handle)
    : handle * list (one_time_call C) :=
  (allocated,
   [CallAllocateCommandBuffers commandPool allocated;
    CallBeginCommandBuffer allocated]).

(** [endSingleTimeCommands]; [content] is what was recorded. *)
Definition endSingleTimeCommands {C} (commandPool commandBuffer : handle)
    (content : list C) : list (one_time_call C) :=
  [CallEndCommandBuffer commandBuffer;
   CallQueueSubmit commandBuffer content VK_NULL_HANDLE;
   CallQueueWaitIdle;
   CallFreeCommandBuffers commandPool commandBuffer].

Definition copyBuffer (allocated commandPool srcBuffer dstBuffer : handle)
    (size : Z) : outcome unit * list (one_time_call copy_command) :=
  let '(commandBuffer, began) :=
    beginSingleTimeCommands allocated commandPool in
  let content := recordCopyBufferCommand [] srcBuffer dstBuffer size in
  (Returned tt,
   began ++ endSingleTimeCommands commandPool commandBuffer content).

Definition copyBufferToImage (allocated commandPool buffer img : handle)
    (width height : Z) : outcome unit * list (one_time_call copy_command) :=
  let '(commandBuffer, began) :=
    beginSingleTimeCommands allocated commandPool in
  let content := recordCopyBufferToImageCommand [] buffer img width height in
  (Returned tt,
   began ++ endSingleTimeCommands commandPool commandBuffer content).

(** An exception of the recording leaves [transitionImageLayout] before
    [endSingleTimeCommands] is reached. *)
Definition transitionImageLayout (allocated commandPool img : handle)
    (fmt : Z) (oldL newL : VkImageLayout) (mipLevels : Z)
    : outcome unit * list (one_time_call command) :=
  let '(commandBuffer, began) :=
    beginSingleTimeCommands allocated commandPool in
  match recordTransitionImageLayoutCommand [] img fmt oldL newL mipLevels with
  | (Returned _, content) =>
      (Returned tt,
       began ++ endSingleTimeCommands commandPool commandBuffer content)
  | (Stopped why, _) => (Stopped why, began)
  end.

Definition generateMipmaps (formatProperties : Z -> VkFormatProperties)
    (allocated commandPool img : handle)
    (imageFormat texWidth texHeight mipLevels : Z)
    : outcome unit * list (one_time_call mip_command) :=
  let '(commandBuffer, began) :=
    beginSingleTimeCommands allocated commandPool in
  match recordGenerateMipmapsCommand [] formatProperties img imageFormat
          texWidth texHeight mipLevels with
  | (Returned _, content) =>
      (Returned tt,
       began ++ endSingleTimeCommands commandPool commandBuffer content)
  | (Stopped why, _) => (Stopped why, began)
  end.

(** A run of a one-time helper in which everything that was allocated
    was released: one command buffer is allocated, begun, ended,
    submitted once without a fence, waited for and freed. *)
Definition submitted_and_freed {C} (commandPool allocated : handle)
    (run : outcome unit * list (one_time_call C)) : Prop :=
  ∃ content,
    content ≠ []
    ∧ run = (Returned tt,
             [CallAllocateCommandBuffers commandPool allocated;
              CallBeginCommandBuffer allocated;
              CallEndCommandBuffer allocated;
              CallQueueSubmit allocated content VK_NULL_HANDLE;
              CallQueueWaitIdle;
              CallFreeCommandBuffers commandPool allocated]).

(** A run of a one-time helper that an exception left with the command
    buffer allocated and in the recording state: it is neither ended,
    nor submitted, nor freed. *)
Definition left_recording {C} (commandPool allocated : handle) (e : exn)
    (run : outcome unit * list (one_time_call C)) : Prop :=
  run = (Stopped (Thrown e),
         [CallAllocateCommandBuffers commandPool allocated;
          CallBeginCommandBuffer allocated]).

Definition transition_failed : exn :=
  invalid_argument "Unsupported layout transition!".

(** The two layout transitions the helper knows. *)
Definition transition_known (oldL newL : VkImageLayout) : Prop :=
  (oldL = VK_IMAGE_LAYOUT_UNDEFINED
   ∧ newL = VK_IMAGE_LAYOUT_TRANSFER_DST_OPTIMAL)
  ∨ (oldL = VK_IMAGE_LAYOUT_TRANSFER_DST_OPTIMAL
     ∧ newL = VK_IMAGE_LAYOUT_SHADER_READ_ONLY_OPTIMAL).

(** ** Instance creation *)

Definition VK_EXT_DEBUG_UTILS_EXTENSION_NAME : string := "VK_EXT_debug_utils".
Definition VK_KHR_PORTABILITY_ENUMERATION_EXTENSION_NAME : string :=
  "VK_KHR_portability_enumeration".
Definition physical_device_properties2 : string :=
  "VK_KHR_get_physical_device_properties2".
Definition VK_INSTANCE_CREATE_ENUMERATE_PORTABILITY_BIT_KHR : Z := 1.

Definition validation_failed : exn :=
  runtime_error "Validation layers requested, but not available!".
Definition instance_failed : exn :=
  runtime_error "Failed to create instance!".

(** What the build and the platform fix, and what GLFW and the Vulkan
    loader answer, while the instance is created. [in_apple] tells
    whether [__APPLE__] is defined; [in_enableValidationLayers] is the
    constant of that name, false in a build with [NDEBUG];
    [in_validationLayers] is [config.validationLayers]. *)
Record InstanceEnv := {
  in_apple : bool;
  in_enableValidationLayers : bool;
  in_validationLayers : list string;
  in_availableLayers : list string;
    (* vkEnumerateInstanceLayerProperties *)
  in_glfwExtensions : list string;   (* glfwGetRequiredInstanceExtensions *)
  in_availableExtensions : list string;
    (* vkEnumerateInstanceExtensionProperties *)
  in_createResult : VkResult             (* vkCreateInstance *)
}.

(** [Application::checkValidationLayerSupport]: the outer loop over the
    requested layers; the inner loop with its [layerFound] flag is the
    search of [existsb]. *)
Fixpoint checkValidationLayerSupport (validationLayers : list string)
    (availableLayers : list string) : bool :=
  match validationLayers with
  | [] => true
  | layerName :: rest =>
      let layerFound := existsb (String.eqb layerName) availableLayers in
      if negb layerFound then false
      else checkValidationLayerSupport rest availableLayers
  end.

(** [Application::getRequiredExtensions] *)
Definition getRequiredExtensions (env : InstanceEnv) : list string :=
  let extensions := in_glfwExtensions env in
  let extensions :=
    if in_apple env
    then extensions ++ [VK_KHR_PORTABILITY_ENUMERATION_EXTENSION_NAME]
    else extensions in
  let extensions :=
    if in_enableValidationLayers env
    then extensions ++ [VK_EXT_DEBUG_UTILS_EXTENSION_NAME]
    else extensions in
  if existsb (String.eqb physical_device_properties2)
       (in_availableExtensions env)
  then extensions ++ [physical_device_properties2]
  else extensions.

(** The one call of [createInstance] into the driver, with the fields of
    [VkInstanceCreateInfo] that depend on the configuration. *)
Inductive instance_call : Type :=
| CallCreateInstance (apiVersion flags : Z) (enabledExtensions : list string)
    (enabledLayers : list string) (debugMessenger : bool) (result : VkResult).

(** [Application::createInstance]: the outcome and the calls made. *)
Definition createInstance (env : InstanceEnv) (cfg : config_t)
    : outcome unit * list instance_call :=
  if in_enableValidationLayers env
     && negb (checkValidationLayerSupport (in_validationLayers env)
                (in_availableLayers env))
  then (Stopped (Thrown validation_failed), [])
  else
    let requiredExtensions := getRequiredExtensions env in
    let flags :=
      if in_apple env then VK_INSTANCE_CREATE_ENUMERATE_PORTABILITY_BIT_KHR
      else 0 in
    let created :=
      CallCreateInstance (vulkanVersion cfg) flags requiredExtensions
        (if in_enableValidationLayers env then in_validationLayers env
         else [])
        (in_enableValidationLayers env) (in_createResult env) in
    if negb (in_createResult env =? VK_SUCCESS)
    then (Stopped (Thrown instance_failed), [created])
    else (Returned tt, [created]).

(** A debug build on a machine without the validation layer. *)
Definition ex_instance : InstanceEnv :=
  {| in_apple := false; in_enableValidationLayers := true;
     in_validationLayers := ["VK_LAYER_KHRONOS_validation"%string];
     in_availableLayers := [];
     in_glfwExtensions := ["VK_KHR_surface"%string];
     in_availableExtensions := ["VK_KHR_surface"%string];
     in_createResult := VK_SUCCESS |}.

(** ** Vocabulary for the steady state of the main loop *)

(** A turn in which a frame is drawn and nothing is out of the
    ordinary: no resize, every call of the frame succeeds. *)
Definition plain_turn (it : IterationEnv) : Prop :=
  it_resized it = false
  ∧ 0 < it_nbCommandBuffers it
  ∧ (fe_acquire (it_frame it)).1 = VK_SUCCESS
  ∧ fe_submit (it_frame it) = VK_SUCCESS
  ∧ fe_present (it_frame it) = VK_SUCCESS.

(** The frame slots of the submissions of a trace, in order. *)
Fixpoint submit_slots (t : list event) : list Z :=
  match t with
  | [] => []
  | EvQueueSubmit slot _ _ :: rest => slot :: submit_slots rest
  | _ :: rest => submit_slots rest
  end.

(** The slot used [k] frames after a frame that used slot [first]. *)
Definition slot_after (first : Z) (k : nat) : Z :=
  (first + Z.of_nat k) mod MAX_NB_FRAMES_IN_FLIGHT.

(** A turn in which the frame is drawn and presented as is. *)
Definition ex_plain_turn : IterationEnv :=
  {| it_resized := false; it_nbCommandBuffers := 1;
     it_frame := ex_frame VK_SUCCESS VK_SUCCESS VK_SUCCESS ex_recreate |}.

(** The calls of a rebuild up to a refused [vkCreateImageView]: the
    views of the images [before] were created, the view of [refused] was
    not. *)
Definition view_refused_trace (env : RecreateEnv) (a : Application)
    (info : VkSwapchainCreateInfoKHR) (before : list handle)
    (refused : handle) : list event :=
  [EvDeviceWaitIdle; EvSwapChainAboutToBeDestroyed]
  ++ map EvDestroyImageView (swapChainImageViews a)
  ++ [EvDestroySwapchain (swapChain a); EvCreateSwapchain info VK_SUCCESS]
  ++ map (λ image, EvCreateImageView image VK_SUCCESS) before
  ++ [EvCreateImageView refused (re_createImageView env refused).1].

(** A rebuild in which the driver refuses the view of the second
    image. *)
Definition ex_recreate_view_refused : RecreateEnv :=
  {| re_initialSize := (800, 600); re_polls := [];
     re_support := ex_support; re_framebufferSize := (800, 600);
     re_createResult := VK_SUCCESS; re_chain := 77; re_images := [10; 11; 12];
     re_createImageView := λ img,
       if img =? 11 then (VK_ERROR_OUT_OF_DEVICE_MEMORY, 0)
       else (VK_SUCCESS, img + 100) |}.

(** ** Start-up as a whole *)





(** * Verified properties *)

(** ** The embedding at work on the model scenarios *)

Example isDeviceSuitable_modern :
  isDeviceSuitable ex_config_13 ex_device_13 = true.
Proof. by vm_compute. Qed.

Example isDeviceSuitable_too_old :
  isDeviceSuitable ex_config_13 ex_device_10 = false.
Proof. by vm_compute. Qed.

Example findQueueFamilies_separate :
  uniqueQueueFamilies (findQueueFamilies ex_device_13) = [0; 1].
Proof. by vm_compute. Qed.

Example chooseSwapExtent_sentinel :
  chooseSwapExtent (capabilities ex_support_sentinel) (0, 9000)
  = {| width := 1; height := 4096 |}.
Proof. reflexivity. Qed.

Example transition_to_general_rejected :
  recordTransitionImageLayoutCommand [] 7 VK_FORMAT_B8G8R8A8_SRGB
    VK_IMAGE_LAYOUT_UNDEFINED VK_IMAGE_LAYOUT_GENERAL 1
  = (Stopped (Thrown (invalid_argument "Unsupported layout transition!")),
     []).
Proof. reflexivity. Qed.

Example drawFrame_plain_trace :
  drawFrame (ex_frame VK_SUCCESS VK_SUCCESS VK_SUCCESS ex_recreate) ex_app
  = (Returned tt,
     set_currentFrame 1
       (set_commandBufferList [5]
          (set_inFlightFences [FencePending; FenceSignaled] ex_app)),
     [EvWaitForFences 0 FenceSignaled; EvAcquireNextImage 0 VK_SUCCESS 1;
      EvResetFences 0; EvGetCommandBuffers 1;
      EvQueueSubmit 0 [5] VK_SUCCESS; EvQueuePresent 0 1 VK_SUCCESS]).
Proof. by vm_compute. Qed.

Example drawFrame_minimised_window :
  (drawFrame (ex_frame VK_ERROR_OUT_OF_DATE_KHR VK_SUCCESS VK_SUCCESS
                {| re_initialSize := (0, 0); re_polls := [(0, 0, false)];
                   re_support := ex_support; re_framebufferSize := (0, 0);
                   re_createResult := VK_SUCCESS; re_chain := 1;
                   re_images := [];
                   re_createImageView := λ img, (VK_SUCCESS, img) |})
     ex_app).1.1
  = Stopped WaitingForEvents.
Proof. by vm_compute. Qed.

Example mainLoop_scenario :
  let run := mainLoop ex_script ex_app in
  run.1.1 = Returned tt
  ∧ currentFrame run.1.2 = 1
  ∧ count is_submit run.2 = 3%nat
  ∧ count is_recreate run.2 = 3%nat.
Proof. by vm_compute. Qed.

(** ** The layout-transition helper *)

(** C8: [recordTransitionImageLayoutCommand] returns exactly for the pairs
    (UNDEFINED, TRANSFER_DST_OPTIMAL) and (TRANSFER_DST_OPTIMAL,
    SHADER_READ_ONLY_OPTIMAL), then appending one barrier for that pair;
    for every other pair it throws [std::invalid_argument] and the command
    buffer is exactly what it was: nothing has been recorded. *)
Theorem recordTransitionImageLayoutCommand_recognised_pairs :
  ∀ (commandBuffer : list command) (img : handle) (fmt : Z)
    (oldL newL : VkImageLayout) (mipLevels : Z),
    let result := recordTransitionImageLayoutCommand commandBuffer img fmt
                    oldL newL mipLevels in
    (result.1 = Returned tt ↔
       (oldL = VK_IMAGE_LAYOUT_UNDEFINED
        ∧ newL = VK_IMAGE_LAYOUT_TRANSFER_DST_OPTIMAL)
       ∨ (oldL = VK_IMAGE_LAYOUT_TRANSFER_DST_OPTIMAL
          ∧ newL = VK_IMAGE_LAYOUT_SHADER_READ_ONLY_OPTIMAL))
    ∧ (result.1 = Returned tt →
         ∃ src dst barrier,
           result.2 = commandBuffer ++ [CmdPipelineBarrier src dst barrier]
           ∧ oldLayout barrier = oldL ∧ newLayout barrier = newL
           ∧ image barrier = img)
    ∧ (result.1 ≠ Returned tt →
         result.1 = Stopped (Thrown
                      (invalid_argument "Unsupported layout transition!"))
         ∧ result.2 = commandBuffer).
Proof.
  intros cb img fmt oldL newL mip. unfold recordTransitionImageLayoutCommand.
  cbv zeta.
  destruct ((oldL =? VK_IMAGE_LAYOUT_UNDEFINED)
            && (newL =? VK_IMAGE_LAYOUT_TRANSFER_DST_OPTIMAL)) eqn:H1.
  - apply andb_true_iff in H1 as [Ho Hn].
    apply Z.eqb_eq in Ho, Hn. simpl.
    split; [split; auto|]. split; [|congruence].
    intros _. eexists _, _, _. split; [reflexivity|]. simpl. auto.
  - destruct ((oldL =? VK_IMAGE_LAYOUT_TRANSFER_DST_OPTIMAL)
              && (newL =? VK_IMAGE_LAYOUT_SHADER_READ_ONLY_OPTIMAL)) eqn:H2.
    + apply andb_true_iff in H2 as [Ho Hn].
      apply Z.eqb_eq in Ho, Hn. simpl.
      split; [split; auto|]. split; [|congruence].
      intros _. eexists _, _, _. split; [reflexivity|]. simpl. auto.
    + simpl. split; [|split; [discriminate|auto]].
      split; [discriminate|].
      intros [[Ho Hn]|[Ho Hn]]; subst oldL newL.
      * discriminate H1.
      * discriminate H2.
Qed.

(** ** The swap extent *)

(** On ordered bounds [std::clamp] is clamping into the bounds. *)
Lemma std_clamp_max_min (v lo hi : Z) :
  lo ≤ hi → std_clamp v lo hi = clamp_into v lo hi.
Proof.
  intros Hle. unfold std_clamp, clamp_into.
  destruct (v <? lo) eqn:H1; [lia|].
  destruct (hi <? v) eqn:H2; lia.
Qed.

(** C7: [chooseSwapExtent] returns the surface's current extent unless its
    width is the sentinel [UINT32_MAX]; with the sentinel it returns the
    framebuffer size, cast to [uint32_t], with [std::clamp] applied to each
    dimension, which on a surface with ordered bounds and a framebuffer
    size that is not negative is that size clamped into the bounds. *)
Theorem chooseSwapExtent_current_or_clamped :
  ∀ (caps : VkSurfaceCapabilitiesKHR) (w h : Z),
    (width (currentExtent caps) ≠ UINT32_MAX →
       chooseSwapExtent caps (w, h) = currentExtent caps)
    ∧ (width (currentExtent caps) = UINT32_MAX →
         chooseSwapExtent caps (w, h) =
           {| width := std_clamp (to_uint32 w) (width (minImageExtent caps))
                         (width (maxImageExtent caps));
              height := std_clamp (to_uint32 h) (height (minImageExtent caps))
                          (height (maxImageExtent caps)) |}
         ∧ (width (minImageExtent caps) ≤ width (maxImageExtent caps) →
            height (minImageExtent caps) ≤ height (maxImageExtent caps) →
            0 ≤ w < 2147483648 → 0 ≤ h < 2147483648 →
            chooseSwapExtent caps (w, h) =
              {| width := clamp_into w (width (minImageExtent caps))
                            (width (maxImageExtent caps));
                 height := clamp_into h (height (minImageExtent caps))
                             (height (maxImageExtent caps)) |}
            ∧ width (minImageExtent caps)
                ≤ width (chooseSwapExtent caps (w, h))
                ≤ width (maxImageExtent caps)
            ∧ height (minImageExtent caps)
                ≤ height (chooseSwapExtent caps (w, h))
                ≤ height (maxImageExtent caps))).
Proof.
  intros caps w h. unfold chooseSwapExtent. split.
  - intros Hne. apply Z.eqb_neq in Hne. by rewrite Hne.
  - intros Heq. apply Z.eqb_eq in Heq. rewrite Heq. simpl.
    split; [done|]. intros Hw Hh Hwr Hhr.
    unfold to_uint32. rewrite !Z.mod_small by lia.
    rewrite !std_clamp_max_min by done.
    split; [done|]. unfold clamp_into. lia.
Qed.

(** A window of 5000 x 300 pixels on a surface that accepts up to
    4096 x 4096. *)
Lemma chooseSwapExtent_witness :
  chooseSwapExtent (capabilities ex_support_sentinel) (5000, 300)
  = {| width := 4096; height := 300 |}.
Proof.
  destruct (chooseSwapExtent_current_or_clamped
              (capabilities ex_support_sentinel) 5000 300) as [_ H].
  destruct H as [_ H]; [reflexivity|].
  destruct H as [H _]; simpl; try lia.
  exact H.
Defined.

(** ** The queue requests of the logical device *)

Lemma uniqueQueueFamilies_cases (indices : queueFamilyIndices_t) :
  let g := families_at indices GRAPHICS_QUEUE_FAMILY in
  let p := families_at indices PRESENTATION_QUEUE_FAMILY in
  (p < g ∧ uniqueQueueFamilies indices = [p; g])
  ∨ (p = g ∧ uniqueQueueFamilies indices = [g])
  ∨ (g < p ∧ uniqueQueueFamilies indices = [g; p]).
Proof.
  intros g p. unfold uniqueQueueFamilies. fold g p. simpl.
  destruct (p <? g) eqn:Hlt.
  - left. split; [lia|done].
  - destruct (p =? g) eqn:Heq.
    + right; left. split; [lia|done].
    + right; right. split; [lia|done].
Qed.

(** C6: with both roles resolved, to the family indices [g] and [p]
    stored in the map, the queue-create list holds one entry per
    distinct family index: one entry when the graphics and presentation
    roles resolve to the same family, two when they differ, never the
    same family twice, each asking for one queue; and it is the list
    handed to [vkCreateDevice], in its one call. *)
Theorem createLogicalDevice_one_request_per_family :
  ∀ (indices : queueFamilyIndices_t) (g p : Z),
    families indices !! GRAPHICS_QUEUE_FAMILY = Some g →
    families indices !! PRESENTATION_QUEUE_FAMILY = Some p →
    let requested := map queueFamilyIndex (queueCreateInfos indices) in
    NoDup requested
    ∧ length (queueCreateInfos indices)
      = (if bool_decide (g = p) then 1 else 2)%nat
    ∧ (∀ x, x ∈ requested ↔ x = g ∨ x = p)
    ∧ Forall (λ info, queueCount info = 1) (queueCreateInfos indices)
    ∧ ∀ (a : Application) (createResult : VkResult),
        match physicalDevice a with
        | Some device =>
            ∃ rest,
              (createLogicalDevice createResult a).2 =
                EvCreateDevice (queueCreateInfos (findQueueFamilies device))
                  (getRequiredDeviceExtensions (config a) device) createResult
                :: rest
              ∧ Forall (λ e, ∀ q x r, e ≠ EvCreateDevice q x r) rest
        | None => (createLogicalDevice createResult a).2 = []
        end.
Proof.
  intros indices g p Hg Hp requested.
  assert (Hreq : requested = uniqueQueueFamilies indices).
  { unfold requested, queueCreateInfos. rewrite map_map. simpl.
    apply map_id. }
  assert (Hlen : length (queueCreateInfos indices)
                 = length (uniqueQueueFamilies indices)).
  { unfold queueCreateInfos. by rewrite length_map. }
  assert (Hfg : families_at indices GRAPHICS_QUEUE_FAMILY = g)
    by (unfold families_at; by rewrite Hg).
  assert (Hfp : families_at indices PRESENTATION_QUEUE_FAMILY = p)
    by (unfold families_at; by rewrite Hp).
  pose proof (uniqueQueueFamilies_cases indices) as Hcases.
  cbv zeta in Hcases. rewrite Hfg, Hfp in Hcases.
  split; [|split; [|split; [|split]]].
  - rewrite Hreq.
    destruct Hcases as [[Hord ->]|[[Hord ->]|[Hord ->]]];
      rewrite ?NoDup_cons, ?list_elem_of_singleton;
      repeat split; try apply NoDup_nil_2; try apply not_elem_of_nil; lia.
  - rewrite Hlen.
    destruct Hcases as [[Hord ->]|[[Hord ->]|[Hord ->]]];
      case_bool_decide; simpl; lia.
  - intros x. rewrite Hreq.
    destruct Hcases as [[Hord ->]|[[Hord ->]|[Hord ->]]];
      rewrite ?elem_of_cons, ?elem_of_nil; intuition lia.
  - unfold queueCreateInfos. apply Forall_map, Forall_forall. done.
  - intros a r. unfold createLogicalDevice, bind, get.
    destruct (physicalDevice a) as [device|]; [|done].
    simpl. destruct (negb (r =? VK_SUCCESS)); simpl.
    + eexists; split; [reflexivity|constructor].
    + eexists; split; [reflexivity|]. repeat constructor; discriminate.
Qed.

(** The graphics role of the device resolves to family 0 and the
    presentation role to family 1: two requests are handed to
    [vkCreateDevice], for the families 0 and 1. *)
Lemma createLogicalDevice_one_request_witness :
  ∃ requests extensions rest,
    (createLogicalDevice VK_SUCCESS ex_app).2
    = EvCreateDevice requests extensions VK_SUCCESS :: rest
    ∧ length requests = 2%nat
    ∧ 0 ∈ map queueFamilyIndex requests
    ∧ 1 ∈ map queueFamilyIndex requests
    ∧ NoDup (map queueFamilyIndex requests).
Proof.
  destruct (createLogicalDevice_one_request_per_family
              (findQueueFamilies ex_device_13) 0 1)
    as (Hnodup & Hlen & Hmem & _ & Hcall).
  - by vm_compute.
  - by vm_compute.
  - destruct (Hcall ex_app VK_SUCCESS) as (rest & Htrace & _).
    eexists _, _, rest. split; [exact Htrace|].
    split; [exact Hlen|]. split; [apply Hmem; by left|].
    split; [apply Hmem; by right|exact Hnodup].
Defined.

(** A device whose one family takes both roles gets a single request. *)
Example createLogicalDevice_shared_family :
  map queueFamilyIndex (queueCreateInfos (findQueueFamilies ex_device_10))
  = [0].
Proof. by vm_compute. Qed.

(** ** Feature comparison *)

Lemma truthy_true (b : Z) : truthy b = true ↔ b ≠ 0.
Proof. unfold truthy. rewrite negb_true_iff, Z.eqb_neq. done. Qed.

Lemma truthy_false (b : Z) : truthy b = false ↔ b = 0.
Proof. unfold truthy. rewrite negb_false_iff, Z.eqb_eq. done. Qed.

(** The loop answers true exactly when no flag in [i, i + remaining) is
    required without being supported by a device of a sufficient version. *)
Lemma compareFeatures_loop_true (required supported : list VkBool32)
    (apiVersionSupported : bool) (remaining i : nat) :
  compareFeatures_loop required supported i remaining apiVersionSupported = true
  ↔ ∀ j, (i ≤ j < i + remaining)%nat → flag_set required j →
         flag_set supported j ∧ apiVersionSupported = true.
Proof.
  revert i. induction remaining as [|n IH]; intros i; simpl.
  - split; [intros _ j Hj; lia|done].
  - destruct (truthy (default 0 (required !! i))
              && (negb (truthy (default 0 (supported !! i)))
                  || negb apiVersionSupported)) eqn:Hbad.
    + split; [discriminate|]. intros Hall. exfalso.
      apply andb_true_iff in Hbad as [Hreq Hmiss].
      apply truthy_true in Hreq.
      destruct (Hall i) as [Hsup Hapi]; [lia|done|].
      apply orb_true_iff in Hmiss as [Hmiss|Hmiss].
      * apply negb_true_iff, truthy_false in Hmiss. by apply Hsup.
      * rewrite Hapi in Hmiss. discriminate.
    + rewrite IH. split.
      * intros Hall j Hj Hreq.
        destruct (decide (j = i)) as [->|Hne]; [|apply Hall; [lia|done]].
        apply truthy_true in Hreq. rewrite Hreq in Hbad. simpl in Hbad.
        apply orb_false_iff in Hbad as [Hsup Hapi].
        apply negb_false_iff in Hsup, Hapi.
        split; [by apply truthy_true|done].
      * intros Hall j Hj. apply Hall. lia.
Qed.

Lemma flag_set_lt (block : list VkBool32) (i : nat) :
  flag_set block i → (i < length block)%nat.
Proof.
  unfold flag_set. intros Hset. apply lookup_lt_is_Some.
  destruct (block !! i); [eauto|done].
Qed.

(** Over the whole block of the required structure. *)
Lemma compareFeatures_true (required supported : list VkBool32)
    (apiVersionSupported : bool) :
  compareFeatures required supported (length required) apiVersionSupported = true
  ↔ flags_supported required supported
    ∧ (apiVersionSupported = true ∨ no_flag_required required).
Proof.
  unfold compareFeatures. rewrite compareFeatures_loop_true. split.
  - intros Hall. split.
    + intros i Hreq. apply Hall; [|done].
      pose proof (flag_set_lt _ _ Hreq). lia.
    + destruct apiVersionSupported; [by left|right].
      intros i Hreq. destruct (Hall i) as [_ ?]; [|done|done].
      pose proof (flag_set_lt _ _ Hreq). lia.
  - intros [Hsup Hapi] j _ Hreq. split; [by apply Hsup|].
    destruct Hapi as [?|Hnone]; [done|]. by destruct (Hnone j).
Qed.

Lemma compareFeatures_missing (required supported : list VkBool32)
    (apiVersionSupported : bool) (i : nat) :
  flag_set required i →
  ¬ flag_set supported i ∨ apiVersionSupported = false →
  compareFeatures required supported (length required) apiVersionSupported
  = false.
Proof.
  intros Hreq Hmiss. apply not_true_is_false. rewrite compareFeatures_true.
  intros [Hsup Hapi]. destruct Hmiss as [Hmiss|Hmiss].
  - by apply Hmiss, Hsup.
  - destruct Hapi as [Hapi|Hnone]; [congruence|]. by apply (Hnone i).
Qed.

Lemma isDeviceSuitable_base_missing (cfg : config_t) (device : PhysicalDevice)
    (i : nat) :
  flag_set (features10 cfg) i → ¬ flag_set (pd_features10 device) i →
  isDeviceSuitable cfg device = false.
Proof.
  intros Hreq Hmiss. unfold isDeviceSuitable. cbv zeta.
  rewrite (compareFeatures_missing _ _ true i Hreq) by by left.
  simpl. repeat case_match; done.
Qed.

Lemma isDeviceSuitable_tier_missing (cfg : config_t) (device : PhysicalDevice)
    (t : tier) (i : nat) :
  vulkanVersion cfg ≠ VK_API_VERSION_1_0 →
  flag_set (required_block cfg t) i →
  ¬ flag_set (supported_block device t) i
  ∨ pd_apiVersion device < tier_version t →
  isDeviceSuitable cfg device = false.
Proof.
  intros Hver Hreq Hmiss. unfold isDeviceSuitable. cbv zeta.
  apply Z.eqb_neq in Hver. rewrite Hver.
  assert (Hcmp : compareFeatures (required_block cfg t)
                   (supported_block device t)
                   (length (required_block cfg t))
                   (tier_version t <=? pd_apiVersion device) = false).
  { apply (compareFeatures_missing _ _ _ i Hreq).
    destruct Hmiss as [?|Hlt]; [by left|right]. by apply Z.leb_gt. }
  destruct t; simpl in Hcmp; rewrite Hcmp; simpl; repeat case_match; done.
Qed.

(** C4, as the code has it: the base flags are checked for every device;
    when the application's target version is not 1.0, a device is rejected
    for every flag required in tier 1.1, 1.2 or 1.3 that it does not
    report, and for every such flag when its API version is below the
    tier's version, whether or not it reports the flag. *)
Theorem isDeviceSuitable_rejects_missing_tier_flag :
  ∀ (cfg : config_t) (device : PhysicalDevice),
    (∀ i, flag_set (features10 cfg) i →
          ¬ flag_set (pd_features10 device) i →
          isDeviceSuitable cfg device = false)
    ∧ (vulkanVersion cfg ≠ VK_API_VERSION_1_0 →
       ∀ (t : tier) (i : nat),
         flag_set (required_block cfg t) i →
         (¬ flag_set (supported_block device t) i
          ∨ pd_apiVersion device < tier_version t) →
         isDeviceSuitable cfg device = false).
Proof.
  intros cfg device. split.
  - intros i. apply isDeviceSuitable_base_missing.
  - intros Hver t i. by apply isDeviceSuitable_tier_missing.
Qed.

(** A device of version 1.0 that reports the required flag of tier 1.1 is
    rejected all the same. *)
Lemma isDeviceSuitable_rejects_witness :
  flag_set (supported_block ex_device_10 Tier11) 0
  ∧ isDeviceSuitable ex_config_13 ex_device_10 = false.
Proof.
  split; [by vm_compute|].
  apply (proj2 (isDeviceSuitable_rejects_missing_tier_flag
                  ex_config_13 ex_device_10)) with (t := Tier11) (i := 0%nat).
  - by vm_compute.
  - by vm_compute.
  - right. by vm_compute.
Defined.

(** C4 as stated fails: with the target version set to 1.0 the tiers above
    the base are not looked at, and a device without the required tier-1.1
    flag, and of too old a version, is accepted. *)
Lemma isDeviceSuitable_tier_claim_counterexample :
  ¬ (∀ (cfg : config_t) (device : PhysicalDevice) (t : tier) (i : nat),
       flag_set (required_block cfg t) i →
       (¬ flag_set (supported_block device t) i
        ∨ pd_apiVersion device < tier_version t) →
       isDeviceSuitable cfg device = false).
Proof.
  intros Hclaim.
  specialize (Hclaim ex_config_10 ex_device_plain Tier11 0%nat).
  assert (Hacc : isDeviceSuitable ex_config_10 ex_device_plain = true)
    by by vm_compute.
  rewrite Hclaim in Hacc; [discriminate| |].
  - by vm_compute.
  - left. by vm_compute.
Qed.

(** ** Queue families *)

Lemma size_two_roles (m : gmap Z Z) :
  dom m ⊆ {[ GRAPHICS_QUEUE_FAMILY; PRESENTATION_QUEUE_FAMILY ]} →
  size m = 2%nat ↔ is_Some (m !! GRAPHICS_QUEUE_FAMILY)
                 ∧ is_Some (m !! PRESENTATION_QUEUE_FAMILY).
Proof.
  intros Hdom. rewrite <- !elem_of_dom, <- size_dom.
  unfold GRAPHICS_QUEUE_FAMILY, PRESENTATION_QUEUE_FAMILY in *.
  split.
  - intros Hsize.
    destruct (decide (0 ∈ dom m)) as [H0|H0];
      destruct (decide (1 ∈ dom m)) as [H1|H1]; [done|exfalso..].
    + assert (Hsub : dom m ⊆ {[ 0 ]}) by set_solver.
      apply subseteq_size in Hsub. rewrite size_singleton in Hsub. lia.
    + assert (Hsub : dom m ⊆ {[ 1 ]}) by set_solver.
      apply subseteq_size in Hsub. rewrite size_singleton in Hsub. lia.
    + assert (Hsub : dom m ⊆ {[ 1 ]}) by set_solver.
      apply subseteq_size in Hsub. rewrite size_singleton in Hsub. lia.
  - intros [H0 H1].
    assert (Heq : dom m = {[ 0; 1 ]}) by set_solver.
    rewrite Heq. rewrite size_union by set_solver.
    by rewrite !size_singleton.
Qed.

Lemma isComplete_both_roles (indices : queueFamilyIndices_t) :
  roles_only indices →
  isComplete indices = true
  ↔ is_Some (families indices !! GRAPHICS_QUEUE_FAMILY)
    ∧ is_Some (families indices !! PRESENTATION_QUEUE_FAMILY).
Proof.
  intros [Hnb Hdom]. unfold isComplete. rewrite bool_decide_eq_true, Hnb.
  by apply size_two_roles.
Qed.

Lemma set_family_roles_only (role index : Z) (indices : queueFamilyIndices_t) :
  role = GRAPHICS_QUEUE_FAMILY ∨ role = PRESENTATION_QUEUE_FAMILY →
  roles_only indices → roles_only (set_family role index indices).
Proof.
  intros Hrole [Hnb Hdom]. split; [done|]. simpl.
  rewrite dom_insert_L. set_solver.
Qed.

Lemma set_family_lookup (role index k : Z) (indices : queueFamilyIndices_t) :
  is_Some (families (set_family role index indices) !! k)
  ↔ k = role ∨ is_Some (families indices !! k).
Proof.
  simpl. rewrite lookup_insert_is_Some.
  destruct (decide (role = k)); naive_solver.
Qed.

(** The loop keeps what was found and finds a role exactly when some
    family of the list can take it; the early exit loses nothing, because
    it is taken only once both roles are found. *)
Lemma findQueueFamilies_loop_roles (queueFamilies : list QueueFamily) :
  ∀ (i : Z) (indices : queueFamilyIndices_t),
    roles_only indices →
    let found := findQueueFamilies_loop queueFamilies i indices in
    roles_only found
    ∧ (is_Some (families found !! GRAPHICS_QUEUE_FAMILY)
       ↔ is_Some (families indices !! GRAPHICS_QUEUE_FAMILY)
         ∨ ∃ q, q ∈ queueFamilies ∧ graphics_capable q)
    ∧ (is_Some (families found !! PRESENTATION_QUEUE_FAMILY)
       ↔ is_Some (families indices !! PRESENTATION_QUEUE_FAMILY)
         ∨ ∃ q, q ∈ queueFamilies ∧ presentation_capable q).
Proof.
  induction queueFamilies as [|q rest IH]; intros i indices Hroles.
  - simpl. split; [done|].
    split; (split; [by left|]); intros [?|[q [Hq _]]]; try done;
      by apply elem_of_nil in Hq.
  - cbn [findQueueFamilies_loop]. cbv zeta.
    set (indices1 := if truthy (Z.land (queueFlags q) VK_QUEUE_GRAPHICS_BIT)
                     then set_family GRAPHICS_QUEUE_FAMILY i indices
                     else indices).
    set (indices2 := if truthy (presentationSupport q)
                     then set_family PRESENTATION_QUEUE_FAMILY i indices1
                     else indices1).
    assert (Hroles1 : roles_only indices1).
    { unfold indices1. case_match; [|done].
      apply set_family_roles_only; auto. }
    assert (Hroles2 : roles_only indices2).
    { unfold indices2. case_match; [|done].
      apply set_family_roles_only; auto. }
    assert (Hg : is_Some (families indices2 !! GRAPHICS_QUEUE_FAMILY)
                 ↔ is_Some (families indices !! GRAPHICS_QUEUE_FAMILY)
                   ∨ graphics_capable q).
    { unfold indices2, indices1, graphics_capable.
      destruct (truthy (presentationSupport q));
        destruct (truthy (Z.land _ _)) eqn:Hgq;
        rewrite ?set_family_lookup;
        [apply truthy_true in Hgq|apply truthy_false in Hgq
        |apply truthy_true in Hgq|apply truthy_false in Hgq];
        unfold GRAPHICS_QUEUE_FAMILY, PRESENTATION_QUEUE_FAMILY;
        intuition (try lia; try done). }
    assert (Hp : is_Some (families indices2 !! PRESENTATION_QUEUE_FAMILY)
                 ↔ is_Some (families indices !! PRESENTATION_QUEUE_FAMILY)
                   ∨ presentation_capable q).
    { unfold indices2, indices1, presentation_capable.
      destruct (truthy (presentationSupport q)) eqn:Hpq;
        destruct (truthy (Z.land _ _));
        rewrite ?set_family_lookup;
        [apply truthy_true in Hpq|apply truthy_true in Hpq
        |apply truthy_false in Hpq|apply truthy_false in Hpq];
        unfold GRAPHICS_QUEUE_FAMILY, PRESENTATION_QUEUE_FAMILY;
        intuition (try lia; try done). }
    destruct (isComplete indices2) eqn:Hc.
    + apply isComplete_both_roles in Hc as [Hc0 Hc1]; [|done].
      split; [done|]. split.
      * split; [|done]. intros _. apply Hg in Hc0 as [?|?]; [by left|right].
        exists q. split; [left|done].
      * split; [|done]. intros _. apply Hp in Hc1 as [?|?]; [by left|right].
        exists q. split; [left|done].
    + destruct (IH (i + 1) indices2 Hroles2) as (Hr & Hgr & Hpr).
      split; [done|]. rewrite Hgr, Hpr, Hg, Hp.
      split; split.
      * intros [[?|?]|[q' [? ?]]]; [by left|right..].
        -- exists q. split; [left|done].
        -- exists q'. split; [by right|done].
      * intros [?|[q' [Hin ?]]]; [by left; left|].
        apply elem_of_cons in Hin as [->|?]; [by left; right|right].
        by exists q'.
      * intros [[?|?]|[q' [? ?]]]; [by left|right..].
        -- exists q. split; [left|done].
        -- exists q'. split; [by right|done].
      * intros [?|[q' [Hin ?]]]; [by left; left|].
        apply elem_of_cons in Hin as [->|?]; [by left; right|right].
        by exists q'.
Qed.

Lemma findQueueFamilies_complete (device : PhysicalDevice) :
  isComplete (findQueueFamilies device) = true ↔ roles_resolvable device.
Proof.
  unfold findQueueFamilies, roles_resolvable.
  set (start := {| nbRequiredFamilies := 2; families := ∅ |}).
  assert (Hstart : roles_only start).
  { split; [done|]. simpl. rewrite dom_empty_L. set_solver. }
  destruct (findQueueFamilies_loop_roles (pd_queueFamilies device) 0 start
              Hstart) as (Hr & Hg & Hp).
  rewrite isComplete_both_roles by done. rewrite Hg, Hp. simpl.
  rewrite !lookup_empty. split.
  - intros [[H|?] [H'|?]]; try done; by destruct H || by destruct H'.
  - intros [? ?]. split; by right.
Qed.

(** ** Device extensions *)

Lemma erase_all (names : list string) (s : gset string) :
  foldl (λ s name, s ∖ {[ name ]}) s names = s ∖ list_to_set names.
Proof.
  revert s. induction names as [|name rest IH]; intros s; simpl.
  - set_solver.
  - rewrite IH. set_solver.
Qed.

Lemma portability_subset_available (available : list string) :
  existsb (String.eqb portability_subset) available = true →
  portability_subset ∈ available.
Proof.
  intros Hex. apply existsb_exists in Hex as (name & Hin & Heq).
  apply String.eqb_eq in Heq. subst name. by apply list_elem_of_In.
Qed.

Lemma checkDeviceExtensionSupport_true (cfg : config_t)
    (device : PhysicalDevice) :
  checkDeviceExtensionSupport cfg device = true
  ↔ ∀ name, name ∈ deviceExtensions cfg → name ∈ pd_extensions device.
Proof.
  unfold checkDeviceExtensionSupport. cbv zeta.
  rewrite bool_decide_eq_true, erase_all.
  unfold getRequiredDeviceExtensions.
  destruct (existsb _ _) eqn:Hport.
  - apply portability_subset_available in Hport.
    rewrite list_to_set_app_L. split.
    + intros Hempty name Hin.
      assert (Hno : name ∉ (list_to_set (deviceExtensions cfg)
                            ∪ list_to_set [portability_subset])
                           ∖ (list_to_set (pd_extensions device) : gset string))
        by (rewrite Hempty; set_solver).
      set_solver.
    + intros Hall. apply set_eq. intros name. set_solver.
  - split.
    + intros Hempty name Hin.
      assert (Hno : name ∉ (list_to_set (deviceExtensions cfg) : gset string)
                           ∖ list_to_set (pd_extensions device))
        by (rewrite Hempty; set_solver).
      set_solver.
    + intros Hall. apply set_eq. intros name. set_solver.
Qed.

(** ** Suitability *)

Lemma tier_cmp (cfg : config_t) (device : PhysicalDevice) (t : tier) :
  compareFeatures (required_block cfg t) (supported_block device t)
    (length (required_block cfg t)) (tier_version t <=? pd_apiVersion device)
  = true ↔ tier_supported cfg device t.
Proof.
  rewrite compareFeatures_true. unfold tier_supported.
  by rewrite Z.leb_le.
Qed.

Lemma isDeviceSuitable_true (cfg : config_t) (device : PhysicalDevice) :
  isDeviceSuitable cfg device = true
  ↔ roles_resolvable device
    ∧ (∀ name, name ∈ deviceExtensions cfg → name ∈ pd_extensions device)
    ∧ formats (pd_support device) ≠ []
    ∧ presentationModes (pd_support device) ≠ []
    ∧ compared_features_supported cfg device.
Proof.
  rewrite <- findQueueFamilies_complete, <- checkDeviceExtensionSupport_true.
  unfold isDeviceSuitable, compared_features_supported. cbv zeta.
  pose proof (tier_cmp cfg device Tier11) as H11.
  pose proof (tier_cmp cfg device Tier12) as H12.
  pose proof (tier_cmp cfg device Tier13) as H13.
  simpl in H11, H12, H13.
  pose proof (compareFeatures_true (features10 cfg) (pd_features10 device)
                true) as H10.
  destruct (isComplete (findQueueFamilies device)); simpl;
    [|naive_solver].
  destruct (checkDeviceExtensionSupport cfg device); simpl;
    [|naive_solver].
  case_bool_decide as Hf; simpl; [naive_solver|].
  case_bool_decide as Hm; simpl; [naive_solver|].
  destruct (vulkanVersion cfg =? VK_API_VERSION_1_0) eqn:Hver.
  - apply Z.eqb_eq in Hver. rewrite H10. naive_solver.
  - apply Z.eqb_neq in Hver.
    destruct (compareFeatures (features10 cfg) _ _ true); simpl;
      [|naive_solver].
    destruct (compareFeatures (features11 cfg) _ _ _); simpl;
      [|split; [done|]; intros (_ & _ & _ & _ & _ & Ht);
        specialize (Ht Hver Tier11); apply H11 in Ht; done].
    destruct (compareFeatures (features12 cfg) _ _ _); simpl;
      [|split; [done|]; intros (_ & _ & _ & _ & _ & Ht);
        specialize (Ht Hver Tier12); apply H12 in Ht; done].
    destruct (compareFeatures (features13 cfg) _ _ _); simpl;
      [|split; [done|]; intros (_ & _ & _ & _ & _ & Ht);
        specialize (Ht Hver Tier13); apply H13 in Ht; done].
    split; [|done]. intros _.
    split; [done|]. split; [done|]. split; [done|]. split; [done|].
    split; [by apply H10|].
    intros _ [| |]; [by apply H11|by apply H12|by apply H13].
Qed.

(** ** Selection of the physical device *)

Lemma pickPhysicalDevice_loop_none (cfg : config_t)
    (devices : list PhysicalDevice) (a : Application) :
  Forall (λ d, isDeviceSuitable cfg d = false) devices →
  pickPhysicalDevice_loop cfg devices a = a.
Proof.
  induction 1 as [|d rest Hd _ IH]; simpl; [done|]. by rewrite Hd.
Qed.

Lemma pickPhysicalDevice_loop_first (cfg : config_t)
    (before after : list PhysicalDevice) (d : PhysicalDevice)
    (a : Application) :
  Forall (λ d, isDeviceSuitable cfg d = false) before →
  isDeviceSuitable cfg d = true →
  pickPhysicalDevice_loop cfg (before ++ d :: after) a
  = set_physicalDevice (Some d) (getMaxUsableSampleCount d) a.
Proof.
  intros Hbefore Hd. induction Hbefore as [|x rest Hx _ IH]; simpl.
  - by rewrite Hd.
  - by rewrite Hx.
Qed.

Lemma compared_features_every (cfg : config_t) (device : PhysicalDevice) :
  vulkanVersion cfg ≠ VK_API_VERSION_1_0 →
  compared_features_supported cfg device
  ↔ every_required_feature_supported cfg device.
Proof.
  intros Hver. unfold compared_features_supported,
    every_required_feature_supported. naive_solver.
Qed.

(** C5, as the code has it: [pickPhysicalDevice] stores the first
    device, in enumeration order, that [isDeviceSuitable] accepts; it
    throws when the enumeration is empty and, starting from the null
    handle the attribute is initialised with, when no enumerated device
    is suitable. A device is suitable exactly when both queue roles
    resolve, every required extension is available, the surface has a
    format and a presentation mode, the required base features are
    supported and, unless the application is configured for version
    1.0, so are the required features of every tier; configured for
    another version, the condition on the features is that every required
    feature is supported. *)
Theorem pickPhysicalDevice_first_suitable :
  ∀ (devices : list PhysicalDevice) (a : Application),
    let run := pickPhysicalDevice devices a in
    (devices = [] →
       run.1.1 = Stopped (Thrown
         (runtime_error "Failed to find GPUs with Vulkan support!")))
    ∧ (devices ≠ [] →
       Forall (λ d, isDeviceSuitable (config a) d = false) devices →
       physicalDevice a = None →
       run.1.1 = Stopped (Thrown
         (runtime_error "Failed to find a suitable GPU!"))
       ∧ physicalDevice run.1.2 = None)
    ∧ (∀ before d after,
         devices = before ++ d :: after →
         Forall (λ d, isDeviceSuitable (config a) d = false) before →
         isDeviceSuitable (config a) d = true →
         run.1.1 = Returned tt ∧ physicalDevice run.1.2 = Some d)
    ∧ (∀ d, isDeviceSuitable (config a) d = true
            ↔ roles_resolvable d
              ∧ (∀ name, name ∈ deviceExtensions (config a) →
                         name ∈ pd_extensions d)
              ∧ formats (pd_support d) ≠ []
              ∧ presentationModes (pd_support d) ≠ []
              ∧ compared_features_supported (config a) d)
    ∧ (vulkanVersion (config a) ≠ VK_API_VERSION_1_0 →
       ∀ d, isDeviceSuitable (config a) d = true
            ↔ roles_resolvable d
              ∧ (∀ name, name ∈ deviceExtensions (config a) →
                         name ∈ pd_extensions d)
              ∧ formats (pd_support d) ≠ []
              ∧ presentationModes (pd_support d) ≠ []
              ∧ every_required_feature_supported (config a) d).
Proof.
  intros devices a run. subst run. unfold pickPhysicalDevice.
  split; [|split; [|split; [|split]]].
  - intros ->. done.
  - intros Hne Hnone Hnull. case_bool_decide as Hlen.
    { destruct devices; [done|discriminate]. }
    unfold bind, get, modify. simpl.
    rewrite pickPhysicalDevice_loop_none by done. by rewrite Hnull.
  - intros before d after -> Hbefore Hd. case_bool_decide as Hlen.
    { rewrite length_app in Hlen. simpl in Hlen. lia. }
    unfold bind, get, modify. simpl.
    by rewrite pickPhysicalDevice_loop_first.
  - intros d. apply isDeviceSuitable_true.
  - intros Hver d. rewrite isDeviceSuitable_true.
    by rewrite (compared_features_every _ _ Hver).
Qed.

(** The second of three devices is the first suitable one and is chosen,
    although the third, another device, is suitable as well. *)
Lemma pickPhysicalDevice_witness :
  physicalDevice
    (pickPhysicalDevice [ex_device_plain; ex_device_13; ex_device_12]
       (initialApplication ex_config_13)).1.2
  = Some ex_device_13
  ∧ isDeviceSuitable ex_config_13 ex_device_12 = true
  ∧ ex_device_12 ≠ ex_device_13.
Proof.
  destruct (pickPhysicalDevice_first_suitable
              [ex_device_plain; ex_device_13; ex_device_12]
              (initialApplication ex_config_13)) as (_ & _ & H & _).
  destruct (H [ex_device_plain] ex_device_13 [ex_device_12]) as [_ Hsel].
  - reflexivity.
  - repeat constructor.
  - by vm_compute.
  - split; [exact Hsel|]. split; [by vm_compute|discriminate].
Defined.

(** C5 as stated fails: for an application configured for version 1.0
    that requires a flag of tier 1.1, a device that does not report the
    flag is selected. *)
Lemma pickPhysicalDevice_features_claim_counterexample :
  ¬ (∀ (devices : list PhysicalDevice) (a : Application)
       (d : PhysicalDevice),
       physicalDevice a = None →
       (pickPhysicalDevice devices a).1.1 = Returned tt →
       physicalDevice (pickPhysicalDevice devices a).1.2 = Some d →
       flags_supported (features10 (config a)) (pd_features10 d)
       ∧ ∀ t, flags_supported (required_block (config a) t)
                (supported_block d t)).
Proof.
  intros Hclaim.
  destruct (Hclaim [ex_device_plain] (initialApplication ex_config_10)
              ex_device_plain) as [_ Htiers]; [reflexivity..|].
  specialize (Htiers Tier11 0%nat). unfold flag_set in Htiers.
  simpl in Htiers. by apply Htiers.
Qed.

(** ** Reasoning rules for the application monad *)

Section Maintains.
Context {R : Application -> Application -> Prop}.
Context {E : event -> Prop} {O : stop -> Prop}.
Hypothesis R_refl : ∀ s, R s s.
Hypothesis R_trans : ∀ s1 s2 s3, R s1 s2 → R s2 s3 → R s1 s3.

Lemma maintains_ret {A} (a : A) : maintains R E O (ret a).
Proof. intros s. simpl. split; [done|]. split; [constructor|done]. Qed.

Lemma maintains_get : maintains R E O get.
Proof. intros s. simpl. split; [done|]. split; [constructor|done]. Qed.

Lemma maintains_halt {A} (why : stop) :
  O why → maintains R E O (halt (A := A) why).
Proof.
  intros Hwhy s. simpl. split; [done|]. split; [constructor|].
  intros why' [= <-]. done.
Qed.

Lemma maintains_emit (e : event) : E e → maintains R E O (emit e).
Proof.
  intros He s. simpl. split; [done|]. split; [by repeat constructor|done].
Qed.

Lemma maintains_modify (f : Application -> Application) :
  (∀ s, R s (f s)) → maintains R E O (modify f).
Proof. intros Hf s. simpl. split; [done|]. split; [constructor|done]. Qed.

Lemma maintains_bind {A B} (m : M A) (k : A -> M B) :
  maintains R E O m → (∀ a, maintains R E O (k a)) →
  maintains R E O (bind m k).
Proof.
  intros Hm Hk s. unfold bind.
  destruct (Hm s) as (HR & HE & HO).
  destruct (m s) as [[[a|why] s1] t1]; simpl in *.
  - destruct (Hk a s1) as (HR' & HE' & HO').
    destruct (k a s1) as [[o s2] t2]; simpl in *.
    split; [by eapply R_trans|]. split; [by apply Forall_app|done].
  - split; [done|]. split; [done|]. intros why' [= <-]. by apply HO.
Qed.
End Maintains.

Lemma completes_ret {A} (P : Application -> Prop) (a : A) :
  completes P (ret a) (λ _ s, P s).
Proof. intros s Hs. by exists a, s, []. Qed.

Lemma completes_get (P : Application -> Prop) :
  completes P get (λ a s, a = s ∧ P s).
Proof. intros s Hs. by exists s, s, []. Qed.

Lemma completes_emit (P : Application -> Prop) (e : event) :
  completes P (emit e) (λ _ s, P s).
Proof. intros s Hs. by exists tt, s, [e]. Qed.

Lemma completes_modify (P Q : Application -> Prop)
    (f : Application -> Application) :
  (∀ s, P s → Q (f s)) → completes P (modify f) (λ _ s, Q s).
Proof. intros Hf s Hs. exists tt, (f s), []. split; [done|by apply Hf]. Qed.

Lemma completes_bind {A B} (P : Application -> Prop) (m : M A)
    (Q : A -> Application -> Prop) (k : A -> M B)
    (S : B -> Application -> Prop) :
  completes P m Q → (∀ a, completes (Q a) (k a) S) →
  completes P (bind m k) S.
Proof.
  intros Hm Hk s Hs. unfold bind.
  destruct (Hm s Hs) as (a & s1 & t1 & -> & Hq).
  destruct (Hk a s1 Hq) as (b & s2 & t2 & -> & Hr).
  by exists b, s2, (t1 ++ t2).
Qed.

Lemma completes_weaken {A} (P P' : Application -> Prop) (m : M A)
    (Q Q' : A -> Application -> Prop) :
  completes P m Q → (∀ s, P' s → P s) → (∀ a s, Q a s → Q' a s) →
  completes P' m Q'.
Proof.
  intros Hm Hpre Hpost s Hs.
  destruct (Hm s (Hpre s Hs)) as (a & s' & t & Heq & Hq). eauto 10.
Qed.

(** ** What a rebuild of the swap chain does and leaves alone *)

Section Rebuild.
Context {R : Application -> Application -> Prop}.
Hypothesis R_refl : ∀ s, R s s.
Hypothesis R_trans : ∀ s1 s2 s3, R s1 s2 → R s2 s3 → R s1 s3.
Hypothesis R_idle :
  ∀ s, R s (set_inFlightFences (map idle_fence (inFlightFences s)) s).
Hypothesis R_chain : ∀ h imgs e s, R s (set_swapChain h imgs e s).
Hypothesis R_views : ∀ v s, R s (set_swapChainImageViews v s).

Local Ltac step :=
  first
    [ apply (maintains_bind R_trans); [|intros ?]
    | apply (maintains_emit R_refl); exact I
    | apply (maintains_ret R_refl)
    | apply (maintains_get R_refl)
    | apply maintains_modify
    | apply (maintains_halt R_refl) ].

Lemma waitWhileMinimized_maintains (polls : list (Z * Z * bool)) :
  ∀ w h,
    ((∃ p, p ∈ polls ∧ p.2 = true) →
     ∀ s, R s (onFramebufferWindowResized s)) →
    maintains R rebuild_event rebuild_stop (waitWhileMinimized w h polls).
Proof.
  induction polls as [|[[w' h'] resized] rest IH]; intros w h Hres;
    cbn [waitWhileMinimized].
  - destruct ((w =? 0) || (h =? 0)); step. by left.
  - destruct ((w =? 0) || (h =? 0)); [|step].
    repeat step.
    + destruct resized; [|step]. step. apply Hres.
      exists (w', h', true). split; [left|done].
    + apply IH. intros (p & Hp & Hcb). apply Hres. exists p.
      split; [by right|done].
Qed.

Lemma vkDeviceWaitIdle_maintains :
  maintains R rebuild_event rebuild_stop vkDeviceWaitIdle.
Proof. unfold vkDeviceWaitIdle. repeat step. apply R_idle. Qed.

Lemma destroyImageViews_maintains (views : list handle) :
  maintains R rebuild_event rebuild_stop (destroyImageViews views).
Proof. induction views as [|v rest IH]; simpl; repeat step. done. Qed.

Lemma cleanupSwapChain_maintains :
  maintains R rebuild_event rebuild_stop cleanupSwapChain.
Proof.
  unfold cleanupSwapChain. repeat step. apply destroyImageViews_maintains.
Qed.

Lemma createSwapChain_maintains (env : RecreateEnv) :
  maintains R rebuild_event rebuild_stop (createSwapChain env).
Proof.
  unfold createSwapChain. step; [step|].
  destruct (physicalDevice a); [|step; right; by left].
  cbv zeta. step; [step|].
  destruct (negb (re_createResult env =? VK_SUCCESS)).
  - step; [step; intros s; apply R_chain|].
    unfold throw. step. right; right; by left.
  - step. apply R_chain.
Qed.

Lemma createImageViews_loop_maintains (env : RecreateEnv)
    (images : list handle) :
  ∀ i, maintains R rebuild_event rebuild_stop
         (createImageViews_loop env images i).
Proof.
  induction images as [|img rest IH]; intros i; simpl; [step|].
  destruct (re_createImageView env img) as [result view].
  step; [step|].
  destruct (negb (result =? VK_SUCCESS)).
  - unfold throw. step. right; right; by right.
  - step; [step|apply IH]. intros s. apply R_views.
Qed.

Lemma createImageViews_maintains (env : RecreateEnv) :
  maintains R rebuild_event rebuild_stop (createImageViews env).
Proof.
  unfold createImageViews. step; [step|]. step; [step|].
  - intros s. apply R_views.
  - apply createImageViews_loop_maintains.
Qed.

(** A rebuild announces itself once, then makes only rebuild calls; it
    relates the states by [R] and stops only for its own reasons. *)
Lemma recreateSwapChain_maintains (env : RecreateEnv) (s : Application) :
  ((∃ p, p ∈ re_polls env ∧ p.2 = true) →
   ∀ s, R s (onFramebufferWindowResized s)) →
  ∃ o s' t,
    recreateSwapChain env s = (o, s', EvRecreateSwapChain :: t)
    ∧ R s s' ∧ Forall rebuild_event t
    ∧ ∀ why, o = Stopped why → rebuild_stop why.
Proof.
  intros Hres. unfold recreateSwapChain.
  set (body := bind (emit (EvGetFramebufferSize _ _)) _).
  assert (Hbody : maintains R rebuild_event rebuild_stop body).
  { unfold body. step; [step|]. step.
    { by apply waitWhileMinimized_maintains. }
    step; [apply vkDeviceWaitIdle_maintains|].
    step; [apply cleanupSwapChain_maintains|].
    step; [apply createSwapChain_maintains|].
    step; [apply createImageViews_maintains|]. step. }
  destruct (Hbody s) as (HR & HE & HO).
  unfold bind at 1. simpl.
  destruct (body s) as [[o s'] t]. simpl in *.
  exists o, s', t. done.
Qed.
End Rebuild.

Lemma idle_fence_idempotent (fences : list fence) :
  map idle_fence (map idle_fence fences) = map idle_fence fences.
Proof.
  rewrite map_map. apply map_ext. by intros [].
Qed.

Lemma frame_state_kept_refl (s : Application) : frame_state_kept s s.
Proof. unfold frame_state_kept. auto 10. Qed.

Lemma frame_state_kept_trans (s1 s2 s3 : Application) :
  frame_state_kept s1 s2 → frame_state_kept s2 s3 → frame_state_kept s1 s3.
Proof.
  intros (Hc & Hp & Hg & Hb & Hf) (Hc' & Hp' & Hg' & Hb' & Hf').
  unfold frame_state_kept.
  rewrite Hc', Hp', Hg', Hb'. repeat split; try done.
  destruct Hf as [Hf|Hf], Hf' as [Hf'|Hf']; rewrite Hf', Hf;
    rewrite ?idle_fence_idempotent; auto.
Qed.

(** A rebuild is entered once, makes only rebuild calls, keeps the frame
    index and resets no fence. *)
Lemma recreateSwapChain_frame (env : RecreateEnv) (s : Application) :
  ∃ o s' t,
    recreateSwapChain env s = (o, s', EvRecreateSwapChain :: t)
    ∧ frame_state_kept s s' ∧ Forall rebuild_event t
    ∧ ∀ why, o = Stopped why → rebuild_stop why.
Proof.
  apply (recreateSwapChain_maintains frame_state_kept_refl
           frame_state_kept_trans).
  - intros s0. unfold frame_state_kept. simpl. auto 10.
  - intros h imgs e s0. unfold frame_state_kept. simpl. auto 10.
  - intros v s0. unfold frame_state_kept. simpl. auto 10.
  - intros _ s0. unfold frame_state_kept. simpl. auto 10.
Qed.


(** ** When a rebuild returns *)

Section RebuildReturns.
Context (env : RecreateEnv) (device : PhysicalDevice).

Let selected (s : Application) : Prop := physicalDevice s = Some device.

Lemma waitWhileMinimized_completes (polls : list (Z * Z * bool)) :
  ∀ w h, window_restored w h polls = true →
         completes selected (waitWhileMinimized w h polls)
           (λ _, selected).
Proof.
  induction polls as [|[[w' h'] resized] rest IH]; intros w h Hback;
    cbn [waitWhileMinimized window_restored] in *.
  - destruct ((w =? 0) || (h =? 0)); [done|apply completes_ret].
  - destruct ((w =? 0) || (h =? 0)); [|apply completes_ret].
    eapply completes_bind; [apply completes_emit|intros ?; cbv beta].
    eapply completes_bind; [apply completes_emit|intros ?; cbv beta].
    eapply completes_bind; [|intros ?; cbv beta; by apply IH].
    destruct resized; [|apply completes_ret].
    by apply completes_modify.
Qed.

Lemma vkDeviceWaitIdle_completes :
  completes selected vkDeviceWaitIdle (λ _, selected).
Proof.
  unfold vkDeviceWaitIdle.
  eapply completes_bind; [apply completes_emit|intros ?; cbv beta].
  by apply completes_modify.
Qed.

Lemma destroyImageViews_completes (views : list handle) :
  completes selected (destroyImageViews views) (λ _, selected).
Proof.
  induction views as [|v rest IH]; simpl; [apply completes_ret|].
  eapply completes_bind; [apply completes_emit|by intros ?; cbv beta].
Qed.

Lemma cleanupSwapChain_completes :
  completes selected cleanupSwapChain (λ _, selected).
Proof.
  unfold cleanupSwapChain.
  eapply completes_bind; [apply completes_emit|intros ?; cbv beta].
  eapply completes_bind; [apply completes_get|intros app; cbv beta].
  eapply completes_bind.
  - eapply completes_weaken; [apply destroyImageViews_completes| |].
    + by intros s [_ ?].
    + intros ? s Hs. exact Hs.
  - intros ?. apply completes_emit.
Qed.

Lemma createSwapChain_completes :
  re_createResult env = VK_SUCCESS →
  completes selected (createSwapChain env)
    (λ _ s, swapChainImages s = re_images env).
Proof.
  intros Hok s Hs. unfold createSwapChain, bind, get. simpl.
  rewrite Hs. simpl. rewrite Hok. simpl. eauto.
Qed.

Lemma createImageViews_loop_completes (images : list handle) :
  Forall (λ img, (re_createImageView env img).1 = VK_SUCCESS) images →
  ∀ i, completes (λ _, True) (createImageViews_loop env images i)
         (λ _ _, True).
Proof.
  induction 1 as [|img rest Himg _ IH]; intros i; simpl.
  - intros s _. by exists tt, s, [].
  - destruct (re_createImageView env img) as [result view].
    simpl in Himg. subst result.
    eapply completes_bind; [apply completes_emit|intros ?; cbv beta]. simpl.
    eapply completes_bind; [|intros ?; cbv beta; apply IH].
    by apply completes_modify.
Qed.

Lemma createImageViews_completes :
  Forall (λ img, (re_createImageView env img).1 = VK_SUCCESS)
    (re_images env) →
  completes (λ s, swapChainImages s = re_images env) (createImageViews env)
    (λ _ _, True).
Proof.
  intros Hviews s Hs. unfold createImageViews, bind, get, modify.
  rewrite Hs.
  destruct (createImageViews_loop_completes _ Hviews 0
              (set_swapChainImageViews
                 (resize (length (re_images env)) VK_NULL_HANDLE
                    (swapChainImageViews s)) s) I)
    as (r & s' & t & -> & _).
  eauto.
Qed.
End RebuildReturns.

(** With a window that comes back, a selected device and a driver that
    creates the chain and its views, [recreateSwapChain] returns. *)
Lemma recreateSwapChain_returns (env : RecreateEnv) (s : Application) :
  recreate_completes env s → (recreateSwapChain env s).1.1 = Returned tt.
Proof.
  intros (Hback & [device Hdev] & Hok & Hviews).
  assert (Hrun : completes (λ s, physicalDevice s = Some device)
                   (recreateSwapChain env) (λ _ _, True)).
  { unfold recreateSwapChain.
    eapply completes_bind; [apply completes_emit|intros ?; cbv beta].
    eapply completes_bind; [apply completes_emit|intros ?; cbv beta].
    eapply completes_bind;
      [by apply waitWhileMinimized_completes|intros ?; cbv beta].
    eapply completes_bind; [apply vkDeviceWaitIdle_completes|intros ?; cbv beta].
    eapply completes_bind; [apply cleanupSwapChain_completes|intros ?; cbv beta].
    eapply completes_bind; [by apply createSwapChain_completes|intros ?; cbv beta].
    eapply completes_bind; [by apply createImageViews_completes|intros ?; cbv beta].
    apply (completes_emit (λ _, True)). }
  destruct (Hrun s Hdev) as ([] & s' & t & -> & _). done.
Qed.

(** ** The paths through [drawFrame] *)

Lemma accepted_dec (r : VkResult) :
  r = VK_ERROR_OUT_OF_DATE_KHR
  ∨ unrecognised r = true
  ∨ ((r = VK_SUCCESS ∨ r = VK_SUBOPTIMAL_KHR)
     ∧ (r =? VK_ERROR_OUT_OF_DATE_KHR) = false
     ∧ negb (r =? VK_SUCCESS) && negb (r =? VK_SUBOPTIMAL_KHR) = false).
Proof.
  unfold unrecognised, stale, VK_ERROR_OUT_OF_DATE_KHR, VK_SUCCESS,
    VK_SUBOPTIMAL_KHR.
  destruct (r =? -1000001004) eqn:H1; [left; lia|].
  destruct (r =? 0) eqn:H2; [right; right; simpl; split; [lia|done]|].
  destruct (r =? 1000001003) eqn:H3;
    [right; right; simpl; split; [lia|done]|].
  right; left. done.
Qed.

(** The fence of the slot is missing or cannot be waited for. *)
Lemma drawFrame_not_ready (env : FrameEnv) (a : Application) :
  (∀ f, ¬ fence_ready a f) →
  drawFrame env a = (Stopped Undefined, a, [])
  ∨ drawFrame env a
    = (Stopped (BlockedOnFence (currentFrame a)), a,
       [EvWaitForFences (currentFrame a) FenceUnsignaled]).
Proof.
  intros Hnot. unfold drawFrame.
  generalize (recreateSwapChain (fe_recreate env)). intros rebuild.
  unfold vkWaitForFences, vkResetFences, throw.
  unfold bind, get, emit, modify, halt.
  destruct (inFlightFences a !! Z.to_nat (currentFrame a)) as [[]|] eqn:Hf;
    simpl; auto.
  - destruct (Hnot FenceSignaled). split; auto.
  - destruct (Hnot FencePending). split; auto.
Qed.

Lemma drawFrame_stale_acquire (env : FrameEnv) (a : Application) (f : fence) :
  fence_ready a f → (fe_acquire env).1 = VK_ERROR_OUT_OF_DATE_KHR →
  drawFrame env a
  = let '(o, s, t) := recreateSwapChain (fe_recreate env) (waited a) in
    (o, s, acquire_trace env a f ++ t).
Proof.
  intros [Hf Hready] Hacq. unfold drawFrame, acquire_trace, waited.
  generalize (recreateSwapChain (fe_recreate env)). intros rebuild.
  destruct (fe_acquire env) as [result imageIndex]. simpl in Hacq.
  subst result.
  unfold vkWaitForFences, vkResetFences, throw.
  unfold bind, get, emit, modify, halt. rewrite Hf.
  destruct Hready as [-> | ->]; simpl;
    destruct (rebuild _) as [[o s] t]; done.
Qed.

Lemma drawFrame_acquire_error (env : FrameEnv) (a : Application) (f : fence) :
  fence_ready a f → unrecognised (fe_acquire env).1 = true →
  drawFrame env a
  = (Stopped (Thrown acquire_failed), waited a, acquire_trace env a f).
Proof.
  intros [Hf Hready] Hacq. unfold drawFrame, acquire_trace, waited.
  generalize (recreateSwapChain (fe_recreate env)). intros rebuild.
  destruct (fe_acquire env) as [result imageIndex]. simpl in Hacq.
  unfold unrecognised, stale in Hacq.
  apply andb_true_iff in Hacq as [Hs Hst].
  apply negb_true_iff, orb_false_iff in Hst as [Hood Hsub].
  unfold vkWaitForFences, vkResetFences, throw.
  unfold bind, get, emit, modify, halt. rewrite Hf.
  destruct Hready as [-> | ->]; simpl; rewrite Hood, Hs, Hsub; done.
Qed.

Lemma accepted_tests (r : VkResult) :
  r = VK_SUCCESS ∨ r = VK_SUBOPTIMAL_KHR →
  (r =? VK_ERROR_OUT_OF_DATE_KHR) = false
  ∧ negb (r =? VK_SUCCESS) && negb (r =? VK_SUBOPTIMAL_KHR) = false.
Proof. by intros [-> | ->]. Qed.

Lemma drawFrame_submit_error (env : FrameEnv) (a : Application) (f : fence) :
  fence_ready a f →
  (fe_acquire env).1 = VK_SUCCESS ∨ (fe_acquire env).1 = VK_SUBOPTIMAL_KHR →
  fe_submit env ≠ VK_SUCCESS →
  drawFrame env a
  = (Stopped (Thrown submit_failed), recorded env a, submit_trace env a f).
Proof.
  intros [Hf Hready] Hacq Hsub.
  unfold drawFrame, submit_trace, acquire_trace, recorded, waited.
  generalize (recreateSwapChain (fe_recreate env)). intros rebuild.
  destruct (fe_acquire env) as [result imageIndex]. simpl in Hacq.
  apply accepted_tests in Hacq as [Hood Hbad]. apply Z.eqb_neq in Hsub.
  unfold vkWaitForFences, vkResetFences, throw.
  unfold bind, get, emit, modify, halt. rewrite Hf.
  destruct Hready as [-> | ->]; simpl; rewrite Hood, Hbad, Hsub; done.
Qed.

Lemma drawFrame_present_recreate (env : FrameEnv) (a : Application)
    (f : fence) :
  fence_ready a f →
  (fe_acquire env).1 = VK_SUCCESS ∨ (fe_acquire env).1 = VK_SUBOPTIMAL_KHR →
  fe_submit env = VK_SUCCESS →
  stale (fe_present env) = true ∨ framebufferResized a = true →
  drawFrame env a
  = let '(o, s, t) := recreateSwapChain (fe_recreate env)
                        (set_framebufferResized false (submitted env a)) in
    match o with
    | Returned _ =>
        (Returned tt, set_currentFrame (next_frame s) s,
         present_trace env a f ++ t)
    | Stopped why => (Stopped why, s, present_trace env a f ++ t)
    end.
Proof.
  intros [Hf Hready] Hacq Hsub Hre.
  unfold drawFrame, present_trace, submit_trace, acquire_trace, submitted,
    recorded, waited, next_frame.
  generalize (recreateSwapChain (fe_recreate env)). intros rebuild.
  destruct (fe_acquire env) as [result imageIndex]. simpl in Hacq.
  apply accepted_tests in Hacq as [Hood Hbad]. rewrite Hsub.
  assert (Hcond : (fe_present env =? VK_ERROR_OUT_OF_DATE_KHR)
                  || (fe_present env =? VK_SUBOPTIMAL_KHR)
                  || framebufferResized a = true).
  { destruct Hre as [Hst | ->]; [|apply orb_true_r].
    unfold stale in Hst. by rewrite Hst. }
  unfold vkWaitForFences, vkResetFences, throw.
  unfold bind, get, emit, modify, halt. rewrite Hf.
  destruct Hready as [-> | ->]; simpl; rewrite Hood, Hbad; simpl;
    rewrite Hcond; simpl;
    destruct (rebuild _) as [[[[]|why] s] t]; simpl;
    rewrite ?app_nil_r; done.
Qed.

Lemma drawFrame_present_error (env : FrameEnv) (a : Application) (f : fence) :
  fence_ready a f →
  (fe_acquire env).1 = VK_SUCCESS ∨ (fe_acquire env).1 = VK_SUBOPTIMAL_KHR →
  fe_submit env = VK_SUCCESS →
  unrecognised (fe_present env) = true → framebufferResized a = false →
  drawFrame env a
  = (Stopped (Thrown present_failed), submitted env a, present_trace env a f).
Proof.
  intros [Hf Hready] Hacq Hsub Hbadp Hflag.
  unfold drawFrame, present_trace, submit_trace, acquire_trace, submitted,
    recorded, waited.
  generalize (recreateSwapChain (fe_recreate env)). intros rebuild.
  destruct (fe_acquire env) as [result imageIndex]. simpl in Hacq.
  apply accepted_tests in Hacq as [Hood Hbad]. rewrite Hsub.
  unfold unrecognised, stale in Hbadp.
  apply andb_true_iff in Hbadp as [Hs Hst].
  apply negb_true_iff, orb_false_iff in Hst as [Hoodp Hsubp].
  unfold vkWaitForFences, vkResetFences, throw.
  unfold bind, get, emit, modify, halt. rewrite Hf.
  destruct Hready as [-> | ->]; simpl; rewrite Hood, Hbad; simpl;
    rewrite Hoodp, Hsubp, Hflag, Hs; done.
Qed.

Lemma drawFrame_presented (env : FrameEnv) (a : Application) (f : fence) :
  fence_ready a f →
  (fe_acquire env).1 = VK_SUCCESS ∨ (fe_acquire env).1 = VK_SUBOPTIMAL_KHR →
  fe_submit env = VK_SUCCESS →
  fe_present env = VK_SUCCESS → framebufferResized a = false →
  drawFrame env a
  = (Returned tt, set_currentFrame (next_frame a) (submitted env a),
     present_trace env a f).
Proof.
  intros [Hf Hready] Hacq Hsub Hpres Hflag.
  unfold drawFrame, present_trace, submit_trace, acquire_trace, submitted,
    recorded, waited, next_frame.
  generalize (recreateSwapChain (fe_recreate env)). intros rebuild.
  destruct (fe_acquire env) as [result imageIndex]. simpl in Hacq.
  apply accepted_tests in Hacq as [Hood Hbad]. rewrite Hsub, Hpres.
  unfold vkWaitForFences, vkResetFences, throw.
  unfold bind, get, emit, modify, halt. rewrite Hf.
  destruct Hready as [-> | ->]; simpl; rewrite Hood, Hbad; simpl;
    rewrite Hflag; done.
Qed.

Lemma present_dec (r : VkResult) :
  stale r = true ∨ unrecognised r = true ∨ r = VK_SUCCESS.
Proof.
  unfold unrecognised. destruct (stale r); [by left|right].
  destruct (r =? VK_SUCCESS) eqn:Hs; [right; by apply Z.eqb_eq|by left].
Qed.

(** Every run of [drawFrame] that gets past the fence follows one of the
    paths. *)
Lemma drawFrame_path (env : FrameEnv) (a : Application) (f : fence) :
  fence_ready a f → frame_path env a f (drawFrame env a).
Proof.
  intros Hready.
  destruct (accepted_dec (fe_acquire env).1) as [Hood|[Hbad|(Hacc & _)]].
  - rewrite (drawFrame_stale_acquire env a f) by done.
    destruct (recreateSwapChain _ _) as [[o s] t] eqn:Hre.
    by apply path_stale_acquire.
  - rewrite (drawFrame_acquire_error env a f) by done.
    by apply path_acquire_error.
  - destruct (decide (fe_submit env = VK_SUCCESS)) as [Hsub|Hsub].
    2:{ rewrite (drawFrame_submit_error env a f) by done.
        by apply path_submit_error. }
    destruct (framebufferResized a) eqn:Hflag.
    { rewrite (drawFrame_present_recreate env a f) by auto.
      destruct (recreateSwapChain _ _) as [[[[]|why] s] t] eqn:Hre.
      - apply path_present_recreated; auto.
      - apply path_present_recreate_stopped; auto. }
    destruct (present_dec (fe_present env)) as [Hst|[Hun|Hok]].
    + rewrite (drawFrame_present_recreate env a f) by auto.
      destruct (recreateSwapChain _ _) as [[[[]|why] s] t] eqn:Hre.
      * apply path_present_recreated; auto.
      * apply path_present_recreate_stopped; auto.
    + rewrite (drawFrame_present_error env a f) by done.
      by apply path_present_error.
    + rewrite (drawFrame_presented env a f) by done.
      by apply path_presented.
Qed.

(** ** Counting calls in a trace *)

Lemma count_app (kind : event -> bool) (t1 t2 : list event) :
  count kind (t1 ++ t2) = (count kind t1 + count kind t2)%nat.
Proof. unfold count. by rewrite List.filter_app, length_app. Qed.

Lemma count_rebuild (kind : event -> bool) (t : list event) :
  (∀ e, rebuild_event e → kind e = false) →
  Forall rebuild_event t → count kind t = 0%nat.
Proof.
  intros Hkind. unfold count. induction 1 as [|e t He _ IH]; simpl; [done|].
  by rewrite (Hkind e He).
Qed.

Lemma rebuild_not_recreate e : rebuild_event e → is_recreate e = false.
Proof. by destruct e. Qed.
Lemma rebuild_not_wait e : rebuild_event e → is_wait e = false.
Proof. by destruct e. Qed.
Lemma rebuild_not_reset e : rebuild_event e → is_reset e = false.
Proof. by destruct e. Qed.
Lemma rebuild_not_submit e : rebuild_event e → is_submit e = false.
Proof. by destruct e. Qed.
Lemma rebuild_not_present e : rebuild_event e → is_present e = false.
Proof. by destruct e. Qed.

(** ** Fences of a slot *)

Lemma fence_ready_lt (a : Application) (f : fence) :
  fence_ready a f →
  (Z.to_nat (currentFrame a) < length (inFlightFences a))%nat.
Proof. intros [Hf _]. by eapply lookup_lt_Some. Qed.

Lemma waited_fence (a : Application) (f : fence) :
  fence_ready a f →
  inFlightFences (waited a) !! Z.to_nat (currentFrame a) = Some FenceSignaled.
Proof.
  intros Hready. unfold waited, set_fence. simpl.
  apply list_lookup_insert_eq. by eapply fence_ready_lt.
Qed.

Lemma frame_state_kept_signaled (s s' : Application) (i : nat) :
  frame_state_kept s s' →
  inFlightFences s !! i = Some FenceSignaled →
  inFlightFences s' !! i = Some FenceSignaled.
Proof.
  intros (_ & _ & _ & _ & [-> | ->]) Hf; [done|].
  by rewrite list_lookup_fmap, Hf.
Qed.

(** C1: when image acquisition reports the swap chain out of date,
    [drawFrame] enters [recreateSwapChain] exactly once and makes neither
    the submit nor the present call; the frame index is unchanged and the
    slot's fence is not reset and is left signaled, so the next call of
    [drawFrame] starts again with the same slot. With an environment that
    lets the rebuild go through, the call returns. *)
Theorem drawFrame_acquire_out_of_date :
  ∀ (env : FrameEnv) (a : Application) (f : fence),
    fence_ready a f →
    (fe_acquire env).1 = VK_ERROR_OUT_OF_DATE_KHR →
    ∃ o a' rest,
      drawFrame env a
      = (o, a', acquire_trace env a f ++ EvRecreateSwapChain :: rest)
      ∧ Forall rebuild_event rest
      ∧ count is_recreate (drawFrame env a).2 = 1%nat
      ∧ count is_submit (drawFrame env a).2 = 0%nat
      ∧ count is_present (drawFrame env a).2 = 0%nat
      ∧ count is_reset (drawFrame env a).2 = 0%nat
      ∧ currentFrame a' = currentFrame a
      ∧ inFlightFences a' !! Z.to_nat (currentFrame a) = Some FenceSignaled
      ∧ (recreate_completes (fe_recreate env) a → o = Returned tt)
      ∧ ∀ next : FrameEnv,
          ∃ o2 a2 t2,
            drawFrame next a'
            = (o2, a2,
               EvWaitForFences (currentFrame a) FenceSignaled
               :: EvAcquireNextImage (currentFrame a) (fe_acquire next).1
                    (fe_acquire next).2
               :: t2).
Proof.
  intros env a f Hready Hood.
  rewrite (drawFrame_stale_acquire env a f) by done.
  destruct (recreateSwapChain_frame (fe_recreate env) (waited a))
    as (o & a' & rest & Hre & Hkept & Hrest & Hstop).
  pose proof (recreateSwapChain_returns (fe_recreate env) (waited a)) as Hret.
  rewrite Hre in *. simpl in Hret.
  exists o, a', rest. split; [done|]. split; [done|].
  assert (Hsig : inFlightFences a' !! Z.to_nat (currentFrame a)
                 = Some FenceSignaled).
  { eapply frame_state_kept_signaled; [done|]. by eapply waited_fence. }
  destruct Hkept as (Hcur & _). simpl in Hcur.
  cbn [snd]. rewrite !count_app.
  change (EvRecreateSwapChain :: rest) with ([EvRecreateSwapChain] ++ rest).
  rewrite !count_app.
  rewrite (count_rebuild is_recreate rest rebuild_not_recreate Hrest).
  rewrite (count_rebuild is_submit rest rebuild_not_submit Hrest).
  rewrite (count_rebuild is_present rest rebuild_not_present Hrest).
  rewrite (count_rebuild is_reset rest rebuild_not_reset Hrest).
  do 6 (split; [done|]). split; [exact Hret|].
  intros next.
  assert (Hready' : fence_ready a' FenceSignaled).
  { split; [by rewrite Hcur|by left]. }
  pose proof (drawFrame_path next a' FenceSignaled Hready') as Hpath.
  destruct (drawFrame next a') as [[o2 a2] t2].
  inversion Hpath; subst;
    unfold present_trace, submit_trace, acquire_trace;
    rewrite Hcur; simpl; eauto.
Qed.

(** The frame of the model scenario, with the chain out of date. *)
Lemma drawFrame_acquire_out_of_date_witness :
  count is_recreate
    (drawFrame (ex_frame VK_ERROR_OUT_OF_DATE_KHR VK_SUCCESS VK_SUCCESS
                  ex_recreate) ex_app).2 = 1%nat
  ∧ currentFrame
      (drawFrame (ex_frame VK_ERROR_OUT_OF_DATE_KHR VK_SUCCESS VK_SUCCESS
                    ex_recreate) ex_app).1.2 = 0.
Proof.
  destruct (drawFrame_acquire_out_of_date
              (ex_frame VK_ERROR_OUT_OF_DATE_KHR VK_SUCCESS VK_SUCCESS
                 ex_recreate) ex_app FenceSignaled)
    as (o & a' & rest & Hrun & _ & Hcount & _ & _ & _ & Hcur & _).
  - split; [reflexivity|by left].
  - reflexivity.
  - split; [exact Hcount|]. rewrite Hrun. exact Hcur.
Defined.




(** C10: a suboptimal answer of the acquire call is taken as a success.
    [drawFrame] goes on to reset the fence, collect the command buffers
    and submit, without entering [recreateSwapChain] before; after a
    successful submit it presents, and a rebuild then happens exactly when
    the present call reports staleness or the resize flag is set. Outcome
    and final state are those of the same frame with a successful
    acquire. *)
Theorem drawFrame_acquire_suboptimal :
  ∀ (env : FrameEnv) (a : Application) (f : fence),
    fence_ready a f →
    (fe_acquire env).1 = VK_SUBOPTIMAL_KHR →
    ∃ o a' rest,
      drawFrame env a = (o, a', submit_trace env a f ++ rest)
      ∧ count is_recreate (submit_trace env a f) = 0%nat
      ∧ count is_reset (submit_trace env a f) = 1%nat
      ∧ count is_submit (submit_trace env a f) = 1%nat
      ∧ (fe_submit env ≠ VK_SUCCESS →
         rest = [] ∧ o = Stopped (Thrown submit_failed))
      ∧ (fe_submit env = VK_SUCCESS →
         ∃ rest',
           rest = EvQueuePresent (currentFrame a) (fe_acquire env).2
                    (fe_present env) :: rest'
           ∧ count is_recreate rest'
             = (if stale (fe_present env) || framebufferResized a
                then 1 else 0)%nat)
      ∧ (fe_submit env = VK_SUCCESS → fe_present env = VK_SUCCESS →
         framebufferResized a = false →
         o = Returned tt ∧ currentFrame a' = next_frame a)
      ∧ (drawFrame env a).1
        = (drawFrame (with_acquire_result VK_SUCCESS env) a).1.
Proof.
  intros env a f Hready Hsubopt.
  assert (Hacc : (fe_acquire env).1 = VK_SUCCESS
                 ∨ (fe_acquire env).1 = VK_SUBOPTIMAL_KHR) by by right.
  assert (Hacc' : (fe_acquire (with_acquire_result VK_SUCCESS env)).1
                  = VK_SUCCESS
                  ∨ (fe_acquire (with_acquire_result VK_SUCCESS env)).1
                    = VK_SUBOPTIMAL_KHR) by by left.
  destruct (decide (fe_submit env = VK_SUCCESS)) as [Hsub|Hsub].
  2:{ rewrite (drawFrame_submit_error env a f) by done.
      rewrite (drawFrame_submit_error (with_acquire_result _ env) a f)
        by done.
      eexists _, _, []. rewrite app_nil_r. split; [done|].
      repeat split; try done. }
  destruct (stale (fe_present env) || framebufferResized a) eqn:Hre.
  - (* staleness from the present call, or the resize flag *)
    apply orb_true_iff in Hre.
    rewrite (drawFrame_present_recreate env a f) by done.
    rewrite (drawFrame_present_recreate (with_acquire_result _ env) a f)
      by done.
    change (submitted (with_acquire_result VK_SUCCESS env) a)
      with (submitted env a).
    change (fe_recreate (with_acquire_result VK_SUCCESS env))
      with (fe_recreate env).
    destruct (recreateSwapChain_frame (fe_recreate env)
                (set_framebufferResized false (submitted env a)))
      as (o & s & rest & -> & _ & Hrest & _).
    assert (Hone : count is_recreate (EvRecreateSwapChain :: rest) = 1%nat).
    { change (EvRecreateSwapChain :: rest)
        with ([EvRecreateSwapChain] ++ rest).
      rewrite count_app.
      by rewrite (count_rebuild is_recreate rest rebuild_not_recreate Hrest). }
    unfold present_trace. rewrite <- !app_assoc. simpl.
    destruct o as [[]|why]; eexists _, _, _; (split; [reflexivity|]);
      (do 3 (split; [done|])); (split; [done|]);
      (split; [intros _; eexists; split; [reflexivity|done]|]);
      (split; [|done]); intros _ Hp Hflag; rewrite Hp, Hflag in Hre;
      by destruct Hre.
  - apply orb_false_iff in Hre as [Hst Hflag].
    destruct (present_dec (fe_present env)) as [Hst'|[Hun|Hok]];
      [congruence| |].
    + (* an unrecognised answer of the present call *)
      rewrite (drawFrame_present_error env a f) by done.
      rewrite (drawFrame_present_error (with_acquire_result _ env) a f)
        by done.
      unfold present_trace. eexists _, _, _. split; [reflexivity|].
      do 3 (split; [done|]). split; [done|].
      split; [intros _; eexists; split; [reflexivity|done]|].
      split; [|done]. intros _ Hp _. rewrite Hp in Hun. discriminate.
    + (* the frame is presented *)
      rewrite (drawFrame_presented env a f) by done.
      rewrite (drawFrame_presented (with_acquire_result _ env) a f) by done.
      unfold present_trace. eexists _, _, _. split; [reflexivity|].
      do 3 (split; [done|]). split; [done|].
      split; [intros _; eexists; split; [reflexivity|done]|].
      split; [|done]. intros _ _ _. done.
Qed.

(** A frame acquired as suboptimal and presented without complaint. *)
Lemma drawFrame_acquire_suboptimal_witness :
  (drawFrame (ex_frame VK_SUBOPTIMAL_KHR VK_SUCCESS VK_SUCCESS ex_recreate)
     ex_app).1.1 = Returned tt
  ∧ count is_recreate
      (drawFrame (ex_frame VK_SUBOPTIMAL_KHR VK_SUCCESS VK_SUCCESS
                    ex_recreate) ex_app).2 = 0%nat.
Proof.
  destruct (drawFrame_acquire_suboptimal
              (ex_frame VK_SUBOPTIMAL_KHR VK_SUCCESS VK_SUCCESS ex_recreate)
              ex_app FenceSignaled)
    as (o & a' & rest & Hrun & Hnone & _ & _ & _ & Hpres & Hdone & _).
  - split; [reflexivity|by left].
  - reflexivity.
  - rewrite Hrun. destruct (Hdone eq_refl eq_refl eq_refl) as [-> _].
    split; [reflexivity|].
    destruct (Hpres eq_refl) as (rest' & -> & Hcount).
    cbn [snd]. rewrite count_app, Hnone.
    change (count is_recreate rest' = 0%nat). exact Hcount.
Defined.

(** ** Result codes in the trace of a frame *)

Lemma existsb_rebuild (p : event -> bool) (t : list event) :
  (∀ e, rebuild_event e → p e = false) →
  Forall rebuild_event t → existsb p t = false.
Proof.
  intros Hp. induction 1 as [|e t He _ IH]; simpl; [done|].
  by rewrite (Hp e He), IH.
Qed.

Lemma rebuild_stop_not_own (why : stop) :
  rebuild_stop why → ¬ raises_own_error (Stopped why).
Proof.
  intros [-> | [-> | [-> | ->]]] [H | [H | H]]; discriminate.
Qed.

Lemma accepted_codes (r : VkResult) :
  r = VK_SUCCESS ∨ r = VK_SUBOPTIMAL_KHR →
  unrecognised r = false ∧ (r =? VK_ERROR_OUT_OF_DATE_KHR) = false.
Proof. by intros [-> | ->]. Qed.

Lemma stale_recognised (r : VkResult) :
  stale r = true → unrecognised r = false.
Proof. unfold unrecognised. intros ->. apply andb_false_r. Qed.

Lemma unrecognised_not_stale (r : VkResult) :
  unrecognised r = true → stale r = false.
Proof.
  unfold unrecognised. intros H. apply andb_true_iff in H as [_ H].
  by apply negb_true_iff.
Qed.

Lemma rebuild_no_acquire_code e :
  rebuild_event e → acquire_code_unrecognised e = false.
Proof. by destruct e. Qed.
Lemma rebuild_no_submit_code e :
  rebuild_event e → submit_code_unsuccessful e = false.
Proof. by destruct e. Qed.
Lemma rebuild_no_present_code e :
  rebuild_event e → present_code_unrecognised e = false.
Proof. by destruct e. Qed.
Lemma rebuild_no_staleness_code e :
  rebuild_event e → staleness_code e = false.
Proof. by destruct e. Qed.

(** The four code tests on the trace of a frame, reduced to tests on the
    answers of the environment. *)
Ltac trace_codes Hrest :=
  unfold acquire_unrecognised, submit_unsuccessful, present_unrecognised,
    staleness_reported, present_trace, submit_trace, acquire_trace;
  rewrite ?existsb_app; cbn [existsb];
  rewrite ?(existsb_rebuild _ _ rebuild_no_acquire_code Hrest),
    ?(existsb_rebuild _ _ rebuild_no_submit_code Hrest),
    ?(existsb_rebuild _ _ rebuild_no_present_code Hrest),
    ?(existsb_rebuild _ _ rebuild_no_staleness_code Hrest);
  cbn [acquire_code_unrecognised submit_code_unsuccessful
       present_code_unrecognised staleness_code orb];
  rewrite ?orb_false_r.

Lemma fence_ready_or_not (a : Application) :
  (∃ f, fence_ready a f) ∨ (∀ f, ¬ fence_ready a f).
Proof.
  unfold fence_ready.
  destruct (inFlightFences a !! Z.to_nat (currentFrame a)) as [[]|];
    try (right; intros f [[= <-] [?|?]]; done);
    try (right; intros f [? _]; done); left; eauto.
Qed.

(** A rebuild started from [start], with its entry event split off. *)
Lemma recreateSwapChain_split (env : RecreateEnv) (start : Application)
    (o : outcome unit) (s : Application) (t : list event) :
  recreateSwapChain env start = (o, s, t) →
  ∃ rest, t = EvRecreateSwapChain :: rest ∧ Forall rebuild_event rest
          ∧ frame_state_kept start s
          ∧ ∀ why, o = Stopped why → rebuild_stop why.
Proof.
  intros Hrun.
  destruct (recreateSwapChain_frame env start)
    as (o' & s' & rest & Hrun' & Hkept & Hrest & Hstop).
  rewrite Hrun in Hrun'. injection Hrun' as -> -> ->. eauto.
Qed.


Lemma filter_recreate_rebuild (rest : list event) :
  Forall rebuild_event rest → List.filter is_recreate rest = [].
Proof.
  induction 1 as [|e t He _ IH]; simpl; [done|].
  by rewrite (rebuild_not_recreate e He).
Qed.

(** The number of rebuilds entered in the trace of a frame. *)
Ltac trace_rebuilds Hrest :=
  unfold count, present_trace, submit_trace, acquire_trace;
  cbn [app List.filter is_recreate];
  rewrite ?(filter_recreate_rebuild _ Hrest); cbn [length].

(** ** Refusals of the driver during a rebuild *)

Section Refusals.
Context {kind : event -> bool} {e : exn}.

Lemma raises_on_silent {A} (m : M A) :
  (∀ s, (m s).2 = []) → raises_on kind e m.
Proof. intros Hm s. by rewrite Hm. Qed.

Lemma raises_on_emit (ev : event) :
  kind ev = false → raises_on kind e (emit ev).
Proof. intros Hev s. simpl. by rewrite Hev. Qed.

Lemma raises_on_bind {A B} (m : M A) (k : A -> M B) :
  raises_on kind e m → (∀ a, raises_on kind e (k a)) →
  raises_on kind e (bind m k).
Proof.
  intros Hm Hk s. unfold bind. specialize (Hm s).
  destruct (m s) as [[[a|why] s1] t1]; simpl in *;
    [|intros H; specialize (Hm H); by injection Hm as ->].
  specialize (Hk a s1). destruct (k a s1) as [[o s2] t2]; simpl in *.
  rewrite existsb_app. intros [H|H]%orb_true_iff; [|by apply Hk].
  by specialize (Hm H).
Qed.
End Refusals.

Ltac raises_step :=
  first
    [ apply raises_on_bind; [|intros ?]
    | apply raises_on_silent; intros ?; reflexivity
    | apply raises_on_emit; reflexivity ].

Lemma waitWhileMinimized_raises_on (kind : event -> bool) (e : exn)
    (polls : list (Z * Z * bool)) :
  (∀ w h, kind (EvGetFramebufferSize w h) = false) →
  kind EvWaitEvents = false →
  ∀ w h, raises_on kind e (waitWhileMinimized w h polls).
Proof.
  intros Hsize Hwait.
  induction polls as [|[[w' h'] resized] rest IH]; intros w h;
    cbn [waitWhileMinimized].
  - destruct ((w =? 0) || (h =? 0)); raises_step.
  - destruct ((w =? 0) || (h =? 0)); [|raises_step].
    raises_step; [by apply raises_on_emit|].
    raises_step; [by apply raises_on_emit|].
    raises_step; [destruct resized; raises_step|apply IH].
Qed.

Lemma destroyImageViews_raises_on (kind : event -> bool) (e : exn)
    (views : list handle) :
  (∀ v, kind (EvDestroyImageView v) = false) →
  raises_on kind e (destroyImageViews views).
Proof.
  intros Hview. induction views as [|v rest IH]; simpl; [raises_step|].
  raises_step; [by apply raises_on_emit|done].
Qed.

Lemma createSwapChain_raises_on_refusal (env : RecreateEnv) :
  raises_on swapchain_refusal swapchain_failed (createSwapChain env).
Proof.
  intros s. unfold createSwapChain, bind, get, emit, modify, throw, halt.
  destruct (physicalDevice s); [|done]. cbv zeta. simpl.
  destruct (negb (re_createResult env =? VK_SUCCESS)) eqn:Hres;
    cbn [fst snd existsb swapchain_refusal]; by rewrite Hres.
Qed.

Lemma createSwapChain_no_view_refusal (env : RecreateEnv) (e : exn) :
  raises_on imageview_refusal e (createSwapChain env).
Proof.
  intros s. unfold createSwapChain, bind, get, emit, modify, throw, halt.
  destruct (physicalDevice s); [|done]. cbv zeta. simpl.
  by destruct (negb (re_createResult env =? VK_SUCCESS)).
Qed.

Lemma createImageViews_loop_raises_on_refusal (env : RecreateEnv)
    (images : list handle) :
  ∀ i, raises_on imageview_refusal imageview_failed
         (createImageViews_loop env images i).
Proof.
  induction images as [|img rest IH]; intros i; simpl; [raises_step|].
  destruct (re_createImageView env img) as [result view].
  destruct (negb (result =? VK_SUCCESS)) eqn:Hres.
  - intros s _. reflexivity.
  - raises_step; [apply raises_on_emit; exact Hres|].
    raises_step; [raises_step|apply IH].
Qed.

Lemma createImageViews_loop_no_chain_refusal (env : RecreateEnv) (e : exn)
    (images : list handle) :
  ∀ i, raises_on swapchain_refusal e (createImageViews_loop env images i).
Proof.
  induction images as [|img rest IH]; intros i; simpl; [raises_step|].
  destruct (re_createImageView env img) as [result view].
  raises_step; [raises_step|].
  destruct (negb (result =? VK_SUCCESS)); [raises_step|].
  raises_step; [raises_step|apply IH].
Qed.

(** A rebuild in which the driver refuses the swap chain, or an image
    view, ends with the error of that refusal. *)
Lemma recreateSwapChain_raises_on_refusal (env : RecreateEnv) :
  raises_on swapchain_refusal swapchain_failed (recreateSwapChain env)
  ∧ raises_on imageview_refusal imageview_failed (recreateSwapChain env).
Proof.
  unfold recreateSwapChain, vkDeviceWaitIdle, cleanupSwapChain,
    createImageViews.
  split.
  - do 2 (raises_step; [raises_step|]).
    raises_step; [by apply waitWhileMinimized_raises_on|].
    raises_step; [by repeat raises_step|].
    raises_step.
    { repeat raises_step. by apply destroyImageViews_raises_on. }
    raises_step; [apply createSwapChain_raises_on_refusal|].
    raises_step; [|raises_step].
    do 2 (raises_step; [raises_step|]).
    apply createImageViews_loop_no_chain_refusal.
  - do 2 (raises_step; [raises_step|]).
    raises_step; [by apply waitWhileMinimized_raises_on|].
    raises_step; [by repeat raises_step|].
    raises_step.
    { repeat raises_step. by apply destroyImageViews_raises_on. }
    raises_step; [apply createSwapChain_no_view_refusal|].
    raises_step; [|raises_step].
    do 2 (raises_step; [raises_step|]).
    apply createImageViews_loop_raises_on_refusal.
Qed.

(** The only refusals seen along a frame are those of its rebuild, and
    their error leaves [drawFrame]. *)
Lemma drawFrame_raises_on_refusal (env : FrameEnv) :
  raises_on swapchain_refusal swapchain_failed (drawFrame env)
  ∧ raises_on imageview_refusal imageview_failed (drawFrame env).
Proof.
  destruct (recreateSwapChain_raises_on_refusal (fe_recreate env))
    as [Hchain Hview].
  assert (Hwait : ∀ (kind : event -> bool) (e : exn) slot,
             (∀ f, kind (EvWaitForFences slot f) = false) →
             raises_on kind e (vkWaitForFences slot)).
  { intros kind e slot Hk. unfold vkWaitForFences.
    raises_step; [raises_step|].
    destruct (inFlightFences a !! Z.to_nat slot) as [[]|];
      repeat raises_step; by apply raises_on_emit. }
  unfold drawFrame, vkResetFences.
  destruct (fe_acquire env) as [result imageIndex].
  split.
  - raises_step; [raises_step|]. cbv zeta.
    raises_step; [by apply Hwait|].
    raises_step; [raises_step|].
    destruct (result =? VK_ERROR_OUT_OF_DATE_KHR); [exact Hchain|].
    destruct (negb (result =? VK_SUCCESS) && negb (result =? VK_SUBOPTIMAL_KHR));
      [raises_step|].
    do 5 (raises_step; [by repeat raises_step|]).
    destruct (negb (fe_submit env =? VK_SUCCESS)); [raises_step|].
    do 3 (raises_step; [by repeat raises_step|]).
    raises_step; [|raises_step].
    destruct (orb _ (framebufferResized _)).
    + raises_step; [raises_step|exact Hchain].
    + destruct (negb (fe_present env =? VK_SUCCESS)); raises_step.
  - raises_step; [raises_step|]. cbv zeta.
    raises_step; [by apply Hwait|].
    raises_step; [raises_step|].
    destruct (result =? VK_ERROR_OUT_OF_DATE_KHR); [exact Hview|].
    destruct (negb (result =? VK_SUCCESS) && negb (result =? VK_SUBOPTIMAL_KHR));
      [raises_step|].
    do 5 (raises_step; [by repeat raises_step|]).
    destruct (negb (fe_submit env =? VK_SUCCESS)); [raises_step|].
    do 3 (raises_step; [by repeat raises_step|]).
    raises_step; [|raises_step].
    destruct (orb _ (framebufferResized _)).
    + raises_step; [raises_step|exact Hview].
    + destruct (negb (fe_present env =? VK_SUCCESS)); raises_step.
Qed.

(** C3, as the code has it: [drawFrame] throws one of its own three
    errors only after an unrecognised answer of the acquire or present
    call or an unsuccessful submit; it does throw after every unrecognised
    acquire answer and every unsuccessful submit, and after an
    unrecognised present answer when the resize flag is not set.
    Staleness reported by the acquire or the present call leads to one
    rebuild and to none of the three errors; but when the driver refuses
    the new swap chain or one of its image views during that rebuild, the
    error of the refusal leaves [drawFrame]. *)
Theorem drawFrame_own_errors :
  ∀ (env : FrameEnv) (a : Application),
    let run := drawFrame env a in
    (raises_own_error run.1.1 →
       acquire_unrecognised run.2 || submit_unsuccessful run.2
       || present_unrecognised run.2 = true)
    ∧ (acquire_unrecognised run.2 || submit_unsuccessful run.2 = true →
       raises_own_error run.1.1)
    ∧ (framebufferResized a = false → present_unrecognised run.2 = true →
       raises_own_error run.1.1)
    ∧ (swapchain_refused run.2 = true →
       run.1.1 = Stopped (Thrown swapchain_failed))
    ∧ (imageview_refused run.2 = true →
       run.1.1 = Stopped (Thrown imageview_failed))
    ∧ (staleness_reported run.2 = true →
       count is_recreate run.2 = 1%nat ∧ ¬ raises_own_error run.1.1).
Proof.
  intros env a run. subst run.
  destruct (drawFrame_raises_on_refusal env) as [Hchain Hview].
  specialize (Hchain a). specialize (Hview a).
  cut ((raises_own_error (drawFrame env a).1.1 →
          acquire_unrecognised (drawFrame env a).2
          || submit_unsuccessful (drawFrame env a).2
          || present_unrecognised (drawFrame env a).2 = true)
       ∧ (acquire_unrecognised (drawFrame env a).2
          || submit_unsuccessful (drawFrame env a).2 = true →
          raises_own_error (drawFrame env a).1.1)
       ∧ (framebufferResized a = false →
          present_unrecognised (drawFrame env a).2 = true →
          raises_own_error (drawFrame env a).1.1)
       ∧ (staleness_reported (drawFrame env a).2 = true →
          count is_recreate (drawFrame env a).2 = 1%nat
          ∧ ¬ raises_own_error (drawFrame env a).1.1)).
  { intros (H1 & H2 & H3 & H5). done. }
  clear Hchain Hview.
  destruct (fence_ready_or_not a) as [[f Hready]|Hnot].
  2:{ destruct (drawFrame_not_ready env a Hnot) as [-> | ->];
        cbn [fst snd]; unfold raises_own_error;
        (split; [|split; [|split]]); try done;
        try (intros [?|[?|?]]; done). }
  pose proof (drawFrame_path env a f Hready) as Hpath.
  inversion Hpath as [o s t Hood Hrun Heq | Hbad Heq | Hacc Hsub Heq
                     | s t Hacc Hsub Hre Hrun Heq
                     | why s t Hacc Hsub Hre Hrun Heq
                     | Hacc Hsub Hun Hflag Heq | Hacc Hsub Hok Hflag Heq];
    cbn [fst snd]; clear Hpath Heq.
  - (* the acquire call reports out of date *)
    apply recreateSwapChain_split in Hrun
      as (rest & -> & Hrest & Hkept & Hstop).
    trace_rebuilds Hrest.
    trace_codes Hrest. rewrite Hood. cbn.
    assert (Hown : ¬ raises_own_error o).
    { destruct o as [[]|why]; [by intros [?|[?|?]]|].
      apply rebuild_stop_not_own. by apply Hstop. }
    (split; [|split; [|split]]); try done.
  - (* the acquire call gives an unrecognised answer *)
    trace_codes (Forall_nil rebuild_event). rewrite Hbad.
    apply unrecognised_not_stale in Hbad. unfold stale in Hbad.
    apply orb_false_iff in Hbad as [-> _]. cbn.
    assert (Hown : raises_own_error (Stopped (Thrown acquire_failed)))
      by by left.
    (split; [|split; [|split]]); try done.
  - (* the submit call fails *)
    destruct (accepted_codes _ Hacc) as [Hrec Hnood].
    trace_codes (Forall_nil rebuild_event). rewrite Hrec, Hnood.
    apply Z.eqb_neq in Hsub. rewrite Hsub. cbn.
    assert (Hown : raises_own_error (Stopped (Thrown submit_failed)))
      by (right; by left).
    (split; [|split; [|split]]); try done.
  - (* the frame is presented and the chain rebuilt *)
    destruct (accepted_codes _ Hacc) as [Hrec Hnood].
    apply recreateSwapChain_split in Hrun
      as (rest & -> & Hrest & Hkept & Hstop).
    trace_rebuilds Hrest.
    trace_codes Hrest. rewrite Hrec, Hnood, Hsub. cbn.
    assert (Hown : ¬ raises_own_error (Returned tt)) by by intros [?|[?|?]].
    (split; [|split; [|split]]); try done.
    intros Hflag Hun. destruct Hre as [Hst|Hset]; [|congruence].
    apply stale_recognised in Hst. congruence.
  - (* the frame is presented and the rebuild does not return *)
    destruct (accepted_codes _ Hacc) as [Hrec Hnood].
    apply recreateSwapChain_split in Hrun
      as (rest & -> & Hrest & Hkept & Hstop).
    trace_rebuilds Hrest.
    trace_codes Hrest. rewrite Hrec, Hnood, Hsub. cbn.
    assert (Hown : ¬ raises_own_error (Stopped why)).
    { apply rebuild_stop_not_own. by apply Hstop. }
    (split; [|split; [|split]]); try done.
    intros Hflag Hun. destruct Hre as [Hst|Hset]; [|congruence].
    apply stale_recognised in Hst. congruence.
  - (* the present call gives an unrecognised answer *)
    destruct (accepted_codes _ Hacc) as [Hrec Hnood].
    trace_codes (Forall_nil rebuild_event). rewrite Hrec, Hnood, Hsub, Hun.
    rewrite (unrecognised_not_stale _ Hun). cbn.
    assert (Hown : raises_own_error (Stopped (Thrown present_failed)))
      by (right; by right).
    (split; [|split; [|split]]); try done.
  - (* the frame is presented *)
    destruct (accepted_codes _ Hacc) as [Hrec Hnood].
    trace_codes (Forall_nil rebuild_event). rewrite Hrec, Hnood, Hsub, Hok.
    cbn.
    assert (Hown : ¬ raises_own_error (Returned tt)) by by intros [?|[?|?]].
    (split; [|split; [|split]]); try done.
Qed.

(** A present call that loses the device while the resize flag is not
    set: [drawFrame] throws its present error. *)
Lemma drawFrame_own_errors_witness :
  raises_own_error
    (drawFrame (ex_frame VK_SUCCESS VK_SUCCESS VK_ERROR_DEVICE_LOST
                  ex_recreate) ex_app).1.1.
Proof.
  destruct (drawFrame_own_errors
              (ex_frame VK_SUCCESS VK_SUCCESS VK_ERROR_DEVICE_LOST
                 ex_recreate) ex_app) as (_ & _ & Hpresent & _).
  apply Hpresent; reflexivity.
Defined.

(** C3 as stated fails in both directions. With the resize flag set, a
    present call that loses the device is followed by a rebuild and a
    normal return, not by an error. And after an out-of-date acquire, a
    driver that refuses the new swap chain makes [drawFrame] raise an
    error although acquire, submit and present gave no unrecognised
    answer. *)
Lemma drawFrame_error_claim_counterexample :
  (let run := drawFrame (ex_frame VK_SUCCESS VK_SUCCESS VK_ERROR_DEVICE_LOST
                           ex_recreate)
                (set_framebufferResized true ex_app) in
   present_unrecognised run.2 = true ∧ ¬ raises_error run.1.1)
  ∧ (let run := drawFrame (ex_frame VK_ERROR_OUT_OF_DATE_KHR VK_SUCCESS
                             VK_SUCCESS ex_recreate_refused) ex_app in
     acquire_unrecognised run.2 || submit_unsuccessful run.2
     || present_unrecognised run.2 = false
     ∧ staleness_reported run.2 = true
     ∧ raises_error run.1.1).
Proof.
  split.
  - split; [by vm_compute|]. intros [e He]. vm_compute in He. discriminate.
  - split; [by vm_compute|]. split; [by vm_compute|].
    exists swapchain_failed. by vm_compute.
Qed.

(** ** The fence ring along the main loop *)

Lemma live_idle (f : fence) : live f → live (idle_fence f).
Proof. intros [-> | ->]; by left. Qed.

Lemma ring_ok_ready (a : Application) :
  ring_ok a → ∃ f, fence_ready a f.
Proof.
  intros (Hlen & Hcur & Hlive).
  destruct (lookup_lt_is_Some_2 (inFlightFences a) (Z.to_nat (currentFrame a)))
    as [f Hf].
  { rewrite Hlen. unfold MAX_NB_FRAMES_IN_FLIGHT in *. lia. }
  exists f. split; [done|]. exact (Forall_lookup_1 live _ _ _ Hlive Hf).
Qed.

(** A rebuild keeps the ring in order. *)
Lemma frame_state_kept_ring (s s' : Application) (c : Z) :
  frame_state_kept s s' →
  length (inFlightFences s) = Z.to_nat MAX_NB_FRAMES_IN_FLIGHT →
  Forall live (inFlightFences s) →
  length (inFlightFences s') = Z.to_nat MAX_NB_FRAMES_IN_FLIGHT
  ∧ Forall live (inFlightFences s').
Proof.
  intros (_ & _ & _ & _ & [-> | ->]) Hlen Hlive; [done|].
  split; [by rewrite length_map|].
  apply Forall_fmap. eapply Forall_impl; [done|]. apply live_idle.
Qed.

Lemma set_fence_ring (slot : Z) (f : fence) (a : Application) :
  live f →
  length (inFlightFences a) = Z.to_nat MAX_NB_FRAMES_IN_FLIGHT →
  Forall live (inFlightFences a) →
  length (inFlightFences (set_fence slot f a))
  = Z.to_nat MAX_NB_FRAMES_IN_FLIGHT
  ∧ Forall live (inFlightFences (set_fence slot f a)).
Proof.
  intros Hf Hlen Hlive. unfold set_fence. simpl.
  split; [by rewrite length_insert|by apply Forall_insert].
Qed.

Lemma submitted_fences (env : FrameEnv) (a : Application) :
  inFlightFences (submitted env a)
  = <[Z.to_nat (currentFrame a) := FencePending]> (inFlightFences a).
Proof.
  unfold submitted, recorded, waited, set_fence. simpl.
  by rewrite !list_insert_insert_eq.
Qed.

Lemma next_frame_in_ring (a : Application) :
  0 ≤ next_frame a < MAX_NB_FRAMES_IN_FLIGHT.
Proof. unfold next_frame, MAX_NB_FRAMES_IN_FLIGHT. apply Z.mod_pos_bound. lia. Qed.

Lemma rebuild_keeps_resets (t : list event) :
  Forall rebuild_event t → resets_followed_by_submit t = true.
Proof. induction 1 as [|e t He _ IH]; simpl; [done|]. by destruct e. Qed.

Lemma rebuild_submits_succeed (t : list event) :
  Forall rebuild_event t → submits_succeed t = true.
Proof. induction 1 as [|e t He _ IH]; simpl; [done|]. by destruct e. Qed.

Lemma rebuild_no_wait (t : list event) :
  Forall rebuild_event t → Forall (λ e, is_wait e = false) t.
Proof.
  intros Hrest. eapply Forall_impl; [exact Hrest|].
  intros e. apply rebuild_not_wait.
Qed.

(** What one frame does to the ring. *)
Lemma drawFrame_ring (env : FrameEnv) (a : Application) :
  ring_ok a →
  ∃ f rest,
    live f
    ∧ inFlightFences a !! Z.to_nat (currentFrame a) = Some f
    ∧ (drawFrame env a).2 = EvWaitForFences (currentFrame a) f :: rest
    ∧ Forall (λ e, is_wait e = false) rest
    ∧ resets_followed_by_submit (drawFrame env a).2 = true
    ∧ (∀ slot, (drawFrame env a).1.1 ≠ Stopped (BlockedOnFence slot))
    ∧ ((drawFrame env a).1.1 = Returned tt →
       ring_ok (drawFrame env a).1.2
       ∧ submits_succeed (drawFrame env a).2 = true
       ∧ ∀ i, i ≠ Z.to_nat (currentFrame a) →
              inFlightFences a !! i = Some FenceSignaled →
              inFlightFences (drawFrame env a).1.2 !! i = Some FenceSignaled).
Proof.
  intros Hring. destruct (ring_ok_ready a Hring) as [f Hready].
  destruct Hring as (Hlen & Hcur & Hlive).
  pose proof Hready as [Hf Hlivef].
  pose proof (drawFrame_path env a f Hready) as Hpath.
  exists f.
  inversion Hpath as [o s t Hood Hrun Heq | Hbad Heq | Hacc Hsub Heq
                     | s t Hacc Hsub Hre Hrun Heq
                     | why s t Hacc Hsub Hre Hrun Heq
                     | Hacc Hsub Hun Hflag Heq | Hacc Hsub Hok Hflag Heq];
    cbn [fst snd]; clear Hpath Heq.
  - (* the acquire call reports out of date *)
    apply recreateSwapChain_split in Hrun
      as (rest & -> & Hrest & Hkept & Hstop).
    eexists. split; [done|]. split; [done|]. split; [reflexivity|].
    split; [repeat constructor; by apply rebuild_no_wait|].
    split; [cbn; by apply rebuild_keeps_resets|].
    split.
    { intros slot ->. by destruct (Hstop _ eq_refl) as [?|[?|[?|?]]]. }
    intros _.
    destruct (set_fence_ring (currentFrame a) FenceSignaled a)
      as [Hlen' Hlive']; [by left|done|done|].
    destruct (frame_state_kept_ring _ _ 0 Hkept Hlen' Hlive').
    pose proof Hkept as (Hc & _). simpl in Hc.
    split; [split; [done|split; [by rewrite Hc|done]]|].
    split; [cbn; by apply rebuild_submits_succeed|].
    intros i Hi Hsig. eapply frame_state_kept_signaled; [done|].
    unfold waited, set_fence. simpl. by rewrite list_lookup_insert_ne.
  - (* the acquire call gives an unrecognised answer *)
    eexists. split; [done|]. split; [done|]. split; [reflexivity|].
    split; [by repeat constructor|]. split; [done|]. split; done.
  - (* the submit call fails *)
    eexists. split; [done|]. split; [done|]. split; [reflexivity|].
    split; [by repeat constructor|].
    split; [cbn; by rewrite Z.eqb_refl, orb_true_r|]. split; done.
  - (* the frame is presented and the chain rebuilt *)
    apply recreateSwapChain_split in Hrun
      as (rest & -> & Hrest & Hkept & Hstop).
    eexists. split; [done|]. split; [done|]. split; [reflexivity|].
    split; [repeat constructor; by apply rebuild_no_wait|].
    split; [cbn; rewrite Z.eqb_refl, Hsub; by apply rebuild_keeps_resets|].
    split; [done|]. intros _.
    assert (Hsub' : inFlightFences
                      (set_framebufferResized false (submitted env a))
                    = <[Z.to_nat (currentFrame a) := FencePending]>
                        (inFlightFences a)) by apply submitted_fences.
    destruct (frame_state_kept_ring _ _ 0 Hkept) as [Hlen' Hlive'].
    { by rewrite Hsub', length_insert. }
    { rewrite Hsub'. apply Forall_insert; [done|by right]. }
    split; [split; [done|split; [apply next_frame_in_ring|done]]|].
    split; [cbn; rewrite Hsub; by apply rebuild_submits_succeed|].
    intros i Hi Hsig. simpl.
    eapply frame_state_kept_signaled; [done|].
    by rewrite Hsub', list_lookup_insert_ne.
  - (* the frame is presented and the rebuild does not return *)
    apply recreateSwapChain_split in Hrun
      as (rest & -> & Hrest & Hkept & Hstop).
    eexists. split; [done|]. split; [done|]. split; [reflexivity|].
    split; [repeat constructor; by apply rebuild_no_wait|].
    split; [cbn; rewrite Z.eqb_refl, Hsub; by apply rebuild_keeps_resets|].
    split; [|done].
    intros slot [= ->]. by destruct (Hstop _ eq_refl) as [?|[?|[?|?]]].
  - (* the present call gives an unrecognised answer *)
    eexists. split; [done|]. split; [done|]. split; [reflexivity|].
    split; [by repeat constructor|].
    split; [cbn; by rewrite Z.eqb_refl, Hsub|]. split; done.
  - (* the frame is presented *)
    eexists. split; [done|]. split; [done|]. split; [reflexivity|].
    split; [by repeat constructor|].
    split; [cbn; by rewrite Z.eqb_refl, Hsub|]. split; [done|]. intros _.
    unfold ring_ok. cbn [inFlightFences currentFrame set_currentFrame].
    rewrite submitted_fences.
    split; [|split].
    + split; [by rewrite length_insert|].
      split; [apply next_frame_in_ring|].
      apply Forall_insert; [done|by right].
    + cbn. by rewrite Hsub.
    + intros i Hi Hsig. by rewrite list_lookup_insert_ne.
Qed.

Lemma mainLoop_cons (it : IterationEnv) (rest : list IterationEnv)
    (a : Application) :
  mainLoop (it :: rest) a
  = match (if 0 <? it_nbCommandBuffers it
           then drawFrame (it_frame it) else ret tt) (prepare it a) with
    | (Returned _, a2, t) =>
        match mainLoop rest a2 with
        | (o, a3, t') => (o, a3, EvPollEvents :: t ++ t')
        end
    | (Stopped why, a2, t) => (Stopped why, a2, EvPollEvents :: t)
    end.
Proof.
  cbn [mainLoop]. unfold prepare.
  generalize (mainLoop rest). intros continue.
  generalize (if 0 <? it_nbCommandBuffers it
              then drawFrame (it_frame it) else ret tt). intros frame.
  unfold bind, emit, get, modify, ret, onFramebufferWindowResized.
  destruct (it_resized it); simpl;
    destruct (negb (it_nbCommandBuffers it =? _)); simpl;
    destruct (frame _) as [[[[]|why] a2] t]; simpl; try done;
    destruct (continue a2) as [[o a3] t']; done.
Qed.

Lemma prepare_ring (it : IterationEnv) (a : Application) :
  inFlightFences (prepare it a) = inFlightFences a
  ∧ currentFrame (prepare it a) = currentFrame a.
Proof.
  unfold prepare, onFramebufferWindowResized.
  destruct (it_resized it); simpl; destruct (negb _); done.
Qed.

Lemma first_wait_app (slot : Z) (t1 t2 : list event) :
  first_wait slot (t1 ++ t2)
  = match first_wait slot t1 with
    | Some f => Some f
    | None => first_wait slot t2
    end.
Proof.
  induction t1 as [|e t1 IH]; simpl; [done|].
  destruct e; try done. by destruct (slot0 =? slot).
Qed.

Lemma first_wait_no_wait (slot : Z) (t : list event) :
  Forall (λ e, is_wait e = false) t → first_wait slot t = None.
Proof. induction 1 as [|e t He _ IH]; simpl; [done|]. by destruct e. Qed.

Lemma resets_followed_by_submit_app (t1 t2 : list event) :
  resets_followed_by_submit t1 = true →
  submits_succeed t1 = true →
  resets_followed_by_submit t2 = true →
  resets_followed_by_submit (t1 ++ t2) = true.
Proof.
  intros H1 Hs H2. induction t1 as [|e t1 IH]; [done|].
  destruct e; try (simpl in *; by apply IH).
  - cbn [resets_followed_by_submit] in H1.
    destruct t1 as [|[] [|[] after]]; try discriminate.
    apply andb_true_iff in H1 as [H1 Hrest].
    apply andb_true_iff in H1 as [Hsame _].
    pose proof Hs as Hs'. simpl in Hs'.
    apply andb_true_iff in Hs' as [Hok _].
    specialize (IH Hrest Hs).
    rewrite <- !app_comm_cons in *.
    cbn [resets_followed_by_submit]. rewrite Hsame, Hok. simpl.
    simpl in IH. exact IH.
  - simpl in Hs. apply andb_true_iff in Hs as [_ Hs].
    simpl in *. by apply IH.
Qed.

(** Along the main loop, started with the ring in order: no wait is on a
    dead fence, every reset is followed by the submit of its slot, and the
    first wait on a slot whose fence is still signaled finds it so. *)
Lemma mainLoop_ring (script : list IterationEnv) :
  ∀ a, ring_ok a →
    (∀ slot, (mainLoop script a).1.1 ≠ Stopped (BlockedOnFence slot))
    ∧ no_dead_wait (mainLoop script a).2
    ∧ resets_followed_by_submit (mainLoop script a).2 = true
    ∧ ∀ slot, 0 ≤ slot < MAX_NB_FRAMES_IN_FLIGHT →
        inFlightFences a !! Z.to_nat slot = Some FenceSignaled →
        first_wait slot (mainLoop script a).2 = None
        ∨ first_wait slot (mainLoop script a).2 = Some FenceSignaled.
Proof.
  induction script as [|it rest IH]; intros a Hring.
  - simpl. split; [done|]. split; [by repeat constructor|]. auto.
  - rewrite mainLoop_cons.
    destruct (prepare_ring it a) as [Hfences Hcur].
    assert (Hring1 : ring_ok (prepare it a)).
    { unfold ring_ok. by rewrite Hfences, Hcur. }
    destruct (0 <? it_nbCommandBuffers it).
    2:{ unfold ret. destruct (IH _ Hring1) as (Hb & Hd & Hr & Hw).
        destruct (mainLoop rest (prepare it a)) as [[o a3] t'].
        cbn [fst snd] in *. split; [done|].
        split; [by constructor|]. split; [done|].
        intros slot Hslot Hsig. simpl. apply Hw; [done|].
        by rewrite Hfences. }
    destruct (drawFrame_ring (it_frame it) (prepare it a) Hring1)
      as (f & tail & Hlive & Hf & Htrace & Htail & Hr & Hb & Hnext).
    destruct (drawFrame (it_frame it) (prepare it a)) as [[o a2] t].
    cbn [fst snd] in *. subst t.
    assert (Hdead : no_dead_wait
                      (EvWaitForFences (currentFrame (prepare it a)) f
                       :: tail)).
    { constructor.
      - intros slot [= _ ->]. by destruct Hlive.
      - eapply Forall_impl; [exact Htail|]. intros e He slot ->. done. }
    assert (Hfirst : ∀ slot, 0 ≤ slot < MAX_NB_FRAMES_IN_FLIGHT →
              inFlightFences a !! Z.to_nat slot = Some FenceSignaled →
              (first_wait slot
                 (EvWaitForFences (currentFrame (prepare it a)) f :: tail)
               = Some FenceSignaled
               ∧ currentFrame (prepare it a) = slot)
              ∨ (first_wait slot
                   (EvWaitForFences (currentFrame (prepare it a)) f :: tail)
                 = None
                 ∧ Z.to_nat slot ≠ Z.to_nat (currentFrame (prepare it a)))).
    { intros slot Hslot Hsig. cbn [first_wait].
      destruct (currentFrame (prepare it a) =? slot) eqn:Hsame.
      - left. apply Z.eqb_eq in Hsame. split; [|done].
        rewrite Hfences, Hsame in Hf. congruence.
      - right. apply Z.eqb_neq in Hsame.
        split; [by apply first_wait_no_wait|].
        destruct Hring1 as (_ & ? & _). lia. }
    destruct o as [[]|why].
    + destruct (Hnext eq_refl) as (Hring2 & Hsubmits & Hkeep).
      destruct (IH _ Hring2) as (Hb' & Hd' & Hr' & Hw').
      destruct (mainLoop rest a2) as [[o a3] t'].
      cbn [fst snd] in *. split; [done|].
      split; [constructor; [done|by apply Forall_app]|].
      split.
      { change (resets_followed_by_submit
                  ((EvWaitForFences (currentFrame (prepare it a)) f :: tail)
                   ++ t') = true).
        by apply resets_followed_by_submit_app. }
      intros slot Hslot Hsig.
      change (first_wait slot
                (EvPollEvents
                 :: (EvWaitForFences (currentFrame (prepare it a)) f :: tail)
                    ++ t'))
        with (first_wait slot
                ((EvWaitForFences (currentFrame (prepare it a)) f :: tail)
                 ++ t')).
      rewrite first_wait_app.
      destruct (Hfirst slot Hslot Hsig) as [[-> _]|[-> Hother]]; [by right|].
      apply Hw'; [done|]. apply Hkeep; [done|]. by rewrite Hfences.
    + cbn [fst snd]. split; [intros slot [= ->]; by eapply Hb|].
      split; [by constructor|]. split; [done|].
      intros slot Hslot Hsig.
      change (first_wait slot
                (EvPollEvents
                 :: EvWaitForFences (currentFrame (prepare it a)) f :: tail))
        with (first_wait slot
                (EvWaitForFences (currentFrame (prepare it a)) f :: tail)).
      destruct (Hfirst slot Hslot Hsig) as [[-> _]|[-> _]]; auto.
Qed.

(** ** Creation of the synchronisation objects *)

Lemma createSyncObjects_signaled
    (results : nat -> VkResult * VkResult * VkResult) (a : Application) :
  fences_created_signaled (createSyncObjects results a).2
  ∧ currentFrame (createSyncObjects results a).1.2 = currentFrame a
  ∧ ((createSyncObjects results a).1.1 = Returned tt →
     inFlightFences (createSyncObjects results a).1.2
     = [FenceSignaled; FenceSignaled]).
Proof.
  unfold createSyncObjects, fences_created_signaled.
  change (Z.to_nat MAX_NB_FRAMES_IN_FLIGHT) with 2%nat.
  cbn [createSyncObjects_loop].
  destruct (results 0%nat) as [[r1 r2] r3].
  destruct (results 1%nat) as [[r1' r2'] r3'].
  unfold throw, halt, bind, emit, modify, ret.
  destruct (r1 =? VK_SUCCESS); simpl;
    [|split; [repeat constructor; discriminate|done]].
  destruct (r2 =? VK_SUCCESS); simpl;
    [|split; [repeat constructor; discriminate|done]].
  destruct (r3 =? VK_SUCCESS); simpl;
    [|split; [repeat constructor; try discriminate;
              by intros flags r [= <- _]|done]].
  destruct (r1' =? VK_SUCCESS); simpl;
    [|split; [repeat constructor; try discriminate;
              by intros flags r [= <- _]|done]].
  destruct (r2' =? VK_SUCCESS); simpl;
    [|split; [repeat constructor; try discriminate;
              by intros flags r [= <- _]|done]].
  destruct (r3' =? VK_SUCCESS); simpl;
    [|split; [repeat constructor; try discriminate;
              by intros flags r [= <- _]|done]].
  split; [repeat constructor; try discriminate;
          by intros flags r [= <- _]|].
  split; [done|]. intros _.
  change (Z.to_nat (Z.of_nat 1)) with 1%nat.
  change (Z.to_nat (Z.of_nat 0)) with 0%nat.
  change (vkCreateFence VK_FENCE_CREATE_SIGNALED_BIT) with FenceSignaled.
  destruct (inFlightFences a) as [|x [|y [|z l]]]; reflexivity.
Qed.

(** C9: [createSyncObjects] asks for every fence of the ring in the
    signaled state, and when it returns both fences are signaled. From
    there, whatever the driver, the window and the user code answer along
    the main loop: no [vkWaitForFences] is ever made on an unsignaled fence
    with no submission pending, so the loop never blocks on a fence; the
    first wait on each slot finds its fence signaled, before any
    submission on that slot; and every [vkResetFences] is followed, in the
    same frame, by a [vkQueueSubmit] that is handed the fence of that
    slot and that succeeds, or else is the last call of the run. *)
Theorem createSyncObjects_fences_never_block :
  ∀ (results : nat -> VkResult * VkResult * VkResult)
    (a0 a : Application) (script : list IterationEnv),
    (createSyncObjects results a0).1.1 = Returned tt →
    inFlightFences a = inFlightFences (createSyncObjects results a0).1.2 →
    currentFrame a = 0 →
    fences_created_signaled (createSyncObjects results a0).2
    ∧ inFlightFences a = [FenceSignaled; FenceSignaled]
    ∧ (∀ slot, (mainLoop script a).1.1 ≠ Stopped (BlockedOnFence slot))
    ∧ no_dead_wait (mainLoop script a).2
    ∧ (∀ slot, 0 ≤ slot < MAX_NB_FRAMES_IN_FLIGHT →
         first_wait slot (mainLoop script a).2 = None
         ∨ first_wait slot (mainLoop script a).2 = Some FenceSignaled)
    ∧ resets_followed_by_submit (mainLoop script a).2 = true.
Proof.
  intros results a0 a script Hcreated Hfences Hcur.
  destruct (createSyncObjects_signaled results a0) as (Hflags & _ & Hsig).
  specialize (Hsig Hcreated). rewrite Hsig in Hfences.
  assert (Hring : ring_ok a).
  { unfold ring_ok. rewrite Hfences, Hcur.
    split; [done|]. split; [done|]. repeat constructor; by left. }
  destruct (mainLoop_ring script a Hring) as (Hb & Hd & Hr & Hw).
  split; [done|]. split; [done|]. split; [done|]. split; [done|].
  split; [|done].
  intros slot Hslot. apply Hw; [done|]. rewrite Hfences.
  unfold MAX_NB_FRAMES_IN_FLIGHT in Hslot.
  assert (Hcases : slot = 0 ∨ slot = 1) by lia.
  by destruct Hcases as [-> | ->].
Qed.

(** The model scenario: five turns of the loop with rebuilds in between;
    both slots are first waited for with their fence signaled. *)
Lemma createSyncObjects_fences_witness :
  no_dead_wait (mainLoop ex_script ex_app).2
  ∧ first_wait 1 (mainLoop ex_script ex_app).2 = Some FenceSignaled.
Proof.
  destruct (createSyncObjects_fences_never_block ex_sync_results
              (initialApplication ex_config_13) ex_app ex_script)
    as (_ & _ & _ & Hdead & Hfirst & _).
  - reflexivity.
  - reflexivity.
  - reflexivity.
  - split; [exact Hdead|].
    destruct (Hfirst 1) as [Hnone|Hsome]; [done| |exact Hsome].
    vm_compute in Hnone. discriminate.
Defined.

(** * Further properties of the code

    ** The choices made for the swap chain *)

Lemma find_first {A} (p : A -> bool) (l : list A) (x : A) :
  List.find p l = Some x →
  ∃ before after, l = before ++ x :: after ∧ p x = true
                  ∧ Forall (λ y, p y = false) before.
Proof.
  induction l as [|y rest IH]; simpl; [done|].
  destruct (p y) eqn:Hy.
  - intros [= ->]. by exists [], rest.
  - intros Hf. destruct (IH Hf) as (before & after & -> & Hx & Hb).
    exists (y :: before), after. split; [done|]. split; [done|].
    by constructor.
Qed.

Lemma find_absent {A} (p : A -> bool) (l : list A) :
  List.find p l = None ↔ Forall (λ y, p y = false) l.
Proof.
  induction l as [|y rest IH]; simpl.
  - split; [constructor|done].
  - destruct (p y) eqn:Hy.
    + split; [done|]. intros H. apply Forall_cons in H as [H _]. congruence.
    + rewrite IH. split; [by constructor|]. by intros [_ ?]%Forall_cons.
Qed.

Lemma preferred_test (f : VkSurfaceFormatKHR) :
  (format f =? VK_FORMAT_B8G8R8A8_SRGB)
  && (colorSpace f =? VK_COLOR_SPACE_SRGB_NONLINEAR_KHR) = true
  ↔ f = preferred_surface_format.
Proof.
  destruct f as [fmt cs]. unfold preferred_surface_format. simpl.
  rewrite andb_true_iff, !Z.eqb_eq. split.
  - by intros [-> ->].
  - by intros [= -> ->].
Qed.

(** X1: from a non-empty list, [chooseSwapSurfaceFormat] returns a
    format of the list: the B8G8R8A8_SRGB / SRGB_NONLINEAR pair whenever
    the list holds it, and the first entry of the list otherwise. *)
Theorem chooseSwapSurfaceFormat_preferred_or_first
    (availableFormats : list VkSurfaceFormatKHR) :
  availableFormats ≠ [] →
  let chosen := chooseSwapSurfaceFormat availableFormats in
  chosen ∈ availableFormats
  ∧ (preferred_surface_format ∈ availableFormats →
     chosen = preferred_surface_format)
  ∧ (preferred_surface_format ∉ availableFormats →
     head availableFormats = Some chosen).
Proof.
  intros Hne chosen. subst chosen. unfold chooseSwapSurfaceFormat.
  destruct (List.find _ availableFormats) as [f|] eqn:Hfind.
  - apply find_first in Hfind as (before & after & -> & Hf & _).
    apply preferred_test in Hf. subst f.
    split; [|split]; [|done|].
    + apply elem_of_app. right. by left.
    + intros Hno. destruct Hno. apply elem_of_app. right. by left.
  - apply find_absent in Hfind.
    destruct availableFormats as [|f rest]; [done|]. simpl.
    split; [by left|]. split; [|done].
    intros Hin. rewrite Forall_forall in Hfind.
    specialize (Hfind _ Hin).
    assert (Ht : (format preferred_surface_format =? VK_FORMAT_B8G8R8A8_SRGB)
                 && (colorSpace preferred_surface_format
                     =? VK_COLOR_SPACE_SRGB_NONLINEAR_KHR) = true)
      by (by apply preferred_test).
    congruence.
Qed.

Lemma chooseSwapSurfaceFormat_witness :
  chooseSwapSurfaceFormat
    [ {| format := 44; colorSpace := 0 |}; preferred_surface_format ]
  = preferred_surface_format.
Proof.
  destruct (chooseSwapSurfaceFormat_preferred_or_first
              [ {| format := 44; colorSpace := 0 |}; preferred_surface_format ])
    as (_ & H & _); [done|].
  apply H. right. left.
Defined.

(** X2: [chooseSwapPresentationMode] answers MAILBOX exactly when the
    list holds it, and FIFO in every other case, whether or not FIFO is
    in the list. *)
Theorem chooseSwapPresentationMode_mailbox_or_fifo
    (availablePresentModes : list Z) :
  (VK_PRESENT_MODE_MAILBOX_KHR ∈ availablePresentModes →
   chooseSwapPresentationMode availablePresentModes
   = VK_PRESENT_MODE_MAILBOX_KHR)
  ∧ (VK_PRESENT_MODE_MAILBOX_KHR ∉ availablePresentModes →
     chooseSwapPresentationMode availablePresentModes
     = VK_PRESENT_MODE_FIFO_KHR).
Proof.
  unfold chooseSwapPresentationMode.
  destruct (List.find _ availablePresentModes) as [m|] eqn:Hfind.
  - apply find_first in Hfind as (before & after & -> & Hm & _).
    apply Z.eqb_eq in Hm. subst m. split; [done|].
    intros Hno. destruct Hno. apply elem_of_app. right. by left.
  - apply find_absent in Hfind. split; [|done].
    intros Hin. rewrite Forall_forall in Hfind.
    specialize (Hfind _ Hin). by rewrite Z.eqb_refl in Hfind.
Qed.

(** ** The sample count *)

Lemma land_flag (a k : Z) :
  0 ≤ k → truthy (Z.land a (2 ^ k)) = Z.testbit a k.
Proof.
  intros Hk. destruct (Z.testbit a k) eqn:Hbit.
  - apply truthy_true. intros Hz.
    assert (Ht : Z.testbit (Z.land a (2 ^ k)) k = true)
      by (by rewrite Z.land_spec, Hbit, Z.pow2_bits_true).
    rewrite Hz, Z.bits_0 in Ht. discriminate.
  - apply truthy_false. apply Z.bits_inj'. intros n Hn.
    rewrite Z.land_spec, Z.bits_0, Z.pow2_bits_eqb by done.
    destruct (Z.eqb_spec k n) as [->|]; [by rewrite Hbit|].
    apply andb_false_r.
Qed.

Lemma land_common (c d k : Z) :
  0 ≤ k → truthy (Z.land (Z.land c d) (2 ^ k))
          = Z.testbit c k && Z.testbit d k.
Proof. intros Hk. by rewrite land_flag, Z.land_spec. Qed.

(** X3: [getMaxUsableSampleCount] answers a power of two between 1 and
    64. An answer above 1 is a sample count that colour and depth
    framebuffers both support, and no count from 2 to 64 above the
    answer is supported by both. *)
Theorem getMaxUsableSampleCount_largest_common (device : PhysicalDevice) :
  ∃ k, 0 ≤ k ≤ 6
       ∧ getMaxUsableSampleCount device = 2 ^ k
       ∧ (0 < k → samples_usable device k = true)
       ∧ ∀ j, k < j ≤ 6 → samples_usable device j = false.
Proof.
  unfold getMaxUsableSampleCount, samples_usable. cbv zeta.
  set (c := pd_framebufferColorSampleCounts device).
  set (d := pd_framebufferDepthSampleCounts device).
  assert (Hbit : ∀ k, 0 ≤ k →
            truthy (Z.land (Z.land c d) (2 ^ k))
            = Z.testbit c k && Z.testbit d k)
    by (intros; by apply land_common).
  pose proof (Hbit 6 ltac:(lia)) as H6. pose proof (Hbit 5 ltac:(lia)) as H5.
  pose proof (Hbit 4 ltac:(lia)) as H4. pose proof (Hbit 3 ltac:(lia)) as H3.
  pose proof (Hbit 2 ltac:(lia)) as H2. pose proof (Hbit 1 ltac:(lia)) as H1.
  change (2 ^ 6) with 64 in H6. change (2 ^ 5) with 32 in H5.
  change (2 ^ 4) with 16 in H4. change (2 ^ 3) with 8 in H3.
  change (2 ^ 2) with 4 in H2. change (2 ^ 1) with 2 in H1.
  simpl List.find. rewrite H6, H5, H4, H3, H2, H1.
  assert (Hcases : ∀ j, 0 < j ≤ 6 →
            j = 1 ∨ j = 2 ∨ j = 3 ∨ j = 4 ∨ j = 5 ∨ j = 6) by lia.
  destruct (Z.testbit c 6 && Z.testbit d 6) eqn:E6.
  { exists 6. split; [lia|]. split; [done|]. split; [done|]. lia. }
  destruct (Z.testbit c 5 && Z.testbit d 5) eqn:E5.
  { exists 5. split; [lia|]. split; [done|]. split; [done|].
    intros j Hj. assert (j = 6) as -> by lia. done. }
  destruct (Z.testbit c 4 && Z.testbit d 4) eqn:E4.
  { exists 4. split; [lia|]. split; [done|]. split; [done|].
    intros j Hj.
    destruct (Hcases j) as [?|[?|[?|[?|[?|?]]]]]; subst; lia || done. }
  destruct (Z.testbit c 3 && Z.testbit d 3) eqn:E3.
  { exists 3. split; [lia|]. split; [done|]. split; [done|].
    intros j Hj.
    destruct (Hcases j) as [?|[?|[?|[?|[?|?]]]]]; subst; lia || done. }
  destruct (Z.testbit c 2 && Z.testbit d 2) eqn:E2.
  { exists 2. split; [lia|]. split; [done|]. split; [done|].
    intros j Hj.
    destruct (Hcases j) as [?|[?|[?|[?|[?|?]]]]]; subst; lia || done. }
  destruct (Z.testbit c 1 && Z.testbit d 1) eqn:E1.
  { exists 1. split; [lia|]. split; [done|]. split; [done|].
    intros j Hj.
    destruct (Hcases j) as [?|[?|[?|[?|[?|?]]]]]; subst; lia || done. }
  exists 0. split; [lia|]. split; [done|]. split; [lia|].
  intros j Hj.
  destruct (Hcases j) as [?|[?|[?|[?|[?|?]]]]]; subst; lia || done.
Qed.

(** ** The queue families found *)

Lemma role_designates_set (device : PhysicalDevice)
    (indices : queueFamilyIndices_t) (role role' index : Z)
    (capable : QueueFamily -> Prop) (q : QueueFamily) :
  0 ≤ index →
  pd_queueFamilies device !! Z.to_nat index = Some q →
  (role' = role → capable q) →
  role_designates device indices role capable →
  role_designates device (set_family role' index indices) role capable.
Proof.
  intros Hpos Hq Hcap Hold index'. simpl.
  destruct (decide (role' = role)) as [->|Hne].
  - rewrite lookup_insert_eq. intros [= <-]. split; [done|].
    exists q. by split; [|apply Hcap].
  - rewrite lookup_insert_ne by done. apply Hold.
Qed.

Lemma findQueueFamilies_loop_designates (device : PhysicalDevice)
    (queueFamilies : list QueueFamily) :
  ∀ (seen : list QueueFamily) (indices : queueFamilyIndices_t),
    pd_queueFamilies device = seen ++ queueFamilies →
    role_designates device indices GRAPHICS_QUEUE_FAMILY graphics_capable →
    role_designates device indices PRESENTATION_QUEUE_FAMILY
      presentation_capable →
    let found := findQueueFamilies_loop queueFamilies
                   (Z.of_nat (length seen)) indices in
    role_designates device found GRAPHICS_QUEUE_FAMILY graphics_capable
    ∧ role_designates device found PRESENTATION_QUEUE_FAMILY
        presentation_capable.
Proof.
  induction queueFamilies as [|q rest IH]; intros seen indices Hall Hg Hp;
    simpl; [done|].
  assert (Hq : pd_queueFamilies device !! Z.to_nat (Z.of_nat (length seen))
               = Some q).
  { rewrite Nat2Z.id, Hall, lookup_app_r by lia.
    by replace (length seen - length seen)%nat with 0%nat by lia. }
  assert (Hpos : 0 ≤ Z.of_nat (length seen)) by lia.
  set (indices1 := if truthy (Z.land (queueFlags q) VK_QUEUE_GRAPHICS_BIT)
                   then set_family GRAPHICS_QUEUE_FAMILY
                          (Z.of_nat (length seen)) indices
                   else indices).
  set (indices2 := if truthy (presentationSupport q)
                   then set_family PRESENTATION_QUEUE_FAMILY
                          (Z.of_nat (length seen)) indices1
                   else indices1).
  assert (Hg1 : role_designates device indices1 GRAPHICS_QUEUE_FAMILY
                  graphics_capable).
  { subst indices1. clear indices2. destruct (truthy _) eqn:Ht; [|done].
    apply truthy_true in Ht. by eapply role_designates_set. }
  assert (Hp1 : role_designates device indices1 PRESENTATION_QUEUE_FAMILY
                  presentation_capable).
  { subst indices1. clear indices2. destruct (truthy _) eqn:Ht; [|done].
    eapply role_designates_set; [done|done| |done]. discriminate. }
  assert (Hg2 : role_designates device indices2 GRAPHICS_QUEUE_FAMILY
                  graphics_capable).
  { subst indices2. destruct (truthy (presentationSupport q)) eqn:Ht; [|done].
    eapply role_designates_set; [done|done| |done]. discriminate. }
  assert (Hp2 : role_designates device indices2 PRESENTATION_QUEUE_FAMILY
                  presentation_capable).
  { subst indices2. destruct (truthy (presentationSupport q)) eqn:Ht; [|done].
    apply truthy_true in Ht. by eapply role_designates_set. }
  destruct (isComplete indices2); [done|].
  replace (Z.of_nat (length seen) + 1) with (Z.of_nat (length (seen ++ [q])))
    by (rewrite length_app; simpl; lia).
  apply IH; [|done|done]. by rewrite <- app_assoc.
Qed.

(** X4: every index that [findQueueFamilies] stores designates a queue
    family the device reports, and one that has the capability of its
    role: graphics commands for the graphics role, presentation to the
    surface for the presentation role. *)
Theorem findQueueFamilies_indices_capable (device : PhysicalDevice) :
  role_designates device (findQueueFamilies device) GRAPHICS_QUEUE_FAMILY
    graphics_capable
  ∧ role_designates device (findQueueFamilies device)
      PRESENTATION_QUEUE_FAMILY presentation_capable.
Proof.
  unfold findQueueFamilies.
  apply (findQueueFamilies_loop_designates device (pd_queueFamilies device) []);
    [done|..]; intros index; simpl; by rewrite lookup_empty.
Qed.

(** ** The request for a swap chain *)

Lemma createSwapChain_run (env : RecreateEnv) (a : Application)
    (device : PhysicalDevice) :
  physicalDevice a = Some device →
  ∃ info,
    createSwapChain env a
    = (if negb (re_createResult env =? VK_SUCCESS)
       then (Stopped (Thrown swapchain_failed),
             set_swapChain (re_chain env) (swapChainImages a)
               (swapChainExtent a) a,
             [EvCreateSwapchain info (re_createResult env)])
       else (Returned tt,
             set_swapChain (re_chain env) (re_images env)
               (chooseSwapExtent (capabilities (re_support env))
                  (re_framebufferSize env)) a,
             [EvCreateSwapchain info (re_createResult env)]))
    ∧ ci_minImageCount info
      = (let imageCount :=
           to_uint32 (minImageCount (capabilities (re_support env)) + 1) in
         if (0 <? maxImageCount (capabilities (re_support env)))
            && (maxImageCount (capabilities (re_support env)) <? imageCount)
         then maxImageCount (capabilities (re_support env))
         else imageCount)
    ∧ (ci_imageSharingMode info, ci_queueFamilyIndexCount info)
      = (if families_at (findQueueFamilies device) GRAPHICS_QUEUE_FAMILY
            =? families_at (findQueueFamilies device)
                 PRESENTATION_QUEUE_FAMILY
         then (VK_SHARING_MODE_EXCLUSIVE, 0)
         else (VK_SHARING_MODE_CONCURRENT, 2))
    ∧ ci_presentMode info
      = chooseSwapPresentationMode (presentationModes (re_support env))
    ∧ ci_imageExtent info
      = chooseSwapExtent (capabilities (re_support env))
          (re_framebufferSize env).
Proof.
  intros Hdev. unfold createSwapChain, bind, get, emit, throw, halt, modify.
  rewrite Hdev. cbv zeta.
  eexists. split.
  - destruct (negb (re_createResult env =? VK_SUCCESS)); simpl; reflexivity.
  - simpl. split; [done|]. split; [|done].
    by destruct (_ =? _).
Qed.

(** X5: the swap chain [createSwapChain] asks for. With surface limits
    in the range of [uint32_t], the requested image count is one more
    than the minimum when the surface sets no maximum, and otherwise the
    smaller of that and the maximum, so it lies within the limits. The
    images are shared concurrently between two queue families exactly
    when the graphics and presentation indices differ. *)
Theorem createSwapChain_request (env : RecreateEnv) (a : Application)
    (device : PhysicalDevice) :
  physicalDevice a = Some device →
  let caps := capabilities (re_support env) in
  let indices := findQueueFamilies device in
  ∃ info,
    (createSwapChain env a).2 = [EvCreateSwapchain info (re_createResult env)]
    ∧ (0 ≤ minImageCount caps < UINT32_MAX →
       (maxImageCount caps = 0 →
        ci_minImageCount info = minImageCount caps + 1)
       ∧ (0 < maxImageCount caps →
          ci_minImageCount info
          = Z.min (minImageCount caps + 1) (maxImageCount caps))
       ∧ (0 < maxImageCount caps →
          minImageCount caps ≤ maxImageCount caps →
          minImageCount caps ≤ ci_minImageCount info ≤ maxImageCount caps))
    ∧ (families_at indices GRAPHICS_QUEUE_FAMILY
       = families_at indices PRESENTATION_QUEUE_FAMILY →
       ci_imageSharingMode info = VK_SHARING_MODE_EXCLUSIVE
       ∧ ci_queueFamilyIndexCount info = 0)
    ∧ (families_at indices GRAPHICS_QUEUE_FAMILY
       ≠ families_at indices PRESENTATION_QUEUE_FAMILY →
       ci_imageSharingMode info = VK_SHARING_MODE_CONCURRENT
       ∧ ci_queueFamilyIndexCount info = 2).
Proof.
  intros Hdev caps indices.
  destruct (createSwapChain_run env a device Hdev)
    as (info & Hrun & Hcount & Hshare & _).
  exists info. split; [|split; [|split]].
  - rewrite Hrun. by destruct (negb _).
  - intros Hmin. rewrite Hcount. fold caps. cbv zeta.
    assert (Hwrap : to_uint32 (minImageCount caps + 1)
                    = minImageCount caps + 1).
    { unfold to_uint32. apply Z.mod_small. unfold UINT32_MAX in Hmin. lia. }
    rewrite Hwrap.
    destruct (Z.ltb_spec 0 (maxImageCount caps));
      destruct (Z.ltb_spec (maxImageCount caps) (minImageCount caps + 1));
      simpl; lia.
  - intros Heq. fold indices in Hshare. rewrite Heq, Z.eqb_refl in Hshare.
    by injection Hshare.
  - intros Hne. fold indices in Hshare.
    apply Z.eqb_neq in Hne. rewrite Hne in Hshare. by injection Hshare.
Qed.

Lemma createSwapChain_request_witness :
  ∃ info,
    (createSwapChain ex_recreate ex_app).2 = [EvCreateSwapchain info VK_SUCCESS]
    ∧ ci_minImageCount info = 3
    ∧ ci_imageSharingMode info = VK_SHARING_MODE_CONCURRENT.
Proof.
  destruct (createSwapChain_request ex_recreate ex_app ex_device_13 eq_refl)
    as (info & Ht & Hcount & _ & Hshare).
  exists info. split; [exact Ht|]. split.
  - destruct Hcount as (_ & Hmax & _); [by vm_compute|].
    rewrite Hmax; [reflexivity|by vm_compute].
  - apply Hshare. by vm_compute.
Defined.

(** ** A rebuild, call by call *)

Lemma set_framebufferResized_same (s : Application) :
  set_framebufferResized (framebufferResized s) s = s.
Proof. by destruct s. Qed.

Lemma waitWhileMinimized_run (polls : list (Z * Z * bool)) :
  ∀ w h s,
    ∃ flag t,
      waitWhileMinimized w h polls s
      = (if window_restored w h polls then Returned tt
         else Stopped WaitingForEvents,
         set_framebufferResized flag s, t)
      ∧ Forall wait_event t
      ∧ (flag = framebufferResized s
         ∨ flag = true ∧ ∃ p, p ∈ polls ∧ p.2 = true).
Proof.
  induction polls as [|[[w' h'] resized] rest IH]; intros w h s;
    cbn [waitWhileMinimized window_restored].
  - exists (framebufferResized s), [].
    rewrite set_framebufferResized_same.
    split; [by destruct ((w =? 0) || (h =? 0))|]. split; [done|by left].
  - destruct ((w =? 0) || (h =? 0)).
    + unfold bind, emit. simpl.
      set (s1 := if resized then onFramebufferWindowResized s else s).
      assert (Hstep : (if resized then modify onFramebufferWindowResized
                       else ret tt) s = (Returned tt, s1, [])).
      { subst s1. by destruct resized. }
      rewrite Hstep.
      destruct (IH w' h' s1) as (flag & t & -> & Ht & Hflag).
      exists flag, (EvGetFramebufferSize w' h' :: EvWaitEvents :: t).
      split; [|split].
      * f_equal. f_equal. subst s1. by destruct resized.
      * by repeat constructor.
      * destruct Hflag as [->|[-> (p & Hp & Hcb)]].
        -- subst s1. destruct resized; [|by left].
           right. split; [done|]. exists (w', h', true). split; [left|done].
        -- right. split; [done|]. exists p. split; [by right|done].
    + exists (framebufferResized s), [].
      rewrite set_framebufferResized_same. split; [done|].
      split; [done|by left].
Qed.

Lemma destroyImageViews_run (views : list handle) (s : Application) :
  destroyImageViews views s = (Returned tt, s, map EvDestroyImageView views).
Proof.
  induction views as [|v rest IH]; simpl; [done|].
  unfold bind, emit. simpl. by rewrite IH.
Qed.

Lemma cleanupSwapChain_run (s : Application) :
  cleanupSwapChain s
  = (Returned tt, s,
     EvSwapChainAboutToBeDestroyed
     :: map EvDestroyImageView (swapChainImageViews s)
     ++ [EvDestroySwapchain (swapChain s)]).
Proof.
  unfold cleanupSwapChain, bind, emit, get. simpl.
  by rewrite destroyImageViews_run.
Qed.

Lemma createImageViews_loop_run (env : RecreateEnv) (images : list handle) :
  Forall (λ img, (re_createImageView env img).1 = VK_SUCCESS) images →
  ∀ (done_views rest_views : list handle) (s : Application),
    swapChainImageViews s = done_views ++ rest_views →
    length rest_views = length images →
    createImageViews_loop env images (length done_views) s
    = (Returned tt,
       set_swapChainImageViews (done_views ++ map (new_view env) images) s,
       map (λ image, EvCreateImageView image VK_SUCCESS) images).
Proof.
  induction 1 as [|img rest Himg _ IH]; intros done_views rest_views s Hs Hlen;
    simpl.
  - destruct rest_views; [|done]. rewrite app_nil_r in *.
    rewrite <- Hs. by destruct s.
  - destruct rest_views as [|v rest_views]; [done|].
    unfold new_view at 1.
    destruct (re_createImageView env img) as [result view].
    simpl in Himg. subst result. unfold bind, emit, modify. simpl.
    specialize (IH (done_views ++ [view]) rest_views
                  (set_swapChainImageViews
                     (<[length done_views := view]> (swapChainImageViews s))
                     s)).
    rewrite length_app in IH. simpl in IH.
    replace (length done_views + 1)%nat with (S (length done_views)) in IH
      by lia.
    rewrite IH.
    + by rewrite <- app_assoc.
    + simpl. rewrite Hs.
      rewrite insert_app_r_alt by lia.
      replace (length done_views - length done_views)%nat with 0%nat by lia.
      simpl. by rewrite <- app_assoc.
    + simpl in Hlen. lia.
Qed.

Lemma createImageViews_run (env : RecreateEnv) (s : Application) :
  Forall (λ img, (re_createImageView env img).1 = VK_SUCCESS)
    (swapChainImages s) →
  createImageViews env s
  = (Returned tt,
     set_swapChainImageViews (map (new_view env) (swapChainImages s)) s,
     map (λ image, EvCreateImageView image VK_SUCCESS) (swapChainImages s)).
Proof.
  intros Hviews. unfold createImageViews, bind, get, modify. simpl.
  rewrite (createImageViews_loop_run env _ Hviews []
             (resize (length (swapChainImages s)) VK_NULL_HANDLE
                (swapChainImageViews s))); [done|done|].
  by rewrite length_resize.
Qed.

Lemma recreateSwapChain_unfold (env : RecreateEnv) (a : Application) :
  ∃ flag waits,
    Forall wait_event waits
    ∧ (flag = framebufferResized a
       ∨ flag = true ∧ ∃ p, p ∈ re_polls env ∧ p.2 = true)
    ∧ recreateSwapChain env a
      = if window_restored (fst (re_initialSize env))
             (snd (re_initialSize env)) (re_polls env)
        then
          let idle :=
            set_inFlightFences (map idle_fence (inFlightFences a))
              (set_framebufferResized flag a) in
          let '(o, s, t) :=
            (createSwapChain env;; createImageViews env;;
             emit EvSwapChainReady) idle in
          (o, s,
           EvRecreateSwapChain
           :: EvGetFramebufferSize (fst (re_initialSize env))
                (snd (re_initialSize env))
           :: waits
           ++ [EvDeviceWaitIdle; EvSwapChainAboutToBeDestroyed]
           ++ map EvDestroyImageView (swapChainImageViews a)
           ++ [EvDestroySwapchain (swapChain a)] ++ t)
        else
          (Stopped WaitingForEvents, set_framebufferResized flag a,
           EvRecreateSwapChain
           :: EvGetFramebufferSize (fst (re_initialSize env))
                (snd (re_initialSize env))
           :: waits).
Proof.
  destruct (waitWhileMinimized_run (re_polls env) (fst (re_initialSize env))
              (snd (re_initialSize env)) a) as (flag & waits & Hw & Ht & Hflag).
  exists flag, waits. split; [done|]. split; [done|].
  unfold recreateSwapChain.
  set (rest := bind (createSwapChain env) _).
  unfold bind at 1 2 3. unfold emit at 1 2. rewrite Hw.
  destruct (window_restored _ _ _); [|done].
  unfold bind at 1. unfold vkDeviceWaitIdle, bind at 1, emit, modify.
  unfold bind at 1. rewrite cleanupSwapChain_run.
  cbv zeta. simpl swapChainImageViews. simpl swapChain.
  destruct (rest _) as [[o s] t]. f_equal.
  simpl. f_equal. f_equal. by rewrite <- app_assoc.
Qed.

(** X6: a rebuild that goes through. After the wait loop it destroys
    every image view the application held, in order, and the old chain,
    before it asks for the new chain; it then creates one view per image
    of the new chain. The application ends up holding the new chain, its
    images and exactly the views just created. *)
Theorem recreateSwapChain_replaces_chain (env : RecreateEnv)
    (a : Application) :
  recreate_completes env a →
  ∃ s waits info,
    recreateSwapChain env a
    = (Returned tt, s,
       EvRecreateSwapChain
       :: EvGetFramebufferSize (fst (re_initialSize env))
            (snd (re_initialSize env))
       :: waits ++ replace_trace env a info)
    ∧ Forall wait_event waits
    ∧ swapChain s = re_chain env
    ∧ swapChainImages s = re_images env
    ∧ swapChainImageViews s = map (new_view env) (re_images env)
    ∧ swapChainExtent s
      = chooseSwapExtent (capabilities (re_support env))
          (re_framebufferSize env).
Proof.
  intros (Hback & [device Hdev] & Hok & Hviews).
  destruct (recreateSwapChain_unfold env a) as (flag & waits & Hw & _ & Hrun).
  rewrite Hback in Hrun. cbv zeta in Hrun.
  set (idle := set_inFlightFences _ _) in Hrun.
  destruct (createSwapChain_run env idle device Hdev) as (info & Hcreate & _).
  rewrite Hok in Hcreate. simpl in Hcreate.
  unfold bind at 1 in Hrun. rewrite Hcreate in Hrun.
  unfold bind at 1 in Hrun.
  rewrite createImageViews_run in Hrun by done.
  unfold emit in Hrun. simpl in Hrun.
  eexists _, waits, info. split; [|split; [done|]].
  - rewrite Hrun. unfold replace_trace. f_equal.
  - simpl. done.
Qed.

Lemma recreateSwapChain_replaces_chain_witness :
  ∃ s waits info,
    recreateSwapChain ex_recreate ex_app
    = (Returned tt, s,
       EvRecreateSwapChain :: EvGetFramebufferSize 800 600
       :: waits ++ replace_trace ex_recreate ex_app info)
    ∧ swapChainImageViews s = [110; 111; 112].
Proof.
  destruct (recreateSwapChain_replaces_chain ex_recreate ex_app)
    as (s & waits & info & Hrun & _ & _ & _ & Hviews & _).
  - split; [reflexivity|]. split; [by eexists|]. split; [reflexivity|].
    repeat constructor.
  - exists s, waits, info. split; [exact Hrun|exact Hviews].
Defined.

(** X7: a rebuild in which the driver refuses the new chain. The error
    Failed to create swap chain! is raised after the old views and the
    old chain have been destroyed, and no view is created. The
    application is left holding the images of the destroyed chain and the
    handles of its destroyed views, with the extent of that chain; its
    [swapChain] attribute holds what [vkCreateSwapchainKHR] left in this
    output parameter, which the API does not specify. *)
Theorem recreateSwapChain_refused_keeps_destroyed_handles
    (env : RecreateEnv) (a : Application) :
  window_restored (fst (re_initialSize env)) (snd (re_initialSize env))
    (re_polls env) = true →
  is_Some (physicalDevice a) →
  re_createResult env ≠ VK_SUCCESS →
  ∃ s waits info,
    recreateSwapChain env a
    = (Stopped (Thrown swapchain_failed), s,
       EvRecreateSwapChain
       :: EvGetFramebufferSize (fst (re_initialSize env))
            (snd (re_initialSize env))
       :: waits ++ refused_trace env a info)
    ∧ Forall wait_event waits
    ∧ swapChain s = re_chain env
    ∧ swapChainImages s = swapChainImages a
    ∧ swapChainImageViews s = swapChainImageViews a
    ∧ swapChainExtent s = swapChainExtent a.
Proof.
  intros Hback [device Hdev] Hfail.
  destruct (recreateSwapChain_unfold env a) as (flag & waits & Hw & _ & Hrun).
  rewrite Hback in Hrun. cbv zeta in Hrun.
  set (idle := set_inFlightFences _ _) in Hrun.
  destruct (createSwapChain_run env idle device Hdev) as (info & Hcreate & _).
  apply Z.eqb_neq in Hfail. rewrite Hfail in Hcreate. simpl in Hcreate.
  unfold bind at 1 in Hrun. rewrite Hcreate in Hrun.
  eexists _, waits, info. split; [|split; [done|]].
  - rewrite Hrun. unfold refused_trace. f_equal.
  - simpl. done.
Qed.

(** The driver leaves a null handle while two views were held. *)
Lemma recreateSwapChain_refused_witness :
  ∃ s waits info,
    recreateSwapChain ex_recreate_refused ex_app
    = (Stopped (Thrown swapchain_failed), s,
       EvRecreateSwapChain :: EvGetFramebufferSize 800 600
       :: waits ++ refused_trace ex_recreate_refused ex_app info)
    ∧ swapChain s = VK_NULL_HANDLE
    ∧ swapChainImageViews s = [1; 2].
Proof.
  destruct (recreateSwapChain_refused_keeps_destroyed_handles
              ex_recreate_refused ex_app)
    as (s & waits & info & Hrun & _ & Hchain & _ & Hviews & _).
  - reflexivity.
  - by eexists.
  - by vm_compute.
  - exists s, waits, info. split; [exact Hrun|].
    split; [exact Hchain|exact Hviews].
Defined.

(** X8: a rebuild entered while the window is minimised, with a window
    that does not come back. The call stays in the wait loop: it has
    only read the framebuffer size and waited for events, so nothing was
    destroyed or created, and it has changed nothing in the application
    but the resize flag, and that only if a resize callback was
    delivered. *)
Theorem recreateSwapChain_minimised_waits (env : RecreateEnv)
    (a : Application) :
  window_restored (fst (re_initialSize env)) (snd (re_initialSize env))
    (re_polls env) = false →
  ∃ flag waits,
    recreateSwapChain env a
    = (Stopped WaitingForEvents, set_framebufferResized flag a,
       EvRecreateSwapChain
       :: EvGetFramebufferSize (fst (re_initialSize env))
            (snd (re_initialSize env))
       :: waits)
    ∧ Forall wait_event waits
    ∧ (no_resize_during env → flag = framebufferResized a).
Proof.
  intros Hgone.
  destruct (recreateSwapChain_unfold env a)
    as (flag & waits & Hw & Hflag & Hrun).
  rewrite Hgone in Hrun. exists flag, waits.
  split; [done|]. split; [done|].
  intros Hno. destruct Hflag as [->|[_ (p & Hp & Hcb)]]; [done|].
  unfold no_resize_during in Hno. rewrite Forall_forall in Hno.
  specialize (Hno p Hp). congruence.
Qed.

Lemma recreateSwapChain_minimised_witness :
  ∃ flag waits,
    recreateSwapChain
      {| re_initialSize := (0, 0); re_polls := [(0, 0, true); (0, 600, false)];
         re_support := ex_support; re_framebufferSize := (0, 0);
         re_createResult := VK_SUCCESS; re_chain := 78; re_images := [20];
         re_createImageView := λ img, (VK_SUCCESS, img + 100) |} ex_app
    = (Stopped WaitingForEvents, set_framebufferResized flag ex_app,
       EvRecreateSwapChain :: EvGetFramebufferSize 0 0 :: waits)
    ∧ Forall wait_event waits.
Proof.
  destruct (recreateSwapChain_minimised_waits
              {| re_initialSize := (0, 0);
                 re_polls := [(0, 0, true); (0, 600, false)];
                 re_support := ex_support; re_framebufferSize := (0, 0);
                 re_createResult := VK_SUCCESS; re_chain := 78;
                 re_images := [20];
                 re_createImageView := λ img, (VK_SUCCESS, img + 100) |}
              ex_app eq_refl) as (flag & waits & Hrun & Hw & _).
  exists flag, waits. split; [exact Hrun|exact Hw].
Defined.

(** ** The main loop as a whole *)

Lemma createImageViews_loop_outcome (env : RecreateEnv)
    (images : list handle) :
  ∀ i s, (createImageViews_loop env images i s).1.1 = Returned tt
         ∨ (createImageViews_loop env images i s).1.1
           = Stopped (Thrown imageview_failed).
Proof.
  induction images as [|img rest IH]; intros i s; simpl; [by left|].
  destruct (re_createImageView env img) as [result view].
  unfold bind, emit, throw, halt, modify. simpl.
  destruct (negb (result =? VK_SUCCESS)); simpl; [by right|].
  match goal with |- context [createImageViews_loop env rest ?j ?s'] =>
    specialize (IH j s');
    destruct (createImageViews_loop env rest j s') as [[o s2] t] end.
  simpl in *. destruct IH as [->| ->]; [by left|by right].
Qed.

Lemma recreateSwapChain_outcome (env : RecreateEnv) (a : Application) :
  is_Some (physicalDevice a) →
  loop_outcome (recreateSwapChain env a).1.1.
Proof.
  intros [device Hdev].
  destruct (recreateSwapChain_unfold env a) as (flag & waits & _ & _ & ->).
  destruct (window_restored _ _ _); [|right; by left].
  cbv zeta. set (idle := set_inFlightFences _ _).
  destruct (createSwapChain_run env idle device Hdev) as (info & Hcreate & _).
  unfold bind at 1. rewrite Hcreate.
  destruct (negb (re_createResult env =? VK_SUCCESS)).
  { right; right. exists swapchain_failed. split; [|done].
    unfold loop_errors. set_solver. }
  unfold bind at 1, createImageViews, bind, get, modify. simpl.
  match goal with |- context [createImageViews_loop env ?l ?j ?s'] =>
    pose proof (createImageViews_loop_outcome env l j s') as Hviews;
    destruct (createImageViews_loop env l j s') as [[o s2] t] end.
  simpl in Hviews. destruct Hviews as [->| ->]; simpl; [by left|].
  right; right. exists imageview_failed. split; [|done].
  unfold loop_errors. set_solver.
Qed.

Lemma drawFrame_outcome (env : FrameEnv) (a : Application) :
  started a →
  loop_outcome (drawFrame env a).1.1
  ∧ ((drawFrame env a).1.1 = Returned tt → started (drawFrame env a).1.2).
Proof.
  intros [Hring Hdev].
  destruct (drawFrame_ring env a Hring)
    as (f & rest & Hlive & Hf & _ & _ & _ & _ & Hret).
  assert (Hready : fence_ready a f) by done.
  pose proof (drawFrame_path env a f Hready) as Hpath.
  assert (Herr : ∀ e, e ∈ loop_errors →
            loop_outcome (Stopped (Thrown e))).
  { intros e He. right; right. by exists e. }
  inversion Hpath as [o s t Hood Hrun Heq | Hbad Heq | Hacc Hsub Heq
                     | s t Hacc Hsub Hre Hrun Heq
                     | why s t Hacc Hsub Hre Hrun Heq
                     | Hacc Hsub Hun Hflag Heq | Hacc Hsub Hok Hflag Heq];
    rewrite <- Heq in Hret; cbn [fst snd] in *; clear Hpath Heq.
  - pose proof (recreateSwapChain_outcome (fe_recreate env) (waited a) Hdev)
      as Hout.
    destruct (recreateSwapChain_frame (fe_recreate env) (waited a))
      as (o' & s' & t' & Hrun' & (_ & Hkept & _) & _).
    rewrite Hrun in Hout, Hrun'. injection Hrun' as <- <- _.
    split; [done|]. intros Hr. split; [by apply Hret|].
    by rewrite Hkept.
  - split; [|done]. apply Herr. unfold loop_errors. set_solver.
  - split; [|done]. apply Herr. unfold loop_errors. set_solver.
  - destruct (recreateSwapChain_frame (fe_recreate env)
                (set_framebufferResized false (submitted env a)))
      as (o' & s' & t' & Hrun' & (_ & Hkept & _) & _).
    rewrite Hrun in Hrun'. injection Hrun' as _ <- _.
    split; [by left|]. intros Hr. split; [by apply Hret|].
    simpl. by rewrite Hkept.
  - pose proof (recreateSwapChain_outcome (fe_recreate env)
                  (set_framebufferResized false (submitted env a)) Hdev)
      as Hout.
    rewrite Hrun in Hout. done.
  - split; [|done]. apply Herr. unfold loop_errors. set_solver.
  - split; [by left|]. intros Hr. split; [by apply Hret|done].
Qed.

Lemma vkDeviceWaitIdle_started (a : Application) :
  started a →
  started (set_inFlightFences (map idle_fence (inFlightFences a)) a).
Proof.
  intros [(Hlen & Hcur & Hlive) Hdev]. split; [|done].
  unfold ring_ok. simpl.
  split; [by rewrite length_map|]. split; [done|].
  apply Forall_fmap. eapply Forall_impl; [done|]. apply live_idle.
Qed.

(** Along the main loop, with hooks of the user that return: the loop
    returns, raises one of the five errors of the frame, or is waiting
    for a minimised window to come back. *)
Lemma mainLoop_outcome_cases (script : list IterationEnv) (a : Application) :
  started a →
  loop_outcome (mainLoop script a).1.1
  ∧ ((mainLoop script a).1.1 = Returned tt → started (mainLoop script a).1.2).
Proof.
  revert a. induction script as [|it rest IH]; intros a Hstart.
  - simpl. split; [by left|]. intros _. by apply vkDeviceWaitIdle_started.
  - rewrite mainLoop_cons.
    destruct (prepare_ring it a) as [Hfences Hcur].
    assert (Hstart1 : started (prepare it a)).
    { destruct Hstart as [Hring Hdev]. split.
      - unfold ring_ok. by rewrite Hfences, Hcur.
      - unfold prepare, onFramebufferWindowResized.
        destruct (it_resized it); simpl; destruct (negb _); done. }
    destruct (0 <? it_nbCommandBuffers it).
    + destruct (drawFrame_outcome (it_frame it) _ Hstart1) as [Hout Hret].
      destruct (drawFrame (it_frame it) (prepare it a)) as [[[[]|why] a2] t];
        cbn [fst snd] in *; [|done].
      specialize (IH a2 (Hret eq_refl)).
      destruct (mainLoop rest a2) as [[o a3] t']. done.
    + unfold ret. specialize (IH _ Hstart1).
      destruct (mainLoop rest (prepare it a)) as [[o a3] t']. done.
Qed.

(** X9: the main loop, entered after start-up (one live fence per frame
    in flight, a valid frame index, a device selected), is safe whatever
    the driver and the window answer: it never reads outside the vector
    of fences, never waits on a null fence, never uses a null device, and
    never blocks on a fence that nothing will signal. When it returns
    the application is in the start-up condition again. *)
Theorem mainLoop_safe (script : list IterationEnv) (a : Application) :
  started a →
  (mainLoop script a).1.1 ≠ Stopped Undefined
  ∧ (∀ slot, (mainLoop script a).1.1 ≠ Stopped (BlockedOnFence slot))
  ∧ ((mainLoop script a).1.1 = Returned tt → started (mainLoop script a).1.2).
Proof.
  intros Hstart.
  destruct (mainLoop_outcome_cases script a Hstart) as [Hout Hret].
  assert (Hsafe : ∀ why, (mainLoop script a).1.1 = Stopped why →
            why ≠ Undefined ∧ ∀ slot, why ≠ BlockedOnFence slot).
  { intros why Hwhy. rewrite Hwhy in Hout.
    destruct Hout as [Hr|[Hw|(e & _ & He)]]; [done| |].
    - injection Hw as ->. done.
    - injection He as ->. done. }
  split; [|split; [|done]].
  - intros Hstop. by destruct (Hsafe _ Hstop) as [Hne _].
  - intros slot Hstop. destruct (Hsafe _ Hstop) as [_ Hne]. by apply (Hne slot).
Qed.

(** Five turns with two rebuilds, one of them through a minimised
    window: the loop returns with the ring in order. *)
Lemma mainLoop_safe_witness :
  (mainLoop ex_script ex_app).1.1 ≠ Stopped Undefined
  ∧ started (mainLoop ex_script ex_app).1.2.
Proof.
  destruct (mainLoop_safe ex_script ex_app) as (Hsafe & _ & Hret).
  - split; [|by eexists].
    split; [reflexivity|]. split; [by vm_compute|].
    repeat constructor.
  - split; [exact Hsafe|]. apply Hret. reflexivity.
Defined.

(** X10: while the application declares no command buffer, the main
    loop draws nothing: each turn only polls the window events, and
    leaving the loop waits for the device once. The frame index, the
    swap chain and its views are untouched, and the list of command
    buffers is empty afterwards. *)
Theorem mainLoop_idle (script : list IterationEnv) (a : Application) :
  idle_script script →
  ∃ s,
    mainLoop script a
    = (Returned tt, s,
       replicate (length script) EvPollEvents ++ [EvDeviceWaitIdle])
    ∧ currentFrame s = currentFrame a
    ∧ inFlightFences s = map idle_fence (inFlightFences a)
    ∧ swapChain s = swapChain a
    ∧ swapChainImageViews s = swapChainImageViews a
    ∧ (script ≠ [] → commandBufferList s = []).
Proof.
  intros Hidle. revert a.
  induction Hidle as [|it rest Hit _ IH]; intros a.
  - eexists. split; [reflexivity|]. simpl. done.
  - rewrite mainLoop_cons, Hit. change (0 <? 0) with false. cbv iota.
    unfold ret. cbv beta iota.
    destruct (IH (prepare it a)) as (s & Hrun & Hc & Hf & Hs & Hv & Hb).
    rewrite Hrun. exists s. split; [done|].
    assert (Hprep : currentFrame (prepare it a) = currentFrame a
                    ∧ inFlightFences (prepare it a) = inFlightFences a
                    ∧ swapChain (prepare it a) = swapChain a
                    ∧ swapChainImageViews (prepare it a)
                      = swapChainImageViews a
                    ∧ commandBufferList (prepare it a) = []).
    { unfold prepare, onFramebufferWindowResized. rewrite Hit.
      destruct (it_resized it); simpl;
        destruct (commandBufferList a) as [|b l] eqn:Hlist; simpl;
        rewrite ?Hlist; done. }
    destruct Hprep as (Hc' & Hf' & Hs' & Hv' & Hb').
    rewrite Hc, Hf, Hs, Hv, Hc', Hf', Hs', Hv'.
    do 4 (split; [done|]). intros _.
    destruct rest as [|it' rest']; [|by apply Hb].
    simpl in Hrun. injection Hrun as <-. done.
Qed.

Lemma mainLoop_idle_witness :
  (mainLoop
     [ {| it_resized := true; it_nbCommandBuffers := 0;
          it_frame := ex_frame VK_SUCCESS VK_SUCCESS VK_SUCCESS ex_recreate |};
       {| it_resized := false; it_nbCommandBuffers := 0;
          it_frame := ex_frame VK_SUCCESS VK_SUCCESS VK_SUCCESS ex_recreate |} ]
     ex_app).2
  = [EvPollEvents; EvPollEvents; EvDeviceWaitIdle].
Proof.
  destruct (mainLoop_idle
              [ {| it_resized := true; it_nbCommandBuffers := 0;
                   it_frame := ex_frame VK_SUCCESS VK_SUCCESS VK_SUCCESS
                                 ex_recreate |};
                {| it_resized := false; it_nbCommandBuffers := 0;
                   it_frame := ex_frame VK_SUCCESS VK_SUCCESS VK_SUCCESS
                                 ex_recreate |} ] ex_app)
    as (s & Hrun & _).
  - repeat constructor.
  - rewrite Hrun. reflexivity.
Defined.

(** ** Start-up *)

(** X11: [createSyncObjects] stops at the first creation the driver
    refuses. Every call it makes creates a semaphore or a fence; all of
    them but the last one succeeded. It returns exactly when the last one
    succeeded too, after six creations; otherwise it raises
    Failed to create synchronization objects for a frame! and creates
    nothing more. *)
Theorem createSyncObjects_stops_at_first_failure
    (results : nat -> VkResult * VkResult * VkResult) (a : Application) :
  ∃ before last,
    (createSyncObjects results a).2 = before ++ [last]
    ∧ forallb creation_succeeded before = true
    ∧ (length before ≤ 5)%nat
    ∧ (createSyncObjects results a).1.1
      = (if creation_succeeded last then Returned tt
         else Stopped (Thrown sync_failed))
    ∧ (creation_succeeded last = true → length before = 5%nat)
    ∧ ((∃ r, last = EvCreateSemaphore r)
       ∨ (∃ flags r, last = EvCreateFence flags r)).
Proof.
  unfold createSyncObjects.
  change (Z.to_nat MAX_NB_FRAMES_IN_FLIGHT) with 2%nat.
  cbn [createSyncObjects_loop].
  destruct (results 0%nat) as [[r1 r2] r3].
  destruct (results 1%nat) as [[r1' r2'] r3'].
  unfold throw, halt, bind, emit, modify, ret, sync_failed.
  destruct (r1 =? VK_SUCCESS) eqn:E1; simpl.
  2:{ exists [], (EvCreateSemaphore r1). simpl. rewrite E1.
      repeat split; try done; try lia. left. by eexists. }
  destruct (r2 =? VK_SUCCESS) eqn:E2; simpl.
  2:{ exists [EvCreateSemaphore r1], (EvCreateSemaphore r2). simpl.
      rewrite E1, E2. repeat split; try done; try lia. left. by eexists. }
  destruct (r3 =? VK_SUCCESS) eqn:E3; simpl.
  2:{ exists [EvCreateSemaphore r1; EvCreateSemaphore r2],
        (EvCreateFence VK_FENCE_CREATE_SIGNALED_BIT r3). simpl.
      rewrite E1, E2, E3. repeat split; try done; try lia.
      right. by do 2 eexists. }
  destruct (r1' =? VK_SUCCESS) eqn:E1'; simpl.
  2:{ exists [EvCreateSemaphore r1; EvCreateSemaphore r2;
              EvCreateFence VK_FENCE_CREATE_SIGNALED_BIT r3],
        (EvCreateSemaphore r1'). simpl.
      rewrite E1, E2, E3, E1'. repeat split; try done; try lia.
      left. by eexists. }
  destruct (r2' =? VK_SUCCESS) eqn:E2'; simpl.
  2:{ exists [EvCreateSemaphore r1; EvCreateSemaphore r2;
              EvCreateFence VK_FENCE_CREATE_SIGNALED_BIT r3;
              EvCreateSemaphore r1'],
        (EvCreateSemaphore r2'). simpl.
      rewrite E1, E2, E3, E1', E2'. repeat split; try done; try lia.
      left. by eexists. }
  exists [EvCreateSemaphore r1; EvCreateSemaphore r2;
          EvCreateFence VK_FENCE_CREATE_SIGNALED_BIT r3;
          EvCreateSemaphore r1'; EvCreateSemaphore r2'],
    (EvCreateFence VK_FENCE_CREATE_SIGNALED_BIT r3'). simpl.
  rewrite E1, E2, E3, E1', E2'.
  destruct (r3' =? VK_SUCCESS) eqn:E3'; simpl;
    repeat split; try done; try lia; right; by do 2 eexists.
Qed.

Lemma pickPhysicalDevice_loop_chosen (cfg : config_t)
    (devices : list PhysicalDevice) (a : Application) :
  pickPhysicalDevice_loop cfg devices a = a
  ∨ ∃ device,
      device ∈ devices ∧ isDeviceSuitable cfg device = true
      ∧ pickPhysicalDevice_loop cfg devices a
        = set_physicalDevice (Some device) (getMaxUsableSampleCount device) a.
Proof.
  induction devices as [|d rest IH]; simpl; [by left|].
  destruct (isDeviceSuitable cfg d) eqn:Hd.
  - right. exists d. split; [by left|done].
  - destruct IH as [->|(device & Hin & Hs & ->)]; [by left|].
    right. exists device. split; [by right|done].
Qed.

(** X12: what [pickPhysicalDevice] leaves behind when it returns,
    entered with no device selected. The selected device is one of the
    enumerated devices and is suitable; the stored sample count is the
    one [getMaxUsableSampleCount] answers for it; the stored surface
    image format is a format the surface supports on that device. No
    other attribute changes. *)
Theorem pickPhysicalDevice_selection (devices : list PhysicalDevice)
    (a s : Application) (t : list event) :
  physicalDevice a = None →
  pickPhysicalDevice devices a = (Returned tt, s, t) →
  ∃ device surfaceFormat,
    device ∈ devices
    ∧ isDeviceSuitable (config a) device = true
    ∧ surfaceFormat ∈ formats (pd_support device)
    ∧ s = set_surfaceImageFormat (format surfaceFormat)
            (set_physicalDevice (Some device)
               (getMaxUsableSampleCount device) a)
    ∧ t = [].
Proof.
  intros Hnone. unfold pickPhysicalDevice. case_bool_decide; [done|].
  unfold bind, get, modify, throw, halt. simpl.
  destruct (pickPhysicalDevice_loop_chosen (config a) devices a)
    as [->|(device & Hin & Hs & ->)].
  { by rewrite Hnone. }
  simpl. intros [= <- <-].
  exists device, (chooseSwapSurfaceFormat (formats (pd_support device))).
  split; [done|]. split; [done|]. split; [|done].
  apply isDeviceSuitable_true in Hs as (_ & _ & Hformats & _).
  destruct (formats (pd_support device)) as [|f rest] eqn:Hf; [done|].
  unfold chooseSwapSurfaceFormat.
  destruct (List.find _ (f :: rest)) as [f'|] eqn:Hfind.
  - apply find_first in Hfind as (before & after & -> & _).
    apply elem_of_app. right. by left.
  - simpl. by left.
Qed.

Lemma pickPhysicalDevice_selection_witness :
  ∃ device surfaceFormat,
    device ∈ [ex_device_plain; ex_device_13]
    ∧ surfaceFormat ∈ formats (pd_support device)
    ∧ (pickPhysicalDevice [ex_device_plain; ex_device_13]
         (initialApplication ex_config_13)).1.2
      = set_surfaceImageFormat (format surfaceFormat)
          (set_physicalDevice (Some device)
             (getMaxUsableSampleCount device)
             (initialApplication ex_config_13)).
Proof.
  destruct (pickPhysicalDevice_selection [ex_device_plain; ex_device_13]
              (initialApplication ex_config_13)
              (pickPhysicalDevice [ex_device_plain; ex_device_13]
                 (initialApplication ex_config_13)).1.2 [])
    as (device & surfaceFormat & Hin & _ & Hf & Hs & _).
  - reflexivity.
  - by vm_compute.
  - exists device, surfaceFormat. split; [exact Hin|].
    split; [exact Hf|exact Hs].
Defined.

Lemma findQueueFamilies_resolved (device : PhysicalDevice) :
  roles_resolvable device →
  ∃ g p qg qp,
    families (findQueueFamilies device) !! GRAPHICS_QUEUE_FAMILY = Some g
    ∧ families (findQueueFamilies device) !! PRESENTATION_QUEUE_FAMILY
      = Some p
    ∧ 0 ≤ g ∧ pd_queueFamilies device !! Z.to_nat g = Some qg
    ∧ graphics_capable qg
    ∧ 0 ≤ p ∧ pd_queueFamilies device !! Z.to_nat p = Some qp
    ∧ presentation_capable qp.
Proof.
  intros [Hg Hp]. unfold findQueueFamilies.
  set (start := {| nbRequiredFamilies := 2; families := ∅ |}).
  assert (Hstart : roles_only start).
  { split; [done|]. simpl. rewrite dom_empty_L. set_solver. }
  destruct (findQueueFamilies_loop_roles (pd_queueFamilies device) 0 start
              Hstart) as (_ & Hfg & Hfp).
  destruct (findQueueFamilies_loop_designates device (pd_queueFamilies device)
              [] start) as [Hdg Hdp];
    [done|intros i; simpl; by rewrite lookup_empty..|].
  simpl in Hdg, Hdp.
  destruct (proj2 Hfg (or_intror Hg)) as [g Hsg].
  destruct (proj2 Hfp (or_intror Hp)) as [p Hsp].
  destruct (Hdg g Hsg) as (Hg0 & qg & Hqg & Hcg).
  destruct (Hdp p Hsp) as (Hp0 & qp & Hqp & Hcp).
  exists g, p, qg, qp. done.
Qed.

(** X13: [createLogicalDevice] on a suitable device. The two queues it
    fetches belong to families the device reports, the first one able to
    take graphics commands and the second one able to present; every
    queue request designates one of these two families; every extension
    it enables is offered by the device, every configured extension is
    enabled, and so is VK_KHR_portability_subset whenever the device
    offers it. It raises Failed to create logical device! exactly when
    the driver refuses, and then fetches no queue. *)
Theorem createLogicalDevice_request_valid (a : Application)
    (device : PhysicalDevice) (createResult : VkResult) :
  physicalDevice a = Some device →
  isDeviceSuitable (config a) device = true →
  ∃ g p qg qp requests extensions,
    (createLogicalDevice createResult a).2
    = EvCreateDevice requests extensions createResult
      :: (if createResult =? VK_SUCCESS
          then [EvGetDeviceQueue g; EvGetDeviceQueue p] else [])
    ∧ (createLogicalDevice createResult a).1.1
      = (if createResult =? VK_SUCCESS then Returned tt
         else Stopped (Thrown device_failed))
    ∧ 0 ≤ g ∧ pd_queueFamilies device !! Z.to_nat g = Some qg
    ∧ graphics_capable qg
    ∧ 0 ≤ p ∧ pd_queueFamilies device !! Z.to_nat p = Some qp
    ∧ presentation_capable qp
    ∧ (∀ x, x ∈ map queueFamilyIndex requests ↔ x = g ∨ x = p)
    ∧ (∀ name, name ∈ extensions → name ∈ pd_extensions device)
    ∧ (∀ name, name ∈ deviceExtensions (config a) → name ∈ extensions)
    ∧ (portability_subset ∈ pd_extensions device →
       portability_subset ∈ extensions).
Proof.
  intros Hdev Hs.
  apply isDeviceSuitable_true in Hs as (Hroles & Hext & _).
  destruct (findQueueFamilies_resolved device Hroles)
    as (g & p & qg & qp & Hg & Hp & Hg0 & Hqg & Hcg & Hp0 & Hqp & Hcp).
  exists g, p, qg, qp, (queueCreateInfos (findQueueFamilies device)),
    (getRequiredDeviceExtensions (config a) device).
  assert (Hfg : families_at (findQueueFamilies device) GRAPHICS_QUEUE_FAMILY
                = g) by (unfold families_at; by rewrite Hg).
  assert (Hfp : families_at (findQueueFamilies device)
                  PRESENTATION_QUEUE_FAMILY = p)
    by (unfold families_at; by rewrite Hp).
  split; [|split].
  - unfold createLogicalDevice, bind, get, emit, throw, halt. rewrite Hdev.
    simpl. rewrite Hfg, Hfp. by destruct (createResult =? VK_SUCCESS).
  - unfold createLogicalDevice, bind, get, emit, throw, halt. rewrite Hdev.
    simpl. by destruct (createResult =? VK_SUCCESS).
  - do 6 (split; [done|]). split; [|split; [|split]].
    + intros x. unfold queueCreateInfos. rewrite map_map. simpl.
      rewrite map_id.
      destruct (uniqueQueueFamilies_cases (findQueueFamilies device))
        as [[Hord ->]|[[Hord ->]|[Hord ->]]];
        rewrite Hfg, Hfp in *;
        rewrite ?elem_of_cons, ?elem_of_nil; intuition lia.
    + intros name. unfold getRequiredDeviceExtensions.
      destruct (existsb _ _) eqn:Hport; [|by apply Hext].
      apply portability_subset_available in Hport.
      rewrite elem_of_app, list_elem_of_singleton.
      intros [Hin| ->]; [by apply Hext|done].
    + intros name Hin. unfold getRequiredDeviceExtensions.
      destruct (existsb _ _); [|done]. apply elem_of_app. by left.
    + intros Hin. unfold getRequiredDeviceExtensions.
      destruct (existsb _ _) eqn:Hport.
      { apply elem_of_app. right. by left. }
      assert (Hex : existsb (String.eqb portability_subset)
                      (pd_extensions device) = true); [|congruence].
      apply existsb_exists. exists portability_subset.
      split; [by apply list_elem_of_In|apply String.eqb_refl].
Qed.

Lemma createLogicalDevice_request_witness :
  ∃ g p requests extensions,
    (createLogicalDevice VK_SUCCESS ex_app).2
    = [EvCreateDevice requests extensions VK_SUCCESS;
       EvGetDeviceQueue g; EvGetDeviceQueue p]
    ∧ (∀ name, name ∈ extensions → name ∈ pd_extensions ex_device_13).
Proof.
  destruct (createLogicalDevice_request_valid ex_app ex_device_13 VK_SUCCESS)
    as (g & p & qg & qp & requests & extensions & Ht & _ & _ & _ & _ & _ & _
        & _ & _ & Hoffered & _ & _).
  - reflexivity.
  - by vm_compute.
  - exists g, p, requests, extensions. split; [exact Ht|exact Hoffered].
Defined.

(** ** Memory types *)

Lemma memory_type_bit (typeFilter i : Z) :
  0 ≤ i < VK_MAX_MEMORY_TYPES →
  truthy (Z.land typeFilter (to_uint32 (Z.shiftl 1 i)))
  = Z.testbit typeFilter i.
Proof.
  unfold VK_MAX_MEMORY_TYPES. intros Hi.
  rewrite Z.shiftl_1_l. unfold to_uint32.
  rewrite Z.mod_small; [apply land_flag; lia|].
  split; [apply Z.pow_nonneg; lia|].
  change 4294967296 with (2 ^ 32). apply Z.pow_lt_mono_r; lia.
Qed.

Lemma memory_type_test (typeFilter properties i flags : Z) :
  0 ≤ i < VK_MAX_MEMORY_TYPES →
  truthy (Z.land typeFilter (to_uint32 (Z.shiftl 1 i)))
  && (Z.land flags properties =? properties) = true
  ↔ memory_type_fits typeFilter properties i flags.
Proof.
  intros Hi. rewrite memory_type_bit by done. unfold memory_type_fits.
  by rewrite andb_true_iff, Z.eqb_eq.
Qed.

Lemma findMemoryType_loop_least (typeFilter properties : Z)
    (memoryTypes : list Z) :
  ∀ i, 0 ≤ i →
    i + Z.of_nat (length memoryTypes) ≤ VK_MAX_MEMORY_TYPES →
    match findMemoryType_loop typeFilter properties memoryTypes i with
    | Returned found =>
        ∃ flags,
          i ≤ found
          ∧ memoryTypes !! Z.to_nat (found - i) = Some flags
          ∧ memory_type_fits typeFilter properties found flags
          ∧ ∀ j other, i ≤ j < found →
              memoryTypes !! Z.to_nat (j - i) = Some other →
              ¬ memory_type_fits typeFilter properties j other
    | Stopped why =>
        why = Thrown memory_type_failed
        ∧ ∀ j other, i ≤ j →
            memoryTypes !! Z.to_nat (j - i) = Some other →
            ¬ memory_type_fits typeFilter properties j other
    end.
Proof.
  induction memoryTypes as [|flags rest IH]; intros i Hi Hmax; simpl.
  - split; [done|]. intros j other _ Hj. by rewrite lookup_nil in Hj.
  - simpl in Hmax.
    destruct (truthy _ && _) eqn:Htest.
    + apply memory_type_test in Htest; [|lia].
      exists flags. replace (i - i) with 0 by lia.
      split; [lia|]. split; [done|]. split; [done|]. lia.
    + assert (Hno : ¬ memory_type_fits typeFilter properties i flags).
      { intros Hfit. apply memory_type_test in Hfit; [|lia]. congruence. }
      specialize (IH (i + 1) ltac:(lia) ltac:(lia)).
      destruct (findMemoryType_loop typeFilter properties rest (i + 1))
        as [found|why].
      * destruct IH as (flags' & Hle & Hlook & Hfit & Hleast).
        exists flags'. split; [lia|]. split; [|split; [done|]].
        { replace (Z.to_nat (found - i)) with (S (Z.to_nat (found - (i + 1))))
            by lia. done. }
        intros j other Hj Hlook'.
        destruct (decide (j = i)) as [->|Hne].
        { replace (i - i) with 0 in Hlook' by lia. simpl in Hlook'.
          by injection Hlook' as <-. }
        apply (Hleast j other); [lia|].
        replace (Z.to_nat (j - i)) with (S (Z.to_nat (j - (i + 1))))
          in Hlook' by lia. done.
      * destruct IH as [-> Hnone]. split; [done|].
        intros j other Hj Hlook'.
        destruct (decide (j = i)) as [->|Hne].
        { replace (i - i) with 0 in Hlook' by lia. simpl in Hlook'.
          by injection Hlook' as <-. }
        apply (Hnone j other); [lia|].
        replace (Z.to_nat (j - i)) with (S (Z.to_nat (j - (i + 1))))
          in Hlook' by lia. done.
Qed.

(** X14: [findMemoryType], on a device that reports at most
    VK_MAX_MEMORY_TYPES memory types. When it returns, the index it
    answers is that of a reported memory type whose bit is set in the
    type filter and whose property flags include every requested
    property, and no memory type of a smaller index fits. It raises
    Failed to find suitable memory type! exactly when no reported memory
    type fits. *)
Theorem findMemoryType_least_fit (memoryTypes : list Z)
    (typeFilter properties : Z) :
  Z.of_nat (length memoryTypes) ≤ VK_MAX_MEMORY_TYPES →
  match findMemoryType memoryTypes typeFilter properties with
  | Returned found =>
      ∃ flags,
        0 ≤ found
        ∧ memoryTypes !! Z.to_nat found = Some flags
        ∧ memory_type_fits typeFilter properties found flags
        ∧ ∀ j other, 0 ≤ j < found →
            memoryTypes !! Z.to_nat j = Some other →
            ¬ memory_type_fits typeFilter properties j other
  | Stopped why =>
      why = Thrown memory_type_failed
      ∧ ∀ j other, 0 ≤ j →
          memoryTypes !! Z.to_nat j = Some other →
          ¬ memory_type_fits typeFilter properties j other
  end.
Proof.
  intros Hmax. unfold findMemoryType.
  pose proof (findMemoryType_loop_least typeFilter properties memoryTypes 0
                ltac:(lia) ltac:(lia)) as Hloop.
  destruct (findMemoryType_loop typeFilter properties memoryTypes 0)
    as [found|why].
  - destruct Hloop as (flags & Hle & Hlook & Hfit & Hleast).
    exists flags. rewrite Z.sub_0_r in Hlook.
    split; [done|]. split; [done|]. split; [done|].
    intros j other Hj Hlook'. apply (Hleast j other); [done|].
    by rewrite Z.sub_0_r.
  - destruct Hloop as [-> Hnone]. split; [done|].
    intros j other Hj Hlook'. apply (Hnone j other); [done|].
    by rewrite Z.sub_0_r.
Qed.

(** Host-visible, host-coherent memory (flags 2 and 4) among three
    types, with the first type excluded by the requirement bits. *)
Lemma findMemoryType_least_fit_witness :
  ∃ flags, [7; 1; 6] !! Z.to_nat 2 = Some flags
           ∧ memory_type_fits 6 6 2 flags.
Proof.
  pose proof (findMemoryType_least_fit [7; 1; 6] 6 6) as H.
  change (findMemoryType [7; 1; 6] 6 6) with (@Returned Z 2) in H.
  destruct H as (flags & _ & Hlook & Hfit & _); [by vm_compute|].
  exists flags. split; [exact Hlook|exact Hfit].
Defined.

(** ** Image formats *)

Lemma format_supported_test (formatProperties : Z -> VkFormatProperties)
    (tiling features candidate : Z) :
  ((tiling =? VK_IMAGE_TILING_LINEAR)
   && (Z.land (linearTilingFeatures (formatProperties candidate)) features
       =? features))
  || ((tiling =? VK_IMAGE_TILING_OPTIMAL)
      && (Z.land (optimalTilingFeatures (formatProperties candidate)) features
          =? features)) = true
  ↔ format_supported formatProperties tiling features candidate.
Proof.
  unfold format_supported, tiling_features.
  destruct (Z.eqb_spec tiling VK_IMAGE_TILING_LINEAR) as [->|Hlin]; simpl.
  - rewrite orb_false_r, Z.eqb_eq. split.
    + intros H. by eexists.
    + by intros (offered & [= <-] & H).
  - destruct (Z.eqb_spec tiling VK_IMAGE_TILING_OPTIMAL) as [->|Hopt]; simpl.
    + rewrite Z.eqb_eq. split.
      * intros H. by eexists.
      * by intros (offered & [= <-] & H).
    + split; [done|]. by intros (offered & [=] & _).
Qed.

(** X15: [findSupportedFormat] answers the first candidate, in the
    order given, whose features for the requested tiling include every
    requested feature, and raises Failed to find supported format! when
    there is none. It knows the linear and the optimal tiling only: for
    any other tiling it raises that error whatever the device
    supports. *)
Theorem findSupportedFormat_first_supported
    (formatProperties : Z -> VkFormatProperties) (candidates : list Z)
    (tiling features : Z) :
  let supported := format_supported formatProperties tiling features in
  let found :=
    findSupportedFormat formatProperties candidates tiling features in
  (∀ before candidate after,
     candidates = before ++ candidate :: after →
     Forall (λ c, ¬ supported c) before → supported candidate →
     found = Returned candidate)
  ∧ (Forall (λ c, ¬ supported c) candidates →
     found = Stopped (Thrown format_failed))
  ∧ (tiling ≠ VK_IMAGE_TILING_LINEAR → tiling ≠ VK_IMAGE_TILING_OPTIMAL →
     found = Stopped (Thrown format_failed)).
Proof.
  intros supported found. subst supported found.
  assert (Hnone : ∀ l,
            Forall (λ c, ¬ format_supported formatProperties tiling features c)
              l →
            ∀ rest, findSupportedFormat formatProperties (l ++ rest) tiling
                      features
                    = findSupportedFormat formatProperties rest tiling
                        features).
  { induction 1 as [|c l Hc _ IH]; intros rest; simpl; [done|].
    rewrite <- format_supported_test in Hc.
    destruct (_ && _) eqn:H1; [by destruct Hc|].
    destruct ((tiling =? VK_IMAGE_TILING_OPTIMAL) && _) eqn:H2;
      [by destruct Hc|]. apply IH. }
  split; [|split].
  - intros before candidate after -> Hbefore Hc.
    rewrite Hnone by done. simpl.
    apply format_supported_test in Hc.
    destruct (_ && _); [done|]. simpl in Hc. by rewrite Hc.
  - intros Hall. rewrite <- (app_nil_r candidates). by rewrite Hnone.
  - intros Hlin Hopt. rewrite <- (app_nil_r candidates).
    rewrite Hnone; [done|]. apply Forall_forall. intros c _.
    intros (offered & Hoff & _). unfold tiling_features in Hoff.
    apply Z.eqb_neq in Hlin, Hopt. by rewrite Hlin, Hopt in Hoff.
Qed.

(** The depth format of the examples: the third candidate is the first
    one this device can use as a depth attachment with optimal tiling. *)
Example findSupportedFormat_depth :
  findSupportedFormat ex_formatProperties [126; 130; 129]
    VK_IMAGE_TILING_OPTIMAL VK_FORMAT_FEATURE_DEPTH_STENCIL_ATTACHMENT_BIT
  = Returned 129.
Proof. reflexivity. Qed.

(** ** Buffers and images *)

Lemma findMemoryType_fits (env : ResourceEnv) (properties index : Z) :
  Z.of_nat (length (rs_memoryTypes env)) ≤ VK_MAX_MEMORY_TYPES →
  findMemoryType (rs_memoryTypes env)
    (memoryTypeBits (rs_memRequirements env)) properties = Returned index →
  ∃ flags,
    0 ≤ index
    ∧ rs_memoryTypes env !! Z.to_nat index = Some flags
    ∧ memory_type_fits (memoryTypeBits (rs_memRequirements env)) properties
        index flags.
Proof.
  intros Hmax Hfound. unfold findMemoryType in Hfound.
  pose proof (findMemoryType_loop_least
                (memoryTypeBits (rs_memRequirements env)) properties
                (rs_memoryTypes env) 0 ltac:(lia) ltac:(lia)) as Hloop.
  rewrite Hfound in Hloop. destruct Hloop as (flags & Hle & Hlook & Hfit & _).
  rewrite Z.sub_0_r in Hlook. by exists flags.
Qed.

Local Ltac no_allocation :=
  simpl; split;
  [intros ? ? ? Hin;
   repeat (apply elem_of_cons in Hin as [Hin|Hin]; try discriminate);
   by apply elem_of_nil in Hin
  |split; [split; done|done]].

Local Ltac allocation flags :=
  split;
  [intros ? ? ? Hin;
   repeat (apply elem_of_cons in Hin as [Hin|Hin]; try discriminate);
   [injection Hin as -> -> ->; split; [done|]; split; [done|];
    by exists flags
   |by apply elem_of_nil in Hin]
  |].

Local Ltac resource_run Hmax :=
  cbv zeta;
  destruct (rs_createResult _ =? VK_SUCCESS) eqn:Hcreate;
    [|no_allocation];
  cbn [negb];
  destruct (findMemoryType _ _ _) as [index|why] eqn:Hfind;
    [|no_allocation];
  destruct (findMemoryType_fits _ _ _ Hmax Hfind) as (flags & Hfit);
  destruct (rs_allocateResult _ =? VK_SUCCESS) eqn:Halloc; simpl;
    allocation flags;
    [split; [done|]; intros _; rewrite Hcreate;
     split; [done|by apply Z.eqb_eq]
    |split; [split; done|done]].

(** X16: [createBuffer] and [createImage], on a device that reports at
    most VK_MAX_MEMORY_TYPES memory types. Whenever they ask the driver
    for memory, it is in the size the resource requires and from a
    reported memory type that the requirement bits allow and that has
    every requested property. Memory is bound to the resource exactly
    when the call returns, which happens only if the driver created the
    resource and allocated the memory. *)
Theorem createBuffer_createImage_allocate_fitting_memory
    (env : ResourceEnv) (size usage properties : Z)
    (width height mipLevels nbSamples format tiling : Z) :
  Z.of_nat (length (rs_memoryTypes env)) ≤ VK_MAX_MEMORY_TYPES →
  allocates_fitting_memory env properties
    (createBuffer env size usage properties)
  ∧ allocates_fitting_memory env properties
      (createImage env width height mipLevels nbSamples format tiling usage
         properties).
Proof.
  intros Hmax. unfold allocates_fitting_memory, createBuffer, createImage.
  split; resource_run Hmax.
Qed.

Lemma createBuffer_allocate_witness :
  allocates_fitting_memory ex_resource 6 (createBuffer ex_resource 256 128 6).
Proof.
  apply (createBuffer_createImage_allocate_fitting_memory ex_resource
           256 128 6 0 0 0 0 0 0).
  by vm_compute.
Defined.

(** ** Mipmap generation *)

Lemma replay_app (levels : list VkImageLayout)
    (first second : list mip_command) :
  replay levels (first ++ second)
  = match replay levels first with
    | Some levels' => replay levels' second
    | None => None
    end.
Proof.
  revert levels. induction first as [|c rest IH]; intros levels; simpl;
    [done|].
  destruct (replay_command levels c); [apply IH|done].
Qed.

Lemma replay_barrier (before after : list VkImageLayout)
    (old new : VkImageLayout) (sourceStage destinationStage base : Z)
    (img : handle) (srcAccess dstAccess : Z) :
  0 ≤ base → length before = Z.to_nat base →
  replay_command (before ++ old :: after)
    (CmdLevelBarrier sourceStage destinationStage base
       {| oldLayout := old; newLayout := new; image := img; levelCount := 1;
          srcAccessMask := srcAccess; dstAccessMask := dstAccess |})
  = Some (before ++ new :: after).
Proof.
  intros Hbase Hlen. unfold replay_command, VkImageLayout in *.
  rewrite <- Hlen.
  rewrite list_lookup_middle by done. simpl.
  destruct (Z.leb_spec 0 base); [|lia]. rewrite Z.eqb_refl. simpl.
  rewrite insert_app_r_alt by lia.
  by replace (length before - length before)%nat with 0%nat by lia.
Qed.

Lemma replay_blit (before after : list VkImageLayout)
    (source destination : VkImageLayout) (img : handle)
    (level : Z) (srcCorner dstCorner : Z * Z) :
  0 ≤ level → length before = Z.to_nat level →
  replay_command (before ++ source :: destination :: after)
    (CmdBlitImage img source img destination
       {| srcMipLevel := level; srcOffsets1 := srcCorner;
          dstMipLevel := level + 1; dstOffsets1 := dstCorner |})
  = Some (before ++ source :: destination :: after).
Proof.
  intros Hlevel Hlen. unfold replay_command, VkImageLayout in *.
  cbn [srcMipLevel dstMipLevel].
  rewrite <- Hlen, list_lookup_middle by done.
  replace (Z.to_nat (level + 1)) with (S (length before)) by lia.
  assert (Hdst : (before ++ source :: destination :: after)
                 !! S (length before) = Some destination).
  { rewrite (cons_middle source), app_assoc.
    apply list_lookup_middle. rewrite length_app. simpl. lia. }
  rewrite Hdst.
  destruct (Z.leb_spec 0 level); [|lia].
  destruct (Z.leb_spec 0 (level + 1)); [|lia].
  by rewrite !Z.eqb_refl.
Qed.

Lemma replicate_snoc {A} (n : nat) (x : A) :
  replicate n x ++ [x] = replicate (S n) x.
Proof. induction n as [|n IH]; simpl; [done|]. by rewrite IH. Qed.

(** One turn of the loop moves the boundary between the levels already
    readable by shaders and the levels still to be filled. *)
Lemma recordGenerateMipmapsCommand_loop_replay (img : handle)
    (remaining : nat) :
  ∀ (filled : nat) (mipWidth mipHeight : Z),
    replay (replicate filled VK_IMAGE_LAYOUT_SHADER_READ_ONLY_OPTIMAL
            ++ replicate (S remaining) VK_IMAGE_LAYOUT_TRANSFER_DST_OPTIMAL)
      (recordGenerateMipmapsCommand_loop img (Z.of_nat filled + 1) remaining
         mipWidth mipHeight)
    = Some (replicate (filled + remaining)
              VK_IMAGE_LAYOUT_SHADER_READ_ONLY_OPTIMAL
            ++ [VK_IMAGE_LAYOUT_TRANSFER_DST_OPTIMAL]).
Proof.
  induction remaining as [|n IH]; intros filled mipWidth mipHeight.
  - simpl. by rewrite Nat.add_0_r.
  - cbn [recordGenerateMipmapsCommand_loop].
    replace (Z.of_nat filled + 1 - 1) with (Z.of_nat filled) by lia.
    cbn [app replay]. cbn [replicate].
    rewrite replay_barrier by (rewrite ?length_replicate; lia).
    rewrite replay_blit by (rewrite ?length_replicate; lia).
    rewrite replay_barrier by (rewrite ?length_replicate; lia).
    rewrite (cons_middle VK_IMAGE_LAYOUT_SHADER_READ_ONLY_OPTIMAL), app_assoc.
    rewrite replicate_snoc.
    replace (Z.of_nat filled + 1 + 1) with (Z.of_nat (S filled) + 1) by lia.
    change (VK_IMAGE_LAYOUT_TRANSFER_DST_OPTIMAL
            :: replicate n VK_IMAGE_LAYOUT_TRANSFER_DST_OPTIMAL)
      with (replicate (S n) VK_IMAGE_LAYOUT_TRANSFER_DST_OPTIMAL).
    rewrite IH. by replace (S filled + n)%nat with (filled + S n)%nat by lia.
Qed.

Lemma recordGenerateMipmapsCommand_loop_length (img : handle)
    (remaining : nat) :
  ∀ i mipWidth mipHeight,
    length (recordGenerateMipmapsCommand_loop img i remaining mipWidth
              mipHeight) = (3 * remaining)%nat.
Proof.
  induction remaining as [|n IH]; intros i mipWidth mipHeight; simpl;
    [done|]. rewrite IH. lia.
Qed.

Lemma linear_blit_test (formatProperties : Z -> VkFormatProperties)
    (imageFormat : Z) :
  truthy (Z.land (optimalTilingFeatures (formatProperties imageFormat))
            VK_FORMAT_FEATURE_SAMPLED_IMAGE_FILTER_LINEAR_BIT) = true
  ↔ linear_blit_supported formatProperties imageFormat.
Proof. apply truthy_true. Qed.

(** X17: the commands [recordGenerateMipmapsCommand] records are valid
    on an image whose [mipLevels] levels are all in the transfer
    destination layout, and leave every level in the shader read-only
    layout. Replayed in order: each barrier finds its level in the layout
    it names as the old one, each blit finds the level it reads in the
    transfer source layout and the level it writes in the transfer
    destination layout. Three commands are recorded per level after the
    first, and one more at the end. *)
Theorem recordGenerateMipmapsCommand_layouts
    (commandBuffer : list mip_command)
    (formatProperties : Z -> VkFormatProperties) (img : handle)
    (imageFormat texWidth texHeight mipLevels : Z) :
  linear_blit_supported formatProperties imageFormat →
  1 ≤ mipLevels ≤ UINT32_MAX →
  ∃ recorded,
    recordGenerateMipmapsCommand commandBuffer formatProperties img
      imageFormat texWidth texHeight mipLevels
    = (Returned tt, commandBuffer ++ recorded)
    ∧ replay (replicate (Z.to_nat mipLevels)
                VK_IMAGE_LAYOUT_TRANSFER_DST_OPTIMAL) recorded
      = Some (replicate (Z.to_nat mipLevels)
                VK_IMAGE_LAYOUT_SHADER_READ_ONLY_OPTIMAL)
    ∧ Z.of_nat (length recorded) = 3 * (mipLevels - 1) + 1.
Proof.
  intros Hblit Hlevels. unfold recordGenerateMipmapsCommand.
  apply linear_blit_test in Hblit. rewrite Hblit. simpl negb. cbv iota.
  eexists. split; [reflexivity|]. split.
  - rewrite replay_app.
    replace (Z.to_nat mipLevels) with (S (Z.to_nat (mipLevels - 1))) by lia.
    pose proof (recordGenerateMipmapsCommand_loop_replay img
                  (Z.to_nat (mipLevels - 1)) 0 texWidth texHeight) as Hloop.
    change (Z.of_nat 0 + 1) with 1 in Hloop.
    cbn [replicate app Nat.add] in Hloop. cbn [replicate]. rewrite Hloop.
    unfold last_level_barrier, to_uint32.
    rewrite Z.mod_small by (unfold UINT32_MAX in Hlevels; lia).
    cbn [replay]. rewrite replay_barrier by (rewrite ?length_replicate; lia).
    by rewrite replicate_snoc.
  - rewrite length_app, recordGenerateMipmapsCommand_loop_length. simpl. lia.
Qed.

Lemma recordGenerateMipmapsCommand_layouts_witness :
  ∃ recorded,
    recordGenerateMipmapsCommand [] ex_blitProperties 9 37 200 100 3
    = (Returned tt, [] ++ recorded)
    ∧ replay (replicate 3 VK_IMAGE_LAYOUT_TRANSFER_DST_OPTIMAL) recorded
      = Some (replicate 3 VK_IMAGE_LAYOUT_SHADER_READ_ONLY_OPTIMAL).
Proof.
  destruct (recordGenerateMipmapsCommand_layouts [] ex_blitProperties 9 37
              200 100 3) as (recorded & Hrun & Hreplay & _).
  - by vm_compute.
  - by vm_compute.
  - exists recorded. split; [exact Hrun|exact Hreplay].
Defined.

Lemma mip_extent_pos (full k : Z) : 1 ≤ mip_extent full k.
Proof. unfold mip_extent. lia. Qed.

Lemma mip_extent_0 (full : Z) : 1 ≤ full → mip_extent full 0 = full.
Proof. intros Hfull. unfold mip_extent. rewrite Z.pow_0_r, Z.div_1_r. lia. Qed.

(** Halving the extent of a level, when it is above 1, gives the extent
    of the next level. *)
Lemma mip_extent_next (full k : Z) :
  0 ≤ full → 0 ≤ k →
  (if 1 <? mip_extent full k then Z.quot (mip_extent full k) 2
   else mip_extent full k) = mip_extent full (k + 1)
  ∧ (if 1 <? mip_extent full k then Z.quot (mip_extent full k) 2 else 1)
    = mip_extent full (k + 1).
Proof.
  intros Hfull Hk.
  assert (Hpow : 0 < 2 ^ k) by (apply Z.pow_pos_nonneg; lia).
  assert (Hnext : full / 2 ^ (k + 1) = full / 2 ^ k / 2).
  { rewrite Z.pow_add_r, Z.pow_1_r by lia. by rewrite Z.div_div by lia. }
  assert (Hq : 0 ≤ full / 2 ^ k) by (apply Z.div_pos; lia).
  unfold mip_extent. rewrite Hnext.
  destruct (Z.ltb_spec 1 (Z.max 1 (full / 2 ^ k))) as [Hbig|Hsmall].
  - replace (Z.max 1 (full / 2 ^ k)) with (full / 2 ^ k) by lia.
    rewrite Z.quot_div_nonneg by lia.
    assert (1 ≤ full / 2 ^ k / 2) by (apply Z.div_le_lower_bound; lia).
    lia.
  - assert (Hle : full / 2 ^ k ≤ 1) by lia.
    assert (full / 2 ^ k / 2 = 0) by (apply Z.div_small; lia).
    lia.
Qed.

Lemma blits_app (first second : list mip_command) :
  blits (first ++ second) = blits first ++ blits second.
Proof.
  induction first as [|c rest IH]; simpl; [done|].
  destruct c; [done|]. by rewrite IH.
Qed.

Lemma recordGenerateMipmapsCommand_loop_blits (img : handle)
    (texWidth texHeight : Z) (remaining : nat) :
  0 ≤ texWidth → 0 ≤ texHeight →
  ∀ (level : nat),
    blits (recordGenerateMipmapsCommand_loop img (Z.of_nat level + 1)
             remaining (mip_extent texWidth (Z.of_nat level))
             (mip_extent texHeight (Z.of_nat level)))
    = map (λ k, level_blit texWidth texHeight (Z.of_nat k))
        (seq (S level) remaining).
Proof.
  intros Hw Hh. induction remaining as [|n IH]; intros level; [done|].
  cbn [recordGenerateMipmapsCommand_loop seq map].
  destruct (mip_extent_next texWidth (Z.of_nat level) Hw ltac:(lia))
    as [Hw1 Hw2].
  destruct (mip_extent_next texHeight (Z.of_nat level) Hh ltac:(lia))
    as [Hh1 Hh2].
  rewrite Hw1, Hw2, Hh1, Hh2.
  replace (Z.of_nat level + 1 + 1) with (Z.of_nat (S level) + 1) by lia.
  replace (Z.of_nat level + 1) with (Z.of_nat (S level)) by lia.
  cbn [app blits]. rewrite IH. f_equal. unfold level_blit.
  by replace (Z.of_nat (S level) - 1) with (Z.of_nat level) by lia.
Qed.

(** X18: the blits [recordGenerateMipmapsCommand] records for an image
    of at least one texel. There is one blit per level after the first,
    in increasing order of level; the blit that fills level k reads
    level k - 1, and the regions it reads and writes are the whole of
    these levels, a level k being max(1, floor(size / 2^k)) texels
    along each dimension: the repeated halving never goes below one
    texel. *)
Theorem recordGenerateMipmapsCommand_blits
    (formatProperties : Z -> VkFormatProperties) (img : handle)
    (imageFormat texWidth texHeight mipLevels : Z) :
  linear_blit_supported formatProperties imageFormat →
  1 ≤ texWidth → 1 ≤ texHeight →
  blits (recordGenerateMipmapsCommand [] formatProperties img imageFormat
           texWidth texHeight mipLevels).2
  = map (λ k, level_blit texWidth texHeight (Z.of_nat k))
      (seq 1 (Z.to_nat (mipLevels - 1))).
Proof.
  intros Hblit Hw Hh. unfold recordGenerateMipmapsCommand.
  apply linear_blit_test in Hblit. rewrite Hblit. simpl negb. cbv iota.
  cbn [snd app].
  pose proof (recordGenerateMipmapsCommand_loop_blits img texWidth texHeight
                (Z.to_nat (mipLevels - 1)) ltac:(lia) ltac:(lia) 0) as Hloop.
  change (Z.of_nat 0 + 1) with 1 in Hloop. change (Z.of_nat 0) with 0 in Hloop.
  rewrite !mip_extent_0 in Hloop by done.
  rewrite blits_app, Hloop. simpl. by rewrite app_nil_r.
Qed.

Lemma recordGenerateMipmapsCommand_blits_witness :
  blits (recordGenerateMipmapsCommand [] ex_blitProperties 9 37 5 3 4).2
  = [ level_blit 5 3 1; level_blit 5 3 2; level_blit 5 3 3 ].
Proof.
  rewrite (recordGenerateMipmapsCommand_blits ex_blitProperties 9 37 5 3 4).
  - reflexivity.
  - by vm_compute.
  - lia.
  - lia.
Defined.

(** X19: the edges of [recordGenerateMipmapsCommand]. When the device
    cannot blit the format with linear filtering, it raises
    Texture image format does not support linear blitting! and records
    nothing. Otherwise it always returns; asked for one level it records
    the final barrier on level 0 alone, and asked for zero levels it
    records a single barrier whose level index has wrapped around to
    4294967295. *)
Theorem recordGenerateMipmapsCommand_edges
    (commandBuffer : list mip_command)
    (formatProperties : Z -> VkFormatProperties) (img : handle)
    (imageFormat texWidth texHeight mipLevels : Z) :
  let run :=
    recordGenerateMipmapsCommand commandBuffer formatProperties img
      imageFormat texWidth texHeight mipLevels in
  (¬ linear_blit_supported formatProperties imageFormat →
   run = (Stopped (Thrown blit_failed), commandBuffer))
  ∧ (linear_blit_supported formatProperties imageFormat →
     run.1 = Returned tt
     ∧ (mipLevels = 1 →
        ∃ barrier, run.2 = commandBuffer ++ [CmdLevelBarrier
                     VK_PIPELINE_STAGE_TRANSFER_BIT
                     VK_PIPELINE_STAGE_FRAGMENT_SHADER_BIT 0 barrier])
     ∧ (mipLevels = 0 →
        ∃ barrier, run.2 = commandBuffer ++ [CmdLevelBarrier
                     VK_PIPELINE_STAGE_TRANSFER_BIT
                     VK_PIPELINE_STAGE_FRAGMENT_SHADER_BIT UINT32_MAX
                     barrier])).
Proof.
  intros run. subst run. unfold recordGenerateMipmapsCommand.
  rewrite <- linear_blit_test. destruct (truthy _); simpl.
  - split; [done|]. intros _. split; [done|].
    split; intros ->; by eexists.
  - split; [done|]. done.
Qed.

(** ** One-time command buffers *)

Lemma transition_known_test (oldL newL : VkImageLayout) :
  ((oldL =? VK_IMAGE_LAYOUT_UNDEFINED)
   && (newL =? VK_IMAGE_LAYOUT_TRANSFER_DST_OPTIMAL))
  || ((oldL =? VK_IMAGE_LAYOUT_TRANSFER_DST_OPTIMAL)
      && (newL =? VK_IMAGE_LAYOUT_SHADER_READ_ONLY_OPTIMAL)) = true
  ↔ transition_known oldL newL.
Proof.
  unfold transition_known.
  rewrite orb_true_iff, !andb_true_iff, !Z.eqb_eq. done.
Qed.

(** X20: the four helpers that run a one-time command buffer. The two
    copy helpers always return, and so do [transitionImageLayout] for the
    two transitions it knows and [generateMipmaps] for a format the device
    can blit with linear filtering; the command buffer they allocated was
    then ended, submitted once without a fence, waited for and freed, in
    this order. For any other transition, and for a format that cannot
    be blitted, the exception of the recording leaves the helper with the
    command buffer allocated and still in the recording state: it is
    neither ended, nor submitted, nor freed. *)
Theorem one_time_commands_freed_or_left_recording
    (allocated commandPool : handle) :
  (∀ srcBuffer dstBuffer size,
     submitted_and_freed commandPool allocated
       (copyBuffer allocated commandPool srcBuffer dstBuffer size))
  ∧ (∀ buffer img width height,
       submitted_and_freed commandPool allocated
         (copyBufferToImage allocated commandPool buffer img width height))
  ∧ (∀ img fmt oldL newL mipLevels,
       let run := transitionImageLayout allocated commandPool img fmt oldL
                    newL mipLevels in
       (transition_known oldL newL →
        submitted_and_freed commandPool allocated run)
       ∧ (¬ transition_known oldL newL →
          left_recording commandPool allocated transition_failed run))
  ∧ (∀ formatProperties img imageFormat texWidth texHeight mipLevels,
       let run := generateMipmaps formatProperties allocated commandPool img
                    imageFormat texWidth texHeight mipLevels in
       (linear_blit_supported formatProperties imageFormat →
        submitted_and_freed commandPool allocated run)
       ∧ (¬ linear_blit_supported formatProperties imageFormat →
          left_recording commandPool allocated blit_failed run)).
Proof.
  split; [|split; [|split]].
  - intros. eexists. split; [|reflexivity]. done.
  - intros. eexists. split; [|reflexivity]. done.
  - intros img fmt oldL newL mipLevels run. subst run.
    unfold transitionImageLayout, recordTransitionImageLayoutCommand.
    rewrite <- transition_known_test. cbn [beginSingleTimeCommands].
    destruct ((oldL =? VK_IMAGE_LAYOUT_UNDEFINED) && _) eqn:Hfirst.
    { split; [|done]. intros _. eexists. split; [|reflexivity]. done. }
    destruct ((oldL =? VK_IMAGE_LAYOUT_TRANSFER_DST_OPTIMAL) && _)
      eqn:Hsecond.
    { split; [|done]. intros _. eexists. split; [|reflexivity]. done. }
    split; [done|]. intros _. reflexivity.
  - intros formatProperties img imageFormat texWidth texHeight mipLevels run.
    subst run. unfold generateMipmaps, recordGenerateMipmapsCommand.
    rewrite <- linear_blit_test. cbn [beginSingleTimeCommands].
    destruct (truthy _); simpl.
    + split; [|done]. intros _. eexists. split; [|reflexivity].
      intros Hnil. apply app_eq_nil in Hnil as [_ Hnil]. discriminate.
    + split; [done|]. intros _. reflexivity.
Qed.

(** ** Instance creation *)

Lemma existsb_eqb_elem (name : string) (names : list string) :
  existsb (String.eqb name) names = true ↔ name ∈ names.
Proof.
  rewrite existsb_exists. split.
  - intros (other & Hin & Heq). apply String.eqb_eq in Heq. subst other.
    by apply list_elem_of_In.
  - intros Hin. exists name. split; [by apply list_elem_of_In|].
    apply String.eqb_refl.
Qed.

Lemma checkValidationLayerSupport_true
    (validationLayers availableLayers : list string) :
  checkValidationLayerSupport validationLayers availableLayers = true
  ↔ ∀ layerName, layerName ∈ validationLayers → layerName ∈ availableLayers.
Proof.
  induction validationLayers as [|layerName rest IH]; simpl.
  - split; [|done]. intros _ layer Hin. by apply elem_of_nil in Hin.
  - destruct (existsb (String.eqb layerName) availableLayers) eqn:Hfound;
      simpl.
    + apply existsb_eqb_elem in Hfound. rewrite IH. split.
      * intros Hrest layer Hin.
        apply elem_of_cons in Hin as [->|Hin]; [done|by apply Hrest].
      * intros Hall layer Hin. apply Hall. by right.
    + split; [done|]. intros Hall.
      assert (Hin : layerName ∈ availableLayers) by (apply Hall; by left).
      apply existsb_eqb_elem in Hin. congruence.
Qed.

Lemma checkValidationLayerSupport_false
    (validationLayers availableLayers : list string) :
  checkValidationLayerSupport validationLayers availableLayers = false
  ↔ ∃ layerName, layerName ∈ validationLayers
                 ∧ layerName ∉ availableLayers.
Proof.
  split.
  - induction validationLayers as [|layerName rest IH]; simpl; [done|].
    destruct (existsb (String.eqb layerName) availableLayers) eqn:Hfound;
      simpl.
    + intros Hrest. destruct (IH Hrest) as (layer & Hin & Hno).
      exists layer. split; [by right|done].
    + intros _. exists layerName. split; [by left|].
      intros Hin. apply existsb_eqb_elem in Hin. congruence.
  - intros (layer & Hin & Hno).
    destruct (checkValidationLayerSupport validationLayers availableLayers)
      eqn:Hall; [|done].
    destruct Hno. by apply (proj1 (checkValidationLayerSupport_true _ _) Hall).
Qed.

(** X21: [checkValidationLayerSupport] answers true exactly when every
    requested validation layer is among the available layers, and false
    exactly when some requested layer is not; in particular it answers
    true when no layer is requested, whatever is available. *)
Theorem checkValidationLayerSupport_all_available
    (validationLayers availableLayers : list string) :
  (checkValidationLayerSupport validationLayers availableLayers = true
   ↔ ∀ layerName, layerName ∈ validationLayers →
                  layerName ∈ availableLayers)
  ∧ (checkValidationLayerSupport validationLayers availableLayers = false
     ↔ ∃ layerName, layerName ∈ validationLayers
                    ∧ layerName ∉ availableLayers)
  ∧ checkValidationLayerSupport [] availableLayers = true.
Proof.
  split; [apply checkValidationLayerSupport_true|].
  split; [apply checkValidationLayerSupport_false|done].
Qed.

Lemma getRequiredExtensions_holds (env : InstanceEnv) :
  (∀ name, name ∈ in_glfwExtensions env → name ∈ getRequiredExtensions env)
  ∧ (in_enableValidationLayers env = true →
     VK_EXT_DEBUG_UTILS_EXTENSION_NAME ∈ getRequiredExtensions env)
  ∧ (physical_device_properties2 ∈ in_availableExtensions env →
     physical_device_properties2 ∈ getRequiredExtensions env).
Proof.
  unfold getRequiredExtensions. cbv zeta. split; [|split].
  - intros name Hin.
    destruct (in_apple env); destruct (in_enableValidationLayers env);
      destruct (existsb _ _); rewrite ?elem_of_app; auto.
  - intros ->.
    destruct (in_apple env); destruct (existsb _ _);
      rewrite ?elem_of_app, ?list_elem_of_singleton; auto.
  - intros Hin. apply existsb_eqb_elem in Hin. rewrite Hin.
    apply elem_of_app. right. by left.
Qed.

(** X22: [createInstance]. With validation layers enabled and a
    requested layer that is not available, it raises
    Validation layers requested, but not available! before the driver is
    asked for anything. In every other case it asks the driver for an
    instance exactly once, and returns exactly when the driver accepts.
    The layers it enables are the configured ones when validation is
    enabled, and all of them are available; none is enabled when
    validation is disabled, whatever the configuration lists. The
    extensions it enables hold every extension GLFW requires, the debug
    utilities extension when validation is enabled, and
    VK_KHR_get_physical_device_properties2 whenever the loader offers
    it. *)
Theorem createInstance_layers_and_extensions (env : InstanceEnv)
    (cfg : config_t) :
  let run := createInstance env cfg in
  let missing :=
    ∃ layerName, layerName ∈ in_validationLayers env
                 ∧ layerName ∉ in_availableLayers env in
  (in_enableValidationLayers env = true ∧ missing →
   run = (Stopped (Thrown validation_failed), []))
  ∧ (¬ (in_enableValidationLayers env = true ∧ missing) →
     ∃ flags extensions layers,
       run.2 = [CallCreateInstance (vulkanVersion cfg) flags extensions layers
                  (in_enableValidationLayers env) (in_createResult env)]
       ∧ run.1 = (if in_createResult env =? VK_SUCCESS then Returned tt
                  else Stopped (Thrown instance_failed))
       ∧ layers = (if in_enableValidationLayers env
                   then in_validationLayers env else [])
       ∧ (∀ layerName, layerName ∈ layers →
                       layerName ∈ in_availableLayers env)
       ∧ (∀ name, name ∈ in_glfwExtensions env → name ∈ extensions)
       ∧ (in_enableValidationLayers env = true →
          VK_EXT_DEBUG_UTILS_EXTENSION_NAME ∈ extensions)
       ∧ (physical_device_properties2 ∈ in_availableExtensions env →
          physical_device_properties2 ∈ extensions)).
Proof.
  intros run missing. subst run missing. unfold createInstance.
  destruct (getRequiredExtensions_holds env) as (Hglfw & Hdebug & Hprops).
  destruct (checkValidationLayerSupport (in_validationLayers env)
              (in_availableLayers env)) eqn:Hsupport.
  - pose proof (proj1 (checkValidationLayerSupport_true _ _) Hsupport) as Hall.
    rewrite andb_false_r. cbv zeta. split.
    { intros [_ (layer & Hin & Hno)]. destruct Hno. by apply Hall. }
    intros _. eexists _, _, _.
    split; [by destruct (in_createResult env =? VK_SUCCESS)|].
    split; [by destruct (in_createResult env =? VK_SUCCESS)|].
    split; [done|]. split; [|done].
    intros layer Hin. destruct (in_enableValidationLayers env);
      [by apply Hall|by apply elem_of_nil in Hin].
  - apply checkValidationLayerSupport_false in Hsupport.
    destruct (in_enableValidationLayers env) eqn:Henabled; simpl.
    { split; [done|]. intros Hno. destruct Hno. done. }
    split; [by intros [? _]|]. intros _. eexists _, _, _.
    split; [by destruct (in_createResult env =? VK_SUCCESS)|].
    split; [by destruct (in_createResult env =? VK_SUCCESS)|].
    split; [done|]. split; [|done].
    intros layer Hin. by apply elem_of_nil in Hin.
Qed.

(** A debug build on a machine without the validation layer stops before
    the instance is asked for. *)
Example createInstance_layer_missing :
  createInstance ex_instance ex_config_13
  = (Stopped (Thrown validation_failed), []).
Proof. reflexivity. Qed.

(** ** The steady state of the main loop *)

Lemma submit_slots_app (t1 t2 : list event) :
  submit_slots (t1 ++ t2) = submit_slots t1 ++ submit_slots t2.
Proof.
  induction t1 as [|e rest IH]; simpl; [done|].
  destruct e; simpl; by rewrite ?IH.
Qed.

Lemma slot_after_next (first : Z) (k : nat) :
  0 ≤ first →
  slot_after (to_uint32 (first + 1) mod MAX_NB_FRAMES_IN_FLIGHT) k
  = slot_after first (S k).
Proof.
  intros Hfirst. unfold slot_after, to_uint32, MAX_NB_FRAMES_IN_FLIGHT.
  replace ((first + 1) mod 4294967296 mod 2) with ((first + 1) mod 2).
  - rewrite Zplus_mod_idemp_l. f_equal. lia.
  - change 4294967296 with (2 * 2147483648).
    by rewrite Z.rem_mul_r, Z.mul_comm, Z.mod_add, Z.mod_mod by lia.
Qed.

(** X23: the steady state of the main loop. Started with the fence ring
    in order and the resize flag down, a run of turns in which every call
    of the frame succeeds returns without ever rebuilding the swap chain;
    it presents one frame per turn, and the frames use the slots of the
    ring in rotation: the frame drawn k turns after the first uses the
    slot k places further, modulo the number of frames in flight. The
    frame index ends one place after the last slot used. *)
Theorem mainLoop_steady_rotation (script : list IterationEnv)
    (a : Application) :
  ring_ok a → framebufferResized a = false → Forall plain_turn script →
  ∃ s t,
    mainLoop script a = (Returned tt, s, t)
    ∧ count is_recreate t = 0%nat
    ∧ count is_present t = length script
    ∧ submit_slots t = map (slot_after (currentFrame a))
                         (seq 0 (length script))
    ∧ currentFrame s = slot_after (currentFrame a) (length script)
    ∧ ring_ok s.
Proof.
  intros Hring Hflag Hplain. revert a Hring Hflag.
  induction Hplain as [|it rest (Hres & Hnb & Hacq & Hsub & Hpres) _ IH];
    intros a Hring Hflag.
  - eexists _, _. split; [reflexivity|]. simpl.
    do 3 (split; [done|]).
    destruct Hring as (Hlen & Hcur & Hlive).
    split.
    { unfold slot_after, MAX_NB_FRAMES_IN_FLIGHT in *.
      rewrite Z.add_0_r, Z.mod_small; lia. }
    unfold ring_ok. simpl.
    split; [by rewrite length_map|]. split; [done|].
    apply Forall_fmap. eapply Forall_impl; [done|]. apply live_idle.
  - rewrite mainLoop_cons.
    destruct (prepare_ring it a) as [Hfences Hcur].
    assert (Hring1 : ring_ok (prepare it a)).
    { unfold ring_ok. by rewrite Hfences, Hcur. }
    assert (Hflag1 : framebufferResized (prepare it a) = false).
    { unfold prepare. rewrite Hres. by destruct (negb _). }
    destruct (ring_ok_ready _ Hring1) as [f Hready].
    apply Z.ltb_lt in Hnb. rewrite Hnb.
    rewrite (drawFrame_presented (it_frame it) (prepare it a) f) by auto.
    set (a2 := set_currentFrame _ _).
    assert (Hring2 : ring_ok a2).
    { pose proof (drawFrame_ring (it_frame it) _ Hring1)
        as (_ & _ & _ & _ & _ & _ & _ & _ & Hret).
      rewrite (drawFrame_presented (it_frame it) (prepare it a) f) in Hret
        by auto.
      by apply Hret. }
    destruct (IH a2 Hring2) as (s & t & Hrun & Hre & Hpr & Hslots & Hend & Hok).
    { subst a2. simpl. exact Hflag1. }
    rewrite Hrun. eexists _, _. split; [reflexivity|].
    assert (Hnext : currentFrame a2
                    = to_uint32 (currentFrame a + 1)
                      mod MAX_NB_FRAMES_IN_FLIGHT).
    { subst a2. simpl. unfold next_frame. by rewrite Hcur. }
    destruct Hring as (_ & Hc & _).
    rewrite Hnext, slot_after_next in Hend by lia.
    rewrite Hnext in Hslots.
    split; [|split; [|split; [|split; [done|done]]]].
    + change (EvPollEvents :: ?x) with ([EvPollEvents] ++ x).
      rewrite !count_app, Hre. done.
    + change (EvPollEvents :: ?x) with ([EvPollEvents] ++ x).
      rewrite !count_app, Hpr. done.
    + cbn [submit_slots]. rewrite submit_slots_app, Hslots.
      unfold present_trace, submit_trace, acquire_trace. cbn [app submit_slots].
      rewrite Hcur. cbn [length seq map]. f_equal.
      { unfold slot_after, MAX_NB_FRAMES_IN_FLIGHT in *.
        rewrite Z.add_0_r, Z.mod_small; lia. }
      rewrite <- seq_shift, map_map. apply map_ext.
      intros k. apply slot_after_next. lia.
Qed.

Lemma mainLoop_steady_rotation_witness :
  ∃ s t,
    mainLoop [ex_plain_turn; ex_plain_turn; ex_plain_turn] ex_app
    = (Returned tt, s, t)
    ∧ submit_slots t = [0; 1; 0].
Proof.
  destruct (mainLoop_steady_rotation
              [ex_plain_turn; ex_plain_turn; ex_plain_turn] ex_app)
    as (s & t & Hrun & _ & _ & Hslots & _).
  - split; [reflexivity|]. split; [by vm_compute|]. repeat constructor.
  - reflexivity.
  - repeat (constructor; [by vm_compute|]). constructor.
  - exists s, t. split; [exact Hrun|exact Hslots].
Defined.

(** ** A rebuild that fails at an image view *)

Lemma set_swapChainImageViews_same (s : Application) :
  set_swapChainImageViews (swapChainImageViews s) s = s.
Proof. by destruct s. Qed.

Lemma createImageViews_loop_refused (env : RecreateEnv)
    (before : list handle) (refused : handle) (after : list handle) :
  Forall (λ img, (re_createImageView env img).1 = VK_SUCCESS) before →
  (re_createImageView env refused).1 ≠ VK_SUCCESS →
  ∀ (done_views rest_views : list handle) (s : Application),
    swapChainImageViews s = done_views ++ rest_views →
    (length before < length rest_views)%nat →
    createImageViews_loop env (before ++ refused :: after)
      (length done_views) s
    = (Stopped (Thrown imageview_failed),
       set_swapChainImageViews
         (done_views ++ map (new_view env) before
          ++ drop (length before) rest_views) s,
       map (λ image, EvCreateImageView image VK_SUCCESS) before
       ++ [EvCreateImageView refused (re_createImageView env refused).1]).
Proof.
  intros Hbefore Hrefused.
  induction Hbefore as [|img rest Himg _ IH];
    intros done_views rest_views s Hs Hlen; simpl.
  - destruct (re_createImageView env refused) as [result view].
    simpl in Hrefused. apply Z.eqb_neq in Hrefused.
    unfold bind, emit, throw, halt. simpl. rewrite Hrefused. simpl.
    rewrite drop_0, <- Hs. by rewrite set_swapChainImageViews_same.
  - unfold new_view at 1.
    destruct (re_createImageView env img) as [result view].
    simpl in Himg. subst result. unfold bind, emit, modify. simpl.
    destruct rest_views as [|v rest_views]; [simpl in Hlen; lia|].
    specialize (IH (done_views ++ [view]) rest_views
                  (set_swapChainImageViews
                     (<[length done_views := view]> (swapChainImageViews s))
                     s)).
    rewrite length_app in IH. simpl in IH.
    replace (length done_views + 1)%nat with (S (length done_views)) in IH
      by lia.
    rewrite IH.
    + by rewrite <- app_assoc.
    + rewrite Hs, insert_app_r_alt by lia.
      replace (length done_views - length done_views)%nat with 0%nat by lia.
      simpl. by rewrite <- app_assoc.
    + simpl in Hlen. lia.
Qed.

(** X24: a rebuild in which the driver refuses an image view. The
    error Failed to create image view! is raised at the first refusal:
    no view is asked for after it and the user is not told that the swap
    chain is ready. The application holds the new chain and its images;
    its vector of views has one entry per image, of which the first ones
    are the views created before the refusal, and the others are what
    the vector held before: views destroyed earlier in this rebuild, or
    null handles. *)
Theorem recreateSwapChain_view_refused (env : RecreateEnv)
    (a : Application) (before : list handle) (refused : handle)
    (after : list handle) :
  window_restored (fst (re_initialSize env)) (snd (re_initialSize env))
    (re_polls env) = true →
  is_Some (physicalDevice a) →
  re_createResult env = VK_SUCCESS →
  re_images env = before ++ refused :: after →
  Forall (λ img, (re_createImageView env img).1 = VK_SUCCESS) before →
  (re_createImageView env refused).1 ≠ VK_SUCCESS →
  ∃ s waits info,
    recreateSwapChain env a
    = (Stopped (Thrown imageview_failed), s,
       EvRecreateSwapChain
       :: EvGetFramebufferSize (fst (re_initialSize env))
            (snd (re_initialSize env))
       :: waits ++ view_refused_trace env a info before refused)
    ∧ Forall wait_event waits
    ∧ swapChain s = re_chain env
    ∧ swapChainImages s = re_images env
    ∧ swapChainImageViews s
      = map (new_view env) before
        ++ drop (length before)
             (resize (length (re_images env)) VK_NULL_HANDLE
                (swapChainImageViews a)).
Proof.
  intros Hback [device Hdev] Hok Himages Hbefore Hrefused.
  destruct (recreateSwapChain_unfold env a) as (flag & waits & Hw & _ & Hrun).
  rewrite Hback in Hrun. cbv zeta in Hrun.
  set (idle := set_inFlightFences _ _) in Hrun.
  destruct (createSwapChain_run env idle device Hdev) as (info & Hcreate & _).
  rewrite Hok in Hcreate. simpl in Hcreate.
  unfold bind at 1 in Hrun. rewrite Hcreate in Hrun.
  unfold bind at 1, createImageViews, bind, get, modify in Hrun.
  simpl in Hrun. rewrite Himages in Hrun.
  rewrite (createImageViews_loop_refused env before refused after Hbefore
             Hrefused []
             (resize (length (before ++ refused :: after)) VK_NULL_HANDLE
                (swapChainImageViews a))) in Hrun.
  - eexists _, waits, info. split; [|split; [done|]].
    + rewrite Hrun. unfold view_refused_trace. f_equal.
    + simpl. by rewrite Himages.
  - done.
  - rewrite length_resize, length_app. simpl. lia.
Qed.

Lemma recreateSwapChain_view_refused_witness :
  ∃ s waits info,
    recreateSwapChain ex_recreate_view_refused ex_app
    = (Stopped (Thrown imageview_failed), s,
       EvRecreateSwapChain :: EvGetFramebufferSize 800 600
       :: waits ++ view_refused_trace ex_recreate_view_refused ex_app info
                     [10] 11)
    ∧ swapChainImageViews s = [110; 2; 0].
Proof.
  destruct (recreateSwapChain_view_refused ex_recreate_view_refused ex_app
              [10] 11 [12])
    as (s & waits & info & Hrun & _ & _ & _ & Hviews).
  - reflexivity.
  - by eexists.
  - reflexivity.
  - reflexivity.
  - repeat constructor.
  - by vm_compute.
  - exists s, waits, info. split; [exact Hrun|exact Hviews].
Defined.

(** ** Start-up as a whole *)




